(** * Backup / restore orchestration of pterodactyl-backups.py

    A shallow embedding of [src/pterodactyl-backups.py].  The program is a
    thin layer of control flow around external effects (glob, docker and
    proxmox-backup-client run through the shell, file deletion), so the
    embedding is a small monad that threads the history of effects: every
    primitive asks the host what happened, given everything that happened
    before, and appends one event to the history. *)

From Stdlib Require Import String Ascii List ZArith Bool Lia DecimalString.
Import ListNotations.
Open Scope list_scope.
Open Scope string_scope.

Set Implicit Arguments.

(** ** Python string helpers

    A string stands for a Python [str] whose code points are below 256,
    one character for each code point. *)

Module Py.

(** [str.isspace] below 256: TAB..CR, FS..US, the space, NEL (U+0085) and
    the no-break space (U+00A0).  These are the characters at which
    [str.split()] splits and which [str.strip()] removes. *)
Definition is_space (c : ascii) : bool :=
  let n := nat_of_ascii c in
  ((9 <=? n) && (n <=? 13) || (28 <=? n) && (n <=? 32)
   || (n =? 133) || (n =? 160))%nat%bool.

(** [bool(s)] for a string. *)
Definition truthy (s : string) : bool :=
  match s with EmptyString => false | String _ _ => true end.

Fixpoint lstrip (s : string) : string :=
  match s with
  | EmptyString => EmptyString
  | String c s' => if is_space c then lstrip s' else s
  end.

Fixpoint rstrip (s : string) : string :=
  match s with
  | EmptyString => EmptyString
  | String c s' =>
      match rstrip s' with
      | EmptyString => if is_space c then EmptyString else String c EmptyString
      | r => String c r
      end
  end.

(** [s.strip()] *)
Definition strip (s : string) : string := rstrip (lstrip s).

(** [s.split(sep)] for a one-character separator: empty pieces are kept
    and the empty string splits into one empty piece. *)
Fixpoint split_on (sep : ascii) (s : string) : list string :=
  match s with
  | EmptyString => [EmptyString]
  | String c s' =>
      if Ascii.eqb c sep then EmptyString :: split_on sep s'
      else match split_on sep s' with
           | h :: t => String c h :: t
           | [] => [String c EmptyString]
           end
  end.

(** [s.split()]: maximal runs of non-blank characters, none of them empty.
    [cur] is the word being read, if any. *)
Fixpoint split_ws_from (cur : option string) (s : string) : list string :=
  match s with
  | EmptyString => match cur with Some w => [w] | None => [] end
  | String c s' =>
      if is_space c
      then match cur with
           | Some w => w :: split_ws_from None s'
           | None => split_ws_from None s'
           end
      else split_ws_from
             (Some (match cur with Some w => w ++ String c EmptyString | None => String c EmptyString end)) s'
  end.

Definition split_ws (s : string) : list string := split_ws_from None s.

(** [sep.join(l)] *)
Fixpoint join (sep : string) (l : list string) : string :=
  match l with
  | [] => EmptyString
  | [x] => x
  | x :: rest => x ++ sep ++ join sep rest
  end.

Definition startswith (p s : string) : bool := String.prefix p s.

Fixpoint endswith_char (c : ascii) (s : string) : bool :=
  match s with
  | EmptyString => false
  | String d EmptyString => Ascii.eqb c d
  | String _ s' => endswith_char c s'
  end.

(** [os.path.join(a, b)] of posixpath, two arguments. *)
Definition path_join (a b : string) : string :=
  if startswith "/" b then b
  else if negb (truthy a) || endswith_char "/" a then a ++ b
  else a ++ "/" ++ b.

(** [sub in s] *)
Fixpoint contains (sub s : string) : bool :=
  String.prefix sub s ||
  match s with
  | EmptyString => false
  | String _ s' => contains sub s'
  end.

(** Line boundaries of [str.splitlines] below 256: LF, VT, FF, CR, FS, GS,
    RS and NEL (U+0085). *)
Definition is_linebreak (c : ascii) : bool :=
  let n := nat_of_ascii c in
  ((10 <=? n) && (n <=? 13) || (28 <=? n) && (n <=? 30) || (n =? 133))%nat%bool.

(** [s.splitlines()]: CR LF counts once and a final boundary opens no
    empty last line.  [cur] is the line being read, if any. *)
Fixpoint splitlines_from (cur : option string) (s : string) : list string :=
  match s with
  | EmptyString => match cur with Some l => [l] | None => [] end
  | String c s' =>
      if is_linebreak c then
        let line := match cur with Some l => l | None => EmptyString end in
        match s' with
        | String d s'' =>
            if Ascii.eqb c (ascii_of_nat 13) && Ascii.eqb d (ascii_of_nat 10)
            then line :: splitlines_from None s''
            else line :: splitlines_from None s'
        | EmptyString => [line]
        end
      else splitlines_from
             (Some (match cur with
                    | Some l => l ++ String c EmptyString
                    | None => String c EmptyString
                    end)) s'
  end.

Definition splitlines (s : string) : list string := splitlines_from None s.

(** [str(n)] for an integer. *)
Definition str_of_Z (z : Z) : string := NilZero.string_of_int (Z.to_int z).

(** What a command that prints one name per line writes. *)
Fixpoint unlines (l : list string) : string :=
  match l with
  | [] => EmptyString
  | n :: rest => n ++ String "010" (unlines rest)
  end.

End Py.

(** The helpers on the inputs the program gives them. *)

Example strip_lookup_output :
  Py.split_on "010" (Py.strip (Py.unlines ["alpha-world"; "alpha-test"]))
  = ["alpha-world"; "alpha-test"].
Proof. reflexivity. Qed.

Example strip_nothing : Py.split_on "010" (Py.strip EmptyString) = [EmptyString].
Proof. reflexivity. Qed.

Example split_ws_cron : Py.split_ws " 0 3  * * *  " = ["0"; "3"; "*"; "*"; "*"].
Proof. reflexivity. Qed.

(** A no-break space separates fields like any other blank. *)
Example split_ws_no_break_space :
  Py.split_ws ("0 3 * *" ++ String (ascii_of_nat 160) "*") = ["0"; "3"; "*"; "*"; "*"].
Proof. reflexivity. Qed.

Example splitlines_mixed :
  Py.splitlines (String "a" (String "013" (String "010" (String "b" (String "010" EmptyString)))))
  = ["a"; "b"].
Proof. reflexivity. Qed.

Example path_join_relative : Py.path_join "/data/alpha-world" "tmp/logs" = "/data/alpha-world/tmp/logs".
Proof. reflexivity. Qed.

Example path_join_trailing_slash : Py.path_join "/data/alpha-world/" "cache" = "/data/alpha-world/cache".
Proof. reflexivity. Qed.

Example path_join_absolute : Py.path_join "/data/alpha-world" "/etc" = "/etc".
Proof. reflexivity. Qed.

Example str_of_Z_negative : Py.str_of_Z (-9) = "-9".
Proof. reflexivity. Qed.

(** ** Effects *)

Inductive level := Debug | Info | Error.

(** A finished process: [returncode], captured [stdout] and [stderr]. *)
Record completed := Completed {
  returncode : Z;
  stdout : string;
  stderr : string
}.

(** What the host makes of a command line handed to subprocess with
    shell=True and text=True: the process ran to its end and its output
    decoded; or it ran to its end with the given status and its output is
    not valid text, so that communicate() raises UnicodeDecodeError; or the
    shell could not be started (OSError). *)
Inductive ran :=
| Exited (c : completed)
| Undecodable (code : Z) (text : string)
| Unlaunched (text : string).


(** One event per call that leaves the program, with the host's answer. *)
Inductive event :=
| Glob (pattern : string) (matches : list string)
    (* glob.glob(pattern) *)
| CheckOutput (cmd : string) (r : ran)
    (* subprocess.check_output(cmd, shell=True, text=True) *)
| Run (cmd : string) (r : option ran)
    (* subprocess.run(cmd, shell=True, timeout=...); None: timeout expired *)
| Popen (cmd : string) (r : ran)
    (* subprocess.Popen(cmd, shell=True).communicate() *)
| Listdir (path : string) (r : option (list string))
    (* os.listdir(path); None: OSError *)
| Isfile (path : string) (b : bool)
| Isdir (path : string) (b : bool)
| Unlink (path : string) (err : option string)
    (* os.unlink(path); Some e: an exception with text e *)
| Rmtree (path : string) (err : option string)
    (* shutil.rmtree(path); Some e: an exception with text e *)
| Print (line : string)
| Log (lvl : level) (msg : string).

Definition trace := list event.

(** The host: the module-level settings read from config.yaml, and the
    answer of every external call as a function of the history so far, so
    that the same call may be answered differently at different times. *)
Record World := {
  VOLUMES_PATH : string;
  PBS_REPOSITORY : string;
  PBS_NAMESPACE : string;
  w_glob : trace -> string -> list string;
  w_check_output : trace -> string -> ran;
  w_run : trace -> string -> option ran;
  w_popen : trace -> string -> ran;
  w_listdir : trace -> string -> option (list string);
  w_isfile : trace -> string -> bool;
  w_isdir : trace -> string -> bool;
  w_unlink : trace -> string -> option string;
  w_rmtree : trace -> string -> option string;
  (* CronTrigger(minute, hour, day, month, day_of_week); Some e: the fields
     are rejected with a ValueError of text e *)
  w_cron_error : string -> string -> string -> string -> string -> option string;
  (* uuid4().hex, as apscheduler draws it for a job added without an id *)
  w_uuid4 : trace -> string
}.

(** Python exceptions the program meets.  UnicodeDecodeError is a
    ValueError for an except clause. *)
Inductive exn :=
| ValueError (msg : string)
| UnicodeDecodeError (msg : string)
| CalledProcessError (code : Z) (out err : string)
| TimeoutExpired
| KeyError (key : string)
| TypeError (msg : string)
| OSError (msg : string).

Inductive outcome (A : Type) :=
| Returned (a : A)
| Raised (e : exn).
Arguments Returned {A} a.
Arguments Raised {A} e.

(** A computation reads the history so far and yields an outcome together
    with the events it added, oldest first. *)
Definition M (A : Type) := trace -> outcome A * list event.

Definition ret {A} (a : A) : M A := fun _ => (Returned a, []).

Definition raise {A} (e : exn) : M A := fun _ => (Raised e, []).

Definition bind {A B} (m : M A) (k : A -> M B) : M B := fun t =>
  let (r, e1) := m t in
  match r with
  | Returned a => let (r', e2) := k a (t ++ e1)%list in (r', (e1 ++ e2)%list)
  | Raised x => (Raised x, e1)
  end.

(** [try: body  except <exceptions selected by handler>: ...] *)
Definition try_except {A} (body : M A) (handler : exn -> option (M A)) : M A :=
  fun t =>
    let (r, e1) := body t in
    match r with
    | Returned a => (Returned a, e1)
    | Raised x =>
        match handler x with
        | Some h => let (r', e2) := h (t ++ e1)%list in (r', (e1 ++ e2)%list)
        | None => (Raised x, e1)
        end
    end.

(** [try: body  finally: fin]: [fin] runs whatever [body] did; the outcome
    is that of [body] unless [fin] itself raises. *)
Definition try_finally {A} (body : M A) (fin : M unit) : M A := fun t =>
  let (r, e1) := body t in
  let (rf, e2) := fin (t ++ e1)%list in
  match rf with
  | Returned _ => (r, (e1 ++ e2)%list)
  | Raised x => (Raised x, (e1 ++ e2)%list)
  end.

Declare Scope py_scope.
Delimit Scope py_scope with py.
Notation "x <- m ;; k" := (bind m (fun x => k))
  (at level 100, m at next level, right associativity) : py_scope.
Notation "m ;;; k" := (bind m (fun _ => k))
  (at level 100, right associativity) : py_scope.
Open Scope py_scope.

Definition when (b : bool) (m : M unit) : M unit := if b then m else ret tt.

Definition result {A} (m : M A) (t : trace) : outcome A := fst (m t).
Definition emitted {A} (m : M A) (t : trace) : list event := snd (m t).

(** What communicate() gives for the host's answer: the finished process,
    or the exception it raises. *)
Definition communicated (r : ran) : outcome completed :=
  match r with
  | Exited c => Returned c
  | Undecodable _ text => Raised (UnicodeDecodeError text)
  | Unlaunched text => Raised (OSError text)
  end.

(** check=True: a non-zero status raises CalledProcessError. *)
Definition checked (c : completed) : outcome completed :=
  if Z.eqb (returncode c) 0 then Returned c
  else Raised (CalledProcessError (returncode c) (stdout c) (stderr c)).

(** A key of the [servers] dict of config.yaml: a string, or another
    hashable value (a number, None, a boolean) given by its [str()] and its
    truth value. *)
Inductive key :=
| KStr (s : string)
| KOther (text : string) (truth : bool).

(** [str(k)] *)
Definition str_of_key (k : key) : string :=
  match k with KStr s => s | KOther text _ => text end.

(** [bool(k)] *)
Definition key_truthy (k : key) : bool :=
  match k with KStr s => Py.truthy s | KOther _ truth => truth end.

Definition key_eqb (a b : key) : bool :=
  match a, b with
  | KStr s, KStr s' => String.eqb s s'
  | KOther x p, KOther y q => String.eqb x y && Bool.eqb p q
  | _, _ => false
  end.

Section Program.

Variable w : World.

(** *** Primitives *)

Definition log (l : level) (msg : string) : M unit :=
  fun _ => (Returned tt, [Log l msg]).

Definition glob (pattern : string) : M (list string) := fun t =>
  let ms := w_glob w t pattern in (Returned ms, [Glob pattern ms]).

(** [check_output(cmd, shell=True, text=True)]: the output is decoded
    first, then check=True looks at the status. *)
Definition check_output (cmd : string) : M string := fun t =>
  let r := w_check_output w t cmd in
  (match communicated r with
   | Returned c =>
       match checked c with
       | Returned c => Returned (stdout c)
       | Raised e => Raised e
       end
   | Raised e => Raised e
   end,
   [CheckOutput cmd r]).

(** [subprocess.run(cmd, shell=True, check=True, timeout=...,
    capture_output=True, text=True)] *)
Definition subprocess_run (cmd : string) : M completed := fun t =>
  let r := w_run w t cmd in
  (match r with
   | None => Raised TimeoutExpired
   | Some r' =>
       match communicated r' with
       | Returned c => checked c
       | Raised e => Raised e
       end
   end,
   [Run cmd r]).

(** [Popen(cmd, shell=True, ..., text=True)] followed by [communicate()]. *)
Definition popen_communicate (cmd : string) : M completed := fun t =>
  let r := w_popen w t cmd in (communicated r, [Popen cmd r]).

Definition listdir (path : string) : M (list string) := fun t =>
  let r := w_listdir w t path in
  (match r with
   | None => Raised (OSError "listdir")
   | Some l => Returned l
   end,
   [Listdir path r]).

Definition isfile (path : string) : M bool := fun t =>
  let b := w_isfile w t path in (Returned b, [Isfile path b]).

Definition isdir (path : string) : M bool := fun t =>
  let b := w_isdir w t path in (Returned b, [Isdir path b]).

Definition unlink (path : string) : M unit := fun t =>
  let r := w_unlink w t path in
  (match r with None => Returned tt | Some e => Raised (OSError e) end,
   [Unlink path r]).

Definition rmtree (path : string) : M unit := fun t =>
  let r := w_rmtree w t path in
  (match r with None => Returned tt | Some e => Raised (OSError e) end,
   [Rmtree path r]).

(** *** get_container_path (lines 67-77) *)

Definition volume_pattern (server_id : string) : string :=
  VOLUMES_PATH w ++ "/" ++ server_id ++ "*".

Definition multiple_directories (server_id : string) : string :=
  "Multiple directories found for server ID " ++ server_id.

Definition no_directory (server_id : string) : string :=
  "No directory found for server ID " ++ server_id.

Definition get_container_path (server_id : string) : M string :=
  matches <- glob (volume_pattern server_id) ;;
  if (1 <? length matches)%nat then raise (ValueError (multiple_directories server_id))
  else if (length matches =? 0)%nat then raise (ValueError (no_directory server_id))
  else ret (hd EmptyString matches).

(** *** run_command (lines 79-107) *)

Definition timeout_seconds : Z := 14400.

Definition run_command (cmd : string) : M bool :=
  log Info ("Executing command: " ++ cmd) ;;;
  try_except
    (r <- subprocess_run cmd ;;
     when (Py.truthy (stdout r)) (log Debug ("Command output: " ++ stdout r)) ;;;
     ret true)
    (fun e =>
       match e with
       | TimeoutExpired => Some (
           log Error ("Command timed out after " ++ Py.str_of_Z timeout_seconds
                      ++ " seconds: " ++ cmd) ;;;
           ret false)
       | CalledProcessError code out err => Some (
           log Error ("Command failed with exit code " ++ Py.str_of_Z code
                      ++ ": " ++ cmd) ;;;
           when (Py.truthy out) (log Error ("stdout: " ++ out)) ;;;
           when (Py.truthy err) (log Error ("stderr: " ++ err)) ;;;
           ret false)
       | _ => None
       end).

(** *** manage_container (lines 109-128) *)

Definition lookup_cmd (server_id : string) : string :=
  "docker ps -a --format '{{.Names}}' | grep '^" ++ server_id ++ "'".

Definition docker_cmd (action container_name : string) : string :=
  "docker " ++ action ++ " " ++ container_name.

Definition no_container (server_id : string) : string :=
  "No container found for server ID " ++ server_id.

Definition multiple_containers (server_id : string) : string :=
  "Multiple containers found for server ID " ++ server_id.

Definition lookup_failed (server_id : string) : string :=
  "Failed to get container name for server ID " ++ server_id.

Definition is_blank_list (l : list string) : bool :=
  match l with
  | [] => true
  | [EmptyString] => true
  | _ => false
  end.

Definition manage_container (server_id action : string) : M bool :=
  try_except
    (out <- check_output (lookup_cmd server_id) ;;
     let containers := Py.split_on "010" (Py.strip out) in
     if is_blank_list containers then
       log Error (no_container server_id) ;;; ret false
     else if (1 <? length containers)%nat then
       log Error (multiple_containers server_id) ;;; ret false
     else
       run_command (docker_cmd action (hd EmptyString containers)))
    (fun e =>
       match e with
       | CalledProcessError _ _ _ => Some (
           log Error (lookup_failed server_id) ;;; ret false)
       | _ => None
       end).

(** *** Per-server settings

    A server's entry of config.yaml is a dict; [name] and [schedule] are
    checked at load time, [shutdown] and [ignore_paths] are optional.  The
    empty dict of main's fallback has none of the keys. *)

Record Settings := {
  cfg_name : option string;
  cfg_schedule : option string;
  cfg_shutdown : option bool;
  cfg_ignore_paths : option (list string)
}.

Definition empty_settings : Settings :=
  {| cfg_name := None; cfg_schedule := None;
     cfg_shutdown := None; cfg_ignore_paths := None |}.

(** [config.get("shutdown", False)] *)
Definition get_shutdown (config : Settings) : bool :=
  match cfg_shutdown config with Some b => b | None => false end.

(** [config.get("ignore_paths", [])] *)
Definition get_ignore_paths (config : Settings) : list string :=
  match cfg_ignore_paths config with Some l => l | None => [] end.

(** [server_config['shutdown'] = True] *)
Definition set_shutdown (config : Settings) : Settings :=
  {| cfg_name := cfg_name config; cfg_schedule := cfg_schedule config;
     cfg_shutdown := Some true; cfg_ignore_paths := cfg_ignore_paths config |}.

(** *** backup_server (lines 130-202) *)

Definition dq : string := String (ascii_of_nat 34) EmptyString.
Definition nl : string := String (ascii_of_nat 10) EmptyString.

Definition running_query (server_id : string) : string :=
  "docker ps --format '{{.Names}}' | grep '^" ++ server_id ++ "'".

(** Lines 161-166: the loop that extends [exclude_args] entry by entry. *)
Definition exclude_args (container_path : string) (ignore_paths : list string)
  : list string :=
  fold_left
    (fun acc rel_path =>
       (acc ++ ["--exclude"; Py.path_join container_path rel_path])%list)
    ignore_paths [].

(** Lines 169-177: the list [cmd], its fixed part first. *)
Definition backup_base (server_id container_path : string) : list string :=
  [ "proxmox-backup-client"; "backup";
    dq ++ server_id ++ ".pxar:" ++ container_path ++ dq;
    "--repository"; "'" ++ PBS_REPOSITORY w ++ "'";
    "--ns"; PBS_NAMESPACE w;
    "--backup-type"; "host";
    "--change-detection-mode"; "metadata";
    "--backup-id"; server_id ].

Definition backup_cmd (server_id container_path : string)
           (ignore_paths : list string) : list string :=
  app (backup_base server_id container_path)
      (exclude_args container_path ignore_paths).

(** Lines 143-157.  [None]: backup_server returns False here;
    [Some b]: it goes on with [container_was_running = b]. *)
Definition stop_if_running (server_id : string) (config : Settings)
  : M (option bool) :=
  if get_shutdown config then
    try_except
      (out <- check_output (running_query server_id) ;;
       let container_was_running := Py.truthy (Py.strip out) in
       if container_was_running then
         stopped <- manage_container server_id "stop" ;;
         if negb stopped then
           log Error ("Failed to stop container " ++ server_id) ;;; ret None
         else ret (Some true)
       else ret (Some false))
      (fun e =>
         match e with
         | CalledProcessError _ _ _ => Some (ret (Some false))
         | _ => None
         end)
  else ret (Some false).

(** Lines 159-196: the body of the try block. *)
Definition run_backup (server_id : string) (config : Settings)
           (container_path : string) : M bool :=
  let cmd := backup_cmd server_id container_path (get_ignore_paths config) in
  p <- popen_communicate (Py.join " " cmd) ;;
  when (Py.truthy (stdout p))
       (log Info ("Backup output for " ++ server_id ++ ":" ++ nl ++ stdout p)) ;;;
  when (Py.truthy (stderr p))
       (log Info ("Backup progress for " ++ server_id ++ ":" ++ nl ++ stderr p)) ;;;
  let success := Z.eqb (returncode p) 0 in
  (if success then log Info ("Backup completed successfully for " ++ server_id)
   else log Error ("Backup failed for " ++ server_id)) ;;;
  ret success.

(** Lines 198-202: the finally block. *)
Definition restart_if_stopped (server_id : string) (config : Settings)
           (container_was_running : bool) : M unit :=
  when (get_shutdown config && container_was_running)
       (started <- manage_container server_id "start" ;;
        when (negb started) (log Error ("Failed to start container " ++ server_id))).

(** Lines 137-141 and 211-215: resolution with its ValueError handler. *)
Definition resolve_or_log (server_id : string) : M (option string) :=
  try_except
    (container_path <- get_container_path server_id ;; ret (Some container_path))
    (fun e =>
       match e with
       | ValueError msg | UnicodeDecodeError msg => Some (log Error msg ;;; ret None)
       | _ => None
       end).

Definition backup_server (server_id : string) (config : Settings) : M bool :=
  log Info ("Starting backup for " ++ server_id) ;;;
  resolved <- resolve_or_log server_id ;;
  match resolved with
  | None => ret false
  | Some container_path =>
      s <- stop_if_running server_id config ;;
      match s with
      | None => ret false
      | Some container_was_running =>
          try_finally
            (run_backup server_id config container_path)
            (restart_if_stopped server_id config container_was_running)
      end
  end.

(** *** restore_server (lines 204-253) *)

(** [str(e)] *)
Definition exn_text (e : exn) : string :=
  match e with
  | ValueError msg => msg
  | UnicodeDecodeError msg => msg
  | TypeError msg => msg
  | OSError msg => msg
  | KeyError k => "'" ++ k ++ "'"
  | TimeoutExpired => "Command timed out"
  | CalledProcessError code _ _ =>
      "Command returned non-zero exit status " ++ Py.str_of_Z code ++ "."
  end.

(** Lines 225-233, one turn of the loop.  [false]: restore_server returns
    False here; [true]: the loop goes on. *)
Definition delete_item (container_path item : string) : M bool :=
  let item_path := Py.path_join container_path item in
  try_except
    (f <- isfile item_path ;;
     if f then unlink item_path ;;; ret true
     else
       d <- isdir item_path ;;
       if d then rmtree item_path ;;; ret true
       else ret true)
    (fun e => Some (
       log Error ("Failed to delete " ++ item_path ++ ": " ++ exn_text e) ;;;
       ret false)).

Fixpoint delete_contents (container_path : string) (items : list string)
  : M bool :=
  match items with
  | [] => ret true
  | item :: rest =>
      go_on <- delete_item container_path item ;;
      if go_on then delete_contents container_path rest else ret false
  end.

(** Lines 236-243: the list [cmd]. *)
Definition restore_cmd (server_id snapshot_name container_path : string)
  : list string :=
  [ "proxmox-backup-client"; "restore";
    snapshot_name;
    dq ++ server_id ++ ".ppxar" ++ dq;
    dq ++ container_path ++ dq;
    "--repository"; "'" ++ PBS_REPOSITORY w ++ "'";
    "--ns"; PBS_NAMESPACE w ].

Definition restore_server (server_id snapshot_name : string) : M bool :=
  log Info ("Starting restore for " ++ server_id ++ " using snapshot "
            ++ snapshot_name) ;;;
  resolved <- resolve_or_log server_id ;;
  match resolved with
  | None => ret false
  | Some container_path =>
      killed <- manage_container server_id "kill" ;;
      if negb killed then
        log Error ("Failed to kill container " ++ server_id) ;;; ret false
      else
        try_finally
          (items <- listdir container_path ;;
           wiped <- delete_contents container_path items ;;
           if negb wiped then ret false
           else
             ok <- run_command
                     (Py.join " " (restore_cmd server_id snapshot_name
                                               container_path)) ;;
             if ok then
               log Info ("Restore completed successfully for " ++ server_id) ;;;
               ret true
             else
               log Error ("Restore failed for " ++ server_id) ;;; ret false)
          (ret tt)
  end.

(** *** schedule_jobs (lines 255-281) *)

Record CronFields := {
  cron_minute : string;
  cron_hour : string;
  cron_day : string;
  cron_month : string;
  cron_day_of_week : string
}.

(** A job of the scheduler: the id apscheduler settled on, and what
    [scheduler.add_job] was given. *)
Record Job := {
  job_id : string;
  job_name : string;
  job_trigger : CronFields;
  job_args : key * Settings;
  job_misfire_grace_time : Z
}.

Definition cron_trigger (minute hour dom month dow : string) : M CronFields :=
  match w_cron_error w minute hour dom month dow with
  | Some e => raise (ValueError e)
  | None =>
      ret {| cron_minute := minute; cron_hour := hour; cron_day := dom;
             cron_month := month; cron_day_of_week := dow |}
  end.

(** [settings["schedule"]] *)
Definition schedule_of (settings : Settings) : M string :=
  match cfg_schedule settings with
  | Some s => ret s
  | None => raise (KeyError "schedule")
  end.

(** [scheduler.add_job(backup_server, trigger, args=..., id=..., name=...,
    misfire_grace_time=...)] on a scheduler that has not been started: the
    job is kept after the jobs added before.  apscheduler takes
    [id or uuid4().hex] for the id and raises TypeError when that is not a
    string. *)
Definition add_job (scheduler : list Job) (trigger : CronFields)
           (args : key * Settings) (id : key) (name : string)
           (misfire_grace_time : Z) : M (list Job) := fun t =>
  let added (id' : string) :=
    (Returned (scheduler ++ [ {| job_id := id'; job_name := name;
                                 job_trigger := trigger; job_args := args;
                                 job_misfire_grace_time := misfire_grace_time |} ])%list,
     []) in
  if key_truthy id then
    match id with
    | KStr s => added s
    | KOther _ _ => (Raised (TypeError "id must be a nonempty string"), [])
    end
  else added (w_uuid4 w t).

(** One turn of the loop of schedule_jobs. *)
Definition schedule_one (scheduler : list Job) (server_id : key)
           (settings : Settings) : M (list Job) :=
  try_except
    (schedule <- schedule_of settings ;;
     let cron_expr := Py.split_ws schedule in
     if negb (length cron_expr =? 5)%nat then
       log Error ("Invalid cron format for " ++ str_of_key server_id
                  ++ ", skipping.") ;;;
       ret scheduler
     else
       match cron_expr with
       | [minute; hour; dom; month; dow] =>
           trigger <- cron_trigger minute hour dom month dow ;;
           scheduler' <- add_job scheduler trigger (server_id, settings)
                                 server_id ("Backup " ++ str_of_key server_id)
                                 3600 ;;
           log Info ("Scheduled backup for " ++ str_of_key server_id
                     ++ " with schedule: " ++ schedule) ;;;
           ret scheduler'
       | _ => raise (ValueError "unpack")
       end)
    (fun e => Some (
       log Error ("Failed to schedule backup for " ++ str_of_key server_id ++ ": "
                  ++ exn_text e) ;;;
       ret scheduler)).

Fixpoint schedule_jobs (scheduler : list Job)
         (servers : list (key * Settings)) : M (list Job) :=
  match servers with
  | [] => ret scheduler
  | (server_id, settings) :: rest =>
      scheduler' <- schedule_one scheduler server_id settings ;;
      schedule_jobs scheduler' rest
  end.

(** *** list_snapshots (lines 283-307) *)

Definition snapshots_cmd : list string :=
  [ "proxmox-backup-client"; "snapshots";
    "--repository"; "'" ++ PBS_REPOSITORY w ++ "'";
    "--ns"; PBS_NAMESPACE w ].

Definition list_snapshots (server_id : string) : M (list string) :=
  log Info ("Listing snapshots for " ++ server_id) ;;;
  p <- popen_communicate (Py.join " " snapshots_cmd) ;;
  if negb (Z.eqb (returncode p) 0) then
    log Error ("Failed to list snapshots: " ++ stderr p) ;;; ret []
  else
    ret (map Py.strip
             (filter (Py.contains server_id) (Py.splitlines (stdout p)))).

(** *** main (lines 309-393) *)

Record Args := {
  arg_backup : bool;
  arg_restore : bool;
  arg_server_id : option string;
  arg_snapshot : option string;
  arg_list_snapshots : bool;
  arg_shutdown : bool
}.

(** How main ends: [sys.exit(code)], or the scheduler is started with the
    jobs registered. *)
Inductive finished :=
| Exit (code : Z)
| Scheduling (jobs : list Job).

(** An option of the command line that was given and is not empty. *)
Definition supplied (o : option string) : option string :=
  match o with
  | Some s => if Py.truthy s then Some s else None
  | None => None
  end.

Definition print (line : string) : M unit :=
  fun _ => (Returned tt, [Print line]).

Fixpoint print_all (lines : list string) : M unit :=
  match lines with
  | [] => ret tt
  | l :: rest => print l ;;; print_all rest
  end.

(** [config['servers'].get(server_id, {})] for the string of the command
    line: only a string key equals it. *)
Fixpoint servers_get (servers : list (key * Settings)) (server_id : string)
  : Settings :=
  match servers with
  | [] => empty_settings
  | (k, v) :: rest =>
      if key_eqb k (KStr server_id) then v else servers_get rest server_id
  end.

Definition main (args : Args) (servers : list (key * Settings))
  : M finished :=
  if arg_list_snapshots args then
    match supplied (arg_server_id args) with
    | None =>
        log Error "Server ID is required for listing snapshots" ;;;
        ret (Exit 1)
    | Some server_id =>
        snapshots <- list_snapshots server_id ;;
        match snapshots with
        | [] => print "No snapshots found"
        | _ => print (nl ++ "Available snapshots:") ;;; print_all snapshots
        end ;;;
        ret (Exit 0)
    end
  else if arg_backup args then
    match supplied (arg_server_id args) with
    | None =>
        log Error "Server ID is required for backup" ;;; ret (Exit 1)
    | Some server_id =>
        let server_config := servers_get servers server_id in
        let server_config :=
          if arg_shutdown args then set_shutdown server_config
          else server_config in
        ok <- backup_server server_id server_config ;;
        if ok then log Info "Backup completed successfully" ;;; ret (Exit 0)
        else log Error "Backup failed" ;;; ret (Exit 1)
    end
  else if arg_restore args then
    match supplied (arg_server_id args), supplied (arg_snapshot args) with
    | Some server_id, Some snapshot =>
        ok <- restore_server server_id snapshot ;;
        if ok then log Info "Restore completed successfully" ;;; ret (Exit 0)
        else log Error "Restore failed" ;;; ret (Exit 1)
    | _, _ =>
        log Error "Both server ID and snapshot name are required for restore" ;;;
        ret (Exit 1)
    end
  else
    jobs <- schedule_jobs [] servers ;;
    log Info "Starting backup scheduler" ;;;
    ret (Scheduling jobs).

End Program.

(** The exit status of the process: the code of [sys.exit], or 1 when an
    exception leaves main (the interpreter prints the traceback and ends
    with 1); none while the scheduler runs. *)
Definition exit_status (r : outcome finished) : option Z :=
  match r with
  | Returned (Exit code) => Some code
  | Returned (Scheduling _) => None
  | Raised _ => Some 1%Z
  end.

(** ** Shapes of the runs *)

Definition is_log (e : event) : Prop :=
  match e with Log _ _ => True | _ => False end.

(** Exceptions no except clause around a subprocess call selects. *)
Definition unhandled (e : exn) : Prop :=
  match e with
  | UnicodeDecodeError _ | OSError _ => True
  | _ => False
  end.

Lemma communicated_unhandled (r : ran) (e : exn) :
  communicated r = Raised e -> unhandled e.
Proof. destruct r; cbn; intros H; try discriminate H; injection H as <-; exact I. Qed.

(** The exception a subprocess event ends with. *)
Definition raises (ev : event) (e : exn) : Prop :=
  match ev with
  | CheckOutput _ r | Popen _ r | Run _ (Some r) => communicated r = Raised e
  | _ => False
  end.

(** A subprocess call among the events ended with the exception. *)
Definition broke (e : exn) (evs : list event) : Prop :=
  exists ev, In ev evs /\ raises ev e.

(** What run_command makes of the host's answer. *)
Definition run_verdict (r : option ran) : outcome bool :=
  match r with
  | None => Returned false
  | Some r' =>
      match communicated r' with
      | Returned c => Returned (Z.eqb (returncode c) 0)
      | Raised e => Raised e
      end
  end.

(** The command ran to its end, its output decoded and its status is zero. *)
Definition run_succeeded (r : option ran) : bool :=
  match r with
  | Some (Exited c) => Z.eqb (returncode c) 0
  | _ => false
  end.

Lemma run_verdict_true (r : option ran) :
  run_verdict r = Returned true <-> run_succeeded r = true.
Proof.
  destruct r as [[c|z m|m]|]; cbn; split; intros H;
    try discriminate H; try (injection H as H; assumption);
    try (rewrite H; reflexivity).
Qed.

Lemma run_verdict_raised (r : option ran) (e : exn) :
  run_verdict r = Raised e <-> exists r', r = Some r' /\ communicated r' = Raised e.
Proof.
  destruct r as [r'|]; cbn.
  - split.
    + intros H. exists r'. split; [reflexivity|].
      destruct (communicated r') as [c|x]; [discriminate H|].
      injection H as <-. reflexivity.
    + intros (r2 & H & H'). injection H as <-. rewrite H'. reflexivity.
  - split; [discriminate | intros (r' & H & _); discriminate H].
Qed.

Lemma bind_returned {A B} (m : M A) (k : A -> M B) (t : trace)
      (a : A) (e1 : list event) (r : outcome B) (e2 : list event) :
  m t = (Returned a, e1) ->
  k a (t ++ e1)%list = (r, e2) ->
  bind m k t = (r, (e1 ++ e2)%list).
Proof. intros Hm Hk. unfold bind. rewrite Hm, Hk. reflexivity. Qed.

Lemma bind_raised {A B} (m : M A) (k : A -> M B) (t : trace)
      (x : exn) (e1 : list event) :
  m t = (Raised x, e1) ->
  bind m k t = (Raised x, e1).
Proof. intros Hm. unfold bind. rewrite Hm. reflexivity. Qed.

Lemma try_finally_returned {A} (body : M A) (fin : M unit) (t : trace)
      (r : outcome A) (e1 e2 : list event) (u : unit) :
  body t = (r, e1) ->
  fin (t ++ e1)%list = (Returned u, e2) ->
  try_finally body fin t = (r, (e1 ++ e2)%list).
Proof. intros Hb Hf. unfold try_finally. rewrite Hb, Hf. reflexivity. Qed.

Lemma try_finally_raised {A} (body : M A) (fin : M unit) (t : trace)
      (r : outcome A) (e1 e2 : list event) (x : exn) :
  body t = (r, e1) ->
  fin (t ++ e1)%list = (Raised x, e2) ->
  try_finally body fin t = (Raised x, (e1 ++ e2)%list).
Proof. intros Hb Hf. unfold try_finally. rewrite Hb, Hf. reflexivity. Qed.

Lemma try_finally_run {A} (body : M A) (fin : M unit) (t : trace)
      (r : outcome A) (e1 e2 : list event) (rf : outcome unit) :
  body t = (r, e1) ->
  fin (t ++ e1)%list = (rf, e2) ->
  try_finally body fin t
  = (match rf with Returned _ => r | Raised x => Raised x end, (e1 ++ e2)%list).
Proof.
  intros Hb Hf. unfold try_finally. rewrite Hb, Hf. destruct rf; reflexivity.
Qed.

Ltac unfold_monad :=
  unfold bind, try_except, try_finally, when, ret, raise, log, glob,
    check_output, subprocess_run, popen_communicate, listdir, isfile, isdir,
    unlink, rmtree, print.

Lemma run_command_run (w : World) (cmd : string) (t : trace) :
  let started := Log Info ("Executing command: " ++ cmd) in
  let r := w_run w (t ++ [started])%list cmd in
  exists logs,
    run_command w cmd t = (run_verdict r, started :: Run cmd r :: logs)
    /\ Forall is_log logs
    /\ (run_verdict r = Returned false <-> exists msg, In (Log Error msg) logs).
Proof.
  cbv zeta. unfold run_command. unfold_monad. cbn.
  assert (Hno : forall out, ~ exists msg, In (Log Error msg) [Log Debug out]).
  { intros out (msg & [H|[]]). discriminate H. }
  destruct (w_run w _ cmd) as [[[code out err]|z m|m]|]; cbn; unfold checked; cbn.
  - destruct (Z.eqb code 0) eqn:E; cbn.
    + destruct (Py.truthy out); cbn; eexists; (split; [reflexivity|]);
        (split; [repeat constructor|]); split; try discriminate.
      * intros H. exfalso. exact (Hno _ H).
      * intros (msg & []).
    + destruct (Py.truthy out), (Py.truthy err); cbn; eexists;
        (split; [reflexivity|]); (split; [repeat constructor|]);
        (split; [intros _; eexists; left; reflexivity | reflexivity]).
  - exists []. split; [reflexivity|]. split; [constructor|].
    split; [discriminate | intros (msg & [])].
  - exists []. split; [reflexivity|]. split; [constructor|].
    split; [discriminate | intros (msg & [])].
  - eexists. split; [reflexivity|]. split; [repeat constructor|].
    split; [intros _; eexists; left; reflexivity | reflexivity].
Qed.

(** The lines of a lookup's output, as manage_container reads them. *)
Definition lookup_lines (c : completed) : list string :=
  Py.split_on "010"%char (Py.strip (stdout c)).

(** How manage_container's lookup ends: the container name it settles on,
    the error it logs, or the exception that leaves it. *)
Inductive verdict :=
| Named (name : string)
| Refused (msg : string)
| Broken (e : exn).

Definition lookup_verdict (server_id : string) (lk : ran) : verdict :=
  match communicated lk with
  | Raised e => Broken e
  | Returned c =>
      if Z.eqb (returncode c) 0 then
        if is_blank_list (lookup_lines c) then Refused (no_container server_id)
        else if (1 <? length (lookup_lines c))%nat
             then Refused (multiple_containers server_id)
             else Named (hd EmptyString (lookup_lines c))
      else Refused (lookup_failed server_id)
  end.

Lemma manage_container_run (w : World) (server_id action : string) (t : trace) :
  let lk := w_check_output w t (lookup_cmd server_id) in
  let seen := CheckOutput (lookup_cmd server_id) lk in
  manage_container w server_id action t =
    match lookup_verdict server_id lk with
    | Broken e => (Raised e, [seen])
    | Refused msg => (Returned false, [seen; Log Error msg])
    | Named name =>
        (fst (run_command w (docker_cmd action name) (t ++ [seen])%list),
         seen :: snd (run_command w (docker_cmd action name) (t ++ [seen])%list))
    end.
Proof.
  intros lk seen. unfold manage_container, lookup_verdict, lookup_lines.
  unfold try_except at 1. unfold bind at 1. unfold check_output at 1.
  fold lk. fold seen.
  destruct lk as [c|z m|m] eqn:Elk; cbn [communicated]; try reflexivity.
  unfold checked.
  destruct (Z.eqb (returncode c) 0) eqn:Ecode; [|reflexivity].
  destruct (is_blank_list _) eqn:Eblank; [reflexivity|].
  destruct (1 <? _)%nat eqn:Emany; [reflexivity|].
  destruct (run_command_run w (docker_cmd action
               (hd EmptyString (Py.split_on "010"%char (Py.strip (stdout c)))))
               (t ++ [seen])%list) as (logs & Hrun & _).
  cbv zeta in Hrun. rewrite Hrun. cbn [fst snd].
  destruct (run_verdict _) as [b|e] eqn:Ev; [reflexivity|].
  apply run_verdict_raised in Ev as (r' & _ & Hc).
  apply communicated_unhandled in Hc. destruct e; try contradiction; reflexivity.
Qed.

(** Events manage_container may add for a given server and action. *)
Definition container_event (server_id action : string) (e : event) : Prop :=
  match e with
  | Log _ _ => True
  | CheckOutput cmd _ => cmd = lookup_cmd server_id
  | Run cmd _ => exists name, cmd = docker_cmd action name
  | _ => False
  end.

(** A docker command of the given action ran to its end with decodable
    output and status zero. *)
Definition docker_succeeded (action : string) (evs : list event) : Prop :=
  exists name c,
    In (Run (docker_cmd action name) (Some (Exited c))) evs /\ returncode c = 0%Z.

Lemma is_log_container_event (server_id action : string) (evs : list event) :
  Forall is_log evs -> Forall (container_event server_id action) evs.
Proof.
  induction 1 as [|e l He _ IH]; constructor; auto.
  destruct e; simpl in *; tauto.
Qed.

Lemma in_logs_absurd (e : event) (logs : list event) :
  Forall is_log logs -> In e logs -> is_log e.
Proof. intros H Hin. rewrite Forall_forall in H. auto. Qed.

Lemma logs_do_not_break (logs : list event) (e : exn) :
  Forall is_log logs -> ~ broke e logs.
Proof.
  intros H (ev & Hin & Hr). apply (in_logs_absurd _ H) in Hin.
  destruct ev; simpl in *; tauto.
Qed.

Lemma manage_container_ends (w : World) (server_id action : string) (t : trace) :
  exists ro evs,
    manage_container w server_id action t = (ro, evs)
    /\ Forall (container_event server_id action) evs
    /\ (ro = Returned true <-> docker_succeeded action evs)
    /\ (forall e, ro = Raised e <-> broke e evs).
Proof.
  rewrite manage_container_run.
  set (lk := w_check_output w t (lookup_cmd server_id)).
  set (seen := CheckOutput (lookup_cmd server_id) lk).
  unfold lookup_verdict.
  destruct (communicated lk) as [c|x] eqn:Elk.
  - assert (Hseen : forall e, ~ raises seen e).
    { intros e H. unfold seen in H. cbn in H. congruence. }
    assert (Hrefused : forall msg,
               exists ro evs,
                 (Returned false, [seen; Log Error msg]) = (ro, evs)
                 /\ Forall (container_event server_id action) evs
                 /\ (ro = Returned true <-> docker_succeeded action evs)
                 /\ (forall e, ro = Raised e <-> broke e evs)).
    { intros msg. eexists _, _. split; [reflexivity|]. split; [repeat constructor|].
      split; split; try discriminate.
      - intros (n & c' & [H|[H|[]]] & _); discriminate H.
      - intros (ev & [<-|[<-|[]]] & H); exfalso; [exact (Hseen _ H) | exact H]. }
    destruct (Z.eqb (returncode c) 0); [|apply Hrefused].
    destruct (is_blank_list _); [apply Hrefused|].
    destruct (1 <? _)%nat; [apply Hrefused|].
    set (name := hd EmptyString (lookup_lines c)).
    destruct (run_command_run w (docker_cmd action name) (t ++ [seen])%list)
      as (logs & Hrun & Hlogs & _).
    cbv zeta in Hrun. rewrite Hrun. cbn [fst snd].
    set (r := w_run w _ (docker_cmd action name)).
    eexists _, _. split; [reflexivity|]. split; [|split].
    + constructor; [reflexivity|]. constructor; [exact I|].
      constructor; [exists name; reflexivity|].
      apply is_log_container_event; assumption.
    + rewrite run_verdict_true. split.
      * intros Hr. destruct r as [[c'|z m|m]|] eqn:Er; simpl in Hr; try discriminate Hr.
        exists name, c'. split; [right; right; left; reflexivity|].
        apply Z.eqb_eq. assumption.
      * intros (n & c' & Hin & Hc).
        destruct Hin as [H|[H|[H|H]]]; try discriminate H.
        -- injection H as _ Hr. rewrite Hr. simpl. apply Z.eqb_eq. assumption.
        -- apply (in_logs_absurd _ Hlogs) in H. contradiction.
    + intros e. rewrite run_verdict_raised. split.
      * intros (r' & Hr & Hc). exists (Run (docker_cmd action name) r).
        split; [right; right; left; reflexivity|]. rewrite Hr. exact Hc.
      * intros (ev & Hin & Hev).
        destruct Hin as [<-|[<-|[<-|Hin]]].
        -- exfalso. exact (Hseen _ Hev).
        -- contradiction.
        -- cbn in Hev. destruct r as [r'|]; [|contradiction]. eauto.
        -- apply (in_logs_absurd _ Hlogs) in Hin. destruct ev; simpl in *; tauto.
  - eexists _, _. split; [reflexivity|]. split; [repeat constructor|].
    split; split; try discriminate.
    + intros (n & c' & [H|[]] & _). discriminate H.
    + intros H. injection H as <-. exists seen. split; [left; reflexivity|]. exact Elk.
    + intros (ev & [<-|[]] & H). unfold seen in H. cbn in H. congruence.
Qed.

Lemma manage_container_events (w : World) (server_id action : string) (t : trace)
      (ro : outcome bool) (es : list event) :
  manage_container w server_id action t = (ro, es) ->
  Forall (container_event server_id action) es
  /\ (ro = Returned true <-> docker_succeeded action es)
  /\ (forall e, ro = Raised e <-> broke e es).
Proof.
  intros H.
  destruct (manage_container_ends w server_id action t)
    as (ro' & es' & H' & Hev & Hb & Hr).
  rewrite H in H'. injection H' as -> ->. split; [|split]; assumption.
Qed.

Lemma manage_container_unhandled (w : World) (server_id action : string) (t : trace)
      (e : exn) (es : list event) :
  manage_container w server_id action t = (Raised e, es) -> unhandled e.
Proof.
  intros H. apply manage_container_events in H as (_ & _ & Hr).
  destruct (proj1 (Hr e) eq_refl) as (ev & _ & Hev).
  destruct ev as [| |? [r|]|? r| | | | | | |]; cbn in Hev; try contradiction;
    eapply communicated_unhandled; eassumption.
Qed.

(** *** backup_server *)

(** The answer to backup_server's query shows a running container. *)
Definition shows_running (q : ran) : bool :=
  match q with
  | Exited c => Z.eqb (returncode c) 0 && Py.truthy (Py.strip (stdout c))
  | _ => false
  end.

(** What backup_server makes of the backup process. *)
Definition backup_outcome (pr : ran) : outcome bool :=
  match communicated pr with
  | Returned c => Returned (Z.eqb (returncode c) 0)
  | Raised e => Raised e
  end.

(** The error line after a manage_container that returned False. *)
Definition unless_true (ro : outcome bool) (msg : string) : list event :=
  match ro with
  | Returned false => [Log Error msg]
  | _ => []
  end.

(** The outcome of a call given up after manage_container: False, or the
    exception manage_container raised. *)
Definition given_up (ro : outcome bool) : outcome bool :=
  match ro with
  | Returned _ => Returned false
  | Raised e => Raised e
  end.

(** The outcome of a try block whose finally clause ran manage_container. *)
Definition after_finally (fin r : outcome bool) : outcome bool :=
  match fin with
  | Returned _ => r
  | Raised e => Raised e
  end.

Lemma stop_if_running_run (w : World) (server_id : string) (config : Settings)
      (t : trace) :
  get_shutdown config = true ->
  let q := w_check_output w t (running_query server_id) in
  let seen := CheckOutput (running_query server_id) q in
  match communicated q with
  | Raised e => stop_if_running w server_id config t = (Raised e, [seen])
  | Returned _ =>
      if shows_running q then
        exists ro es,
          manage_container w server_id "stop" (t ++ [seen])%list = (ro, es)
          /\ stop_if_running w server_id config t =
               (match ro with
                | Returned true => Returned (Some true)
                | Returned false => Returned None
                | Raised e => Raised e
                end,
                seen :: es ++ unless_true ro
                                ("Failed to stop container " ++ server_id))%list
      else stop_if_running w server_id config t = (Returned (Some false), [seen])
  end.
Proof.
  intros Hsd q seen.
  assert (Hq : check_output w (running_query server_id) t =
               (match communicated q with
                | Returned c =>
                    match checked c with
                    | Returned c => Returned (stdout c)
                    | Raised e => Raised e
                    end
                | Raised e => Raised e
                end, [seen])) by reflexivity.
  destruct (communicated q) as [c|e] eqn:Ec.
  - assert (q = Exited c) as Eq.
    { destruct q; cbn in Ec; [injection Ec as ->; reflexivity | discriminate..]. }
    rewrite Eq. cbn [shows_running]. unfold checked in Hq.
    destruct (Z.eqb (returncode c) 0) eqn:Ecode; cbn [andb].
    + destruct (Py.truthy (Py.strip (stdout c))) eqn:Erun.
      * destruct (manage_container_ends w server_id "stop" (t ++ [seen])%list)
          as (ro & es & Hm & _).
        exists ro, es. split; [assumption|].
        unfold stop_if_running. rewrite Hsd.
        unfold try_except at 1. unfold bind at 1. rewrite Hq, Erun.
        unfold bind at 1. rewrite Hm.
        destruct ro as [[|]|x]; cbn; rewrite ?app_nil_r; try reflexivity.
        apply manage_container_unhandled in Hm.
        destruct x; try contradiction; reflexivity.
      * unfold stop_if_running. rewrite Hsd.
        unfold try_except at 1. unfold bind at 1. rewrite Hq, Erun. reflexivity.
    + unfold stop_if_running. rewrite Hsd.
      unfold try_except at 1. unfold bind at 1. rewrite Hq. reflexivity.
  - pose proof (communicated_unhandled _ Ec) as Hu.
    unfold stop_if_running. rewrite Hsd.
    unfold try_except at 1. unfold bind at 1. rewrite Hq.
    destruct e; try contradiction; reflexivity.
Qed.

Lemma run_backup_run (w : World) (server_id : string) (config : Settings)
      (container_path : string) (t : trace) :
  let cmd := Py.join " " (backup_cmd w server_id container_path
                                     (get_ignore_paths config)) in
  exists logs,
    run_backup w server_id config container_path t =
      (backup_outcome (w_popen w t cmd), Popen cmd (w_popen w t cmd) :: logs)
    /\ Forall is_log logs.
Proof.
  intros cmd. unfold run_backup, backup_outcome. fold cmd.
  unfold bind at 1. unfold popen_communicate at 1.
  destruct (communicated (w_popen w t cmd)) as [c|e].
  - unfold_monad. cbn.
    destruct (Py.truthy (stdout c)), (Py.truthy (stderr c)),
      (Z.eqb (returncode c) 0); cbn;
      eexists; (split; [reflexivity | repeat constructor]).
  - exists []. split; [reflexivity | constructor].
Qed.

Lemma restart_if_stopped_run (w : World) (server_id : string) (config : Settings)
      (was_running : bool) (t : trace) :
  if get_shutdown config && was_running then
    exists ro es,
      manage_container w server_id "start" t = (ro, es)
      /\ restart_if_stopped w server_id config was_running t =
           (match ro with Returned _ => Returned tt | Raised e => Raised e end,
            es ++ unless_true ro ("Failed to start container " ++ server_id))%list
  else restart_if_stopped w server_id config was_running t = (Returned tt, []).
Proof.
  unfold restart_if_stopped.
  destruct (get_shutdown config && was_running); [|reflexivity].
  destruct (manage_container_ends w server_id "start" t) as (ro & es & Hm & _).
  exists ro, es. split; [assumption|].
  unfold when at 1. unfold bind at 1. rewrite Hm.
  destruct ro as [[|]|x]; cbn; rewrite ?app_nil_r; reflexivity.
Qed.

(** The ValueError text of get_container_path for a glob answer that does
    not hold exactly one path. *)
Definition resolution_error (w : World) (server_id : string) (ms : list string)
  : string :=
  if (1 <? length ms)%nat then multiple_directories server_id
  else no_directory server_id.

Lemma get_container_path_run (w : World) (server_id : string) (t : trace) :
  let ms := w_glob w t (volume_pattern w server_id) in
  get_container_path w server_id t =
    (match ms with
     | [path] => Returned path
     | _ => Raised (ValueError (resolution_error w server_id ms))
     end,
     [Glob (volume_pattern w server_id) ms]).
Proof.
  intros ms. unfold get_container_path, resolution_error.
  unfold bind at 1. unfold glob at 1. fold ms.
  destruct ms as [|p [|p' rest]]; reflexivity.
Qed.

Lemma resolve_or_log_run (w : World) (server_id : string) (t : trace) :
  let ms := w_glob w t (volume_pattern w server_id) in
  resolve_or_log w server_id t =
    match ms with
    | [path] => (Returned (Some path), [Glob (volume_pattern w server_id) ms])
    | _ => (Returned None,
            [Glob (volume_pattern w server_id) ms;
             Log Error (resolution_error w server_id ms)])
    end.
Proof.
  intros ms. unfold resolve_or_log.
  unfold try_except at 1. unfold bind at 1.
  rewrite get_container_path_run. fold ms.
  destruct ms as [|p [|p' rest]]; reflexivity.
Qed.

Section BackupRuns.

Variable w : World.
Variable server_id : string.
Variable config : Settings.
Variable t : trace.

Definition backup_started : event :=
  Log Info ("Starting backup for " ++ server_id).

Definition backup_line (container_path : string) : string :=
  Py.join " " (backup_cmd w server_id container_path (get_ignore_paths config)).

Definition stop_failed : string :=
  "Failed to stop container " ++ server_id.

Definition start_failed : string :=
  "Failed to start container " ++ server_id.

Local Open Scope list_scope.

(** The events up to and including the query for a running container. *)
Definition queried (container_path : string) (q : ran) : list event :=
  [ backup_started;
    Glob (volume_pattern w server_id) [container_path];
    CheckOutput (running_query server_id) q ].

(** The ways a call of backup_server goes. *)
Inductive backup_run : outcome bool -> list event -> Prop :=
| Backup_unresolved (ms : list string) :
    length ms <> 1 ->
    backup_run (Returned false)
      [ backup_started;
        Glob (volume_pattern w server_id) ms;
        Log Error (resolution_error w server_id ms) ]
| Backup_no_shutdown (path : string) (pr : ran) (logs : list event) :
    get_shutdown config = false ->
    Forall is_log logs ->
    backup_run (backup_outcome pr)
      (backup_started :: Glob (volume_pattern w server_id) [path]
         :: Popen (backup_line path) pr :: logs)
| Backup_query_broke (path : string) (q : ran) (e : exn) :
    get_shutdown config = true ->
    communicated q = Raised e ->
    backup_run (Raised e) (queried path q)
| Backup_not_running (path : string) (q : ran) (pr : ran) (logs : list event) :
    get_shutdown config = true ->
    shows_running q = false ->
    (exists c, q = Exited c) ->
    Forall is_log logs ->
    backup_run (backup_outcome pr)
      (queried path q ++ Popen (backup_line path) pr :: logs)
| Backup_stop_failed (path : string) (q : ran) (ro : outcome bool)
                     (es : list event) :
    get_shutdown config = true ->
    shows_running q = true ->
    manage_container w server_id "stop" (t ++ queried path q) = (ro, es) ->
    ro <> Returned true ->
    backup_run (given_up ro) (queried path q ++ es ++ unless_true ro stop_failed)
| Backup_stopped (path : string) (q : ran) (es : list event)
                 (pr : ran) (logs : list event)
                 (started : outcome bool) (es' : list event) :
    get_shutdown config = true ->
    shows_running q = true ->
    manage_container w server_id "stop" (t ++ queried path q)
      = (Returned true, es) ->
    Forall is_log logs ->
    manage_container w server_id "start"
      (t ++ queried path q ++ es ++ Popen (backup_line path) pr :: logs)
      = (started, es') ->
    backup_run (after_finally started (backup_outcome pr))
      (queried path q ++ es ++ Popen (backup_line path) pr :: logs
         ++ es' ++ unless_true started start_failed).

Lemma backup_server_run :
  exists r evs,
    backup_server w server_id config t = (r, evs) /\ backup_run r evs.
Proof.
  set (t0 := t ++ [backup_started]).
  pose proof (resolve_or_log_run w server_id t0) as Hres. cbv zeta in Hres.
  assert (Hbad : forall ms, length ms <> 1 ->
            resolve_or_log w server_id t0 =
              (Returned None,
               [Glob (volume_pattern w server_id) ms;
                Log Error (resolution_error w server_id ms)]) ->
            exists r evs,
              backup_server w server_id config t = (r, evs) /\ backup_run r evs).
  { intros ms Hlen Hr. eexists _, _. split.
    - unfold backup_server.
      eapply bind_returned; [reflexivity|].
      eapply bind_returned; [exact Hr|]. reflexivity.
    - cbn [app]. apply Backup_unresolved. assumption. }
  destruct (w_glob w t0 (volume_pattern w server_id)) as [|path [|p' rest]] eqn:Ems.
  - apply (Hbad []); [simpl; lia | exact Hres].
  - set (t1 := t0 ++ [Glob (volume_pattern w server_id) [path]]).
    destruct (get_shutdown config) eqn:Hsd.
    + pose proof (stop_if_running_run w server_id config t1 Hsd) as Hstop.
      cbv zeta in Hstop.
      set (q := w_check_output w t1 (running_query server_id)) in *.
      assert (Ht : t1 ++ [CheckOutput (running_query server_id) q]
                   = t ++ queried path q).
      { unfold t1, t0, queried. rewrite <- !app_assoc. reflexivity. }
      destruct (communicated q) as [c|e] eqn:Ec.
      2:{ (* the query raised *)
          eexists _, _. split.
          - unfold backup_server.
            eapply bind_returned; [reflexivity|].
            eapply bind_returned; [exact Hres|].
            eapply bind_raised. exact Hstop.
          - change ([backup_started] ++ [Glob (volume_pattern w server_id) [path]]
                      ++ [CheckOutput (running_query server_id) q])
              with (queried path q).
            apply Backup_query_broke; assumption. }
      assert (Eq : q = Exited c).
      { destruct q; cbn in Ec; [injection Ec as ->; reflexivity | discriminate..]. }
      destruct (shows_running q) eqn:Hq.
      * destruct Hstop as (ro & es & Hm & Hrun).
        rewrite Ht in Hm.
        destruct ro as [[|]|x].
        -- (* stopped *)
           set (t2 := t1 ++ CheckOutput (running_query server_id) q
                        :: es ++ unless_true (Returned true)
                                   ("Failed to stop container " ++ server_id)%string).
           destruct (run_backup_run w server_id config path t2)
             as (logs & Hb & Hlogs).
           fold (backup_line path) in Hb.
           set (pr := w_popen w t2 (backup_line path)) in *.
           pose proof (restart_if_stopped_run w server_id config true
                         (t2 ++ Popen (backup_line path) pr :: logs)) as Hr.
           rewrite Hsd in Hr. cbn [andb] in Hr.
           destruct Hr as (started & es' & Hm' & Hr).
           assert (Ht2 : t2 ++ Popen (backup_line path) pr :: logs
                         = t ++ queried path q ++ es
                             ++ Popen (backup_line path) pr :: logs).
           { unfold t2, t1, t0, queried, unless_true.
             rewrite app_nil_r. rewrite <- !app_assoc. reflexivity. }
           rewrite Ht2 in Hm'.
           eexists _, _. split.
           ++ unfold backup_server.
              eapply bind_returned; [reflexivity|].
              eapply bind_returned; [exact Hres|].
              eapply bind_returned; [exact Hrun|].
              eapply try_finally_run; [exact Hb | exact Hr].
           ++ match goal with
              | |- backup_run ?r ?l =>
                  replace l with
                    (queried path q ++ es ++ Popen (backup_line path) pr :: logs
                       ++ es' ++ unless_true started start_failed);
                  [replace r with (after_finally started (backup_outcome pr))|]
              end.
              ** eapply Backup_stopped; eassumption.
              ** destruct started; reflexivity.
              ** unfold queried, unless_true at 2. cbn [app].
                 rewrite app_nil_r. reflexivity.
        -- (* the stop failed *)
           eexists _, _. split.
           ++ unfold backup_server.
              eapply bind_returned; [reflexivity|].
              eapply bind_returned; [exact Hres|].
              eapply bind_returned; [exact Hrun|]. reflexivity.
           ++ match goal with
              | |- backup_run _ ?l =>
                  replace l with (queried path q ++ es
                                    ++ unless_true (Returned false) stop_failed)
              end.
              ** apply (@Backup_stop_failed path q (Returned false) es);
                   try assumption. discriminate.
              ** unfold queried, unless_true, stop_failed. cbn [app].
                 rewrite app_nil_r. reflexivity.
        -- (* the stop raised *)
           eexists _, _. split.
           ++ unfold backup_server.
              eapply bind_returned; [reflexivity|].
              eapply bind_returned; [exact Hres|].
              eapply bind_raised. exact Hrun.
           ++ match goal with
              | |- backup_run _ ?l =>
                  replace l with (queried path q ++ es
                                    ++ unless_true (Raised x) stop_failed)
              end.
              ** apply (@Backup_stop_failed path q (Raised x) es);
                   try assumption. discriminate.
              ** unfold queried, unless_true. cbn [app]. reflexivity.
      * (* not running *)
        set (t2 := t1 ++ [CheckOutput (running_query server_id) q]).
        destruct (run_backup_run w server_id config path t2)
          as (logs & Hb & Hlogs).
        fold (backup_line path) in Hb.
        set (pr := w_popen w t2 (backup_line path)) in *.
        pose proof (restart_if_stopped_run w server_id config false
                      (t2 ++ Popen (backup_line path) pr :: logs)) as Hr.
        rewrite Hsd in Hr. cbn [andb] in Hr.
        eexists _, _. split.
        -- unfold backup_server.
           eapply bind_returned; [reflexivity|].
           eapply bind_returned; [exact Hres|].
           eapply bind_returned; [exact Hstop|].
           eapply try_finally_returned; [exact Hb | exact Hr].
        -- match goal with
           | |- backup_run _ ?l =>
               replace l with (queried path q ++ Popen (backup_line path) pr :: logs)
           end.
           ++ apply Backup_not_running; try assumption. eauto.
           ++ unfold queried. cbn [app]. rewrite app_nil_r. reflexivity.
    + (* no shutdown asked for *)
      destruct (run_backup_run w server_id config path (t1 ++ []))
        as (logs & Hb & Hlogs).
      fold (backup_line path) in Hb.
      set (pr := w_popen w (t1 ++ []) (backup_line path)) in *.
      pose proof (restart_if_stopped_run w server_id config false
                    ((t1 ++ []) ++ Popen (backup_line path) pr :: logs)) as Hr.
      rewrite Hsd in Hr. cbn [andb] in Hr.
      eexists _, _. split.
      * unfold backup_server.
        eapply bind_returned; [reflexivity|].
        eapply bind_returned; [exact Hres|].
        eapply bind_returned;
          [unfold stop_if_running; rewrite Hsd; reflexivity|].
        eapply try_finally_returned; [exact Hb | exact Hr].
      * cbn [app]. rewrite app_nil_r.
        apply Backup_no_shutdown; assumption.
  - apply (Hbad (path :: p' :: rest)); [simpl; lia | exact Hres].
Qed.

End BackupRuns.

(** ** Facts about the events of a run *)

Lemma container_event_in (server_id action : string) (es : list event) (e : event) :
  Forall (container_event server_id action) es -> In e es ->
  container_event server_id action e.
Proof. intros H Hin. rewrite Forall_forall in H. auto. Qed.

Lemma stop_is_not_start (n1 n2 : string) : docker_cmd "stop" n1 <> docker_cmd "start" n2.
Proof. unfold docker_cmd. cbn. intros H. discriminate. Qed.

Lemma query_is_not_lookup (s1 s2 : string) : running_query s1 <> lookup_cmd s2.
Proof. unfold running_query, lookup_cmd. cbn. intros H. discriminate. Qed.

Lemma broke_app (e : exn) (l1 l2 : list event) :
  broke e (l1 ++ l2) <-> broke e l1 \/ broke e l2.
Proof.
  unfold broke. split.
  - intros (ev & Hin & H). apply in_app_or in Hin as [Hin|Hin]; eauto.
  - intros [(ev & Hin & H)|(ev & Hin & H)]; exists ev; rewrite in_app_iff; tauto.
Qed.

Lemma broke_cons (e : exn) (ev : event) (l : list event) :
  broke e (ev :: l) <-> raises ev e \/ broke e l.
Proof.
  unfold broke. split.
  - intros (ev' & [<-|Hin] & H); eauto.
  - intros [H|(ev' & Hin & H)]; [exists ev | exists ev']; cbn; tauto.
Qed.

Lemma broke_nil (e : exn) : ~ broke e [].
Proof. intros (ev & [] & _). Qed.

Lemma unless_true_logs (ro : outcome bool) (msg : string) :
  Forall is_log (unless_true ro msg).
Proof. destruct ro as [[|]|x]; repeat constructor. Qed.

(** Membership in a run's events, taken apart down to single events and
    the event lists of the calls the run is made of. *)
Ltac in_cases H :=
  repeat match type of H with
    | In _ (_ ++ _)%list => apply in_app_or in H; destruct H as [H|H]
    | In _ (_ :: _) => destruct H as [H|H]
    | In _ [] => destruct H
    | In _ (queried _ _ _ _) => unfold queried in H
    | In _ (unless_true ?ro _) =>
        let b := fresh "b" in let x := fresh "x" in
        destruct ro as [[|]|x]; unfold unless_true in H
    end.

Ltac absurd_event :=
  match goal with
  | H : _ = _ |- _ => discriminate H
  | H : In ?e ?es, F : Forall is_log ?es |- _ =>
      exact (False_ind _ (in_logs_absurd e F H))
  | H : In ?e ?es, F : Forall (container_event ?s ?a) ?es |- _ =>
      exact (False_ind _ (container_event_in e F H))
  end.

Ltac each_event :=
  repeat first [ apply Forall_nil | apply Forall_cons; [try exact I|] ].

Section BackupFacts.

Variable w : World.
Variable server_id : string.
Variable config : Settings.
Variable t : trace.

Lemma queried_unbroken (path : string) (q : ran) (e : exn) :
  shows_running q = true \/ (exists c, q = Exited c) ->
  ~ broke e (queried w server_id path q).
Proof.
  intros Hq (ev & Hin & H). assert (Hc : exists c, q = Exited c).
  { destruct Hq as [Hq|Hq]; [|assumption].
    destruct q; try discriminate Hq. eauto. }
  destruct Hc as (c & ->).
  unfold queried in Hin. in_cases Hin; subst ev; cbn in H; try contradiction.
  discriminate H.
Qed.

(** An exception that leaves backup_server is the exception of one of its
    subprocess calls. *)
Lemma backup_run_raised (r : outcome bool) (evs : list event) :
  backup_run w server_id config t r evs ->
  forall e, r = Raised e -> broke e evs.
Proof.
  intros Hrun e He.
  destruct Hrun as [ms Hlen | path pr logs Hsd Hlogs | path q x Hsd Hq
                   | path q pr logs Hsd Hq Hc Hlogs
                   | path q ro es Hsd Hq Hstop Hro
                   | path q es pr logs started es' Hsd Hq Hstop Hlogs Hstart].
  - discriminate He.
  - exists (Popen (backup_line w server_id config path) pr).
    split; [right; right; left; reflexivity|]. cbn. unfold backup_outcome in He.
    destruct (communicated pr); [discriminate He | congruence].
  - injection He as ->. exists (CheckOutput (running_query server_id) q).
    split; [right; right; left; reflexivity | exact Hq].
  - exists (Popen (backup_line w server_id config path) pr).
    split; [apply in_or_app; right; left; reflexivity|]. cbn.
    unfold backup_outcome in He.
    destruct (communicated pr); [discriminate He | congruence].
  - apply manage_container_events in Hstop as (_ & _ & Hr).
    destruct ro as [b|x]; [discriminate He|]. injection He as ->.
    apply broke_app. right. apply broke_app. left. apply Hr. reflexivity.
  - apply manage_container_events in Hstart as (_ & _ & Hr).
    apply broke_app. right. apply broke_app. right. apply broke_cons.
    destruct started as [b|x]; cbn in He.
    + left. cbn. unfold backup_outcome in He.
      destruct (communicated pr); [discriminate He | congruence].
    + injection He as ->. right. apply broke_app. right. apply broke_app. left.
      apply Hr. reflexivity.
Qed.

(** No except clause swallows the exception of a subprocess call: a run in
    which one raised ends with an exception. *)
Lemma backup_run_broke (r : outcome bool) (evs : list event) :
  backup_run w server_id config t r evs ->
  forall e, broke e evs -> exists e', r = Raised e'.
Proof.
  intros Hrun e Hb.
  assert (Hpopen : forall pr, raises (Popen (backup_line w server_id config
                                                          (EmptyString)) pr) e ->
                              exists e', backup_outcome pr = Raised e').
  { intros pr H. cbn in H. unfold backup_outcome. rewrite H. eauto. }
  destruct Hrun as [ms Hlen | path pr logs Hsd Hlogs | path q x Hsd Hq
                   | path q pr logs Hsd Hq Hc Hlogs
                   | path q ro es Hsd Hq Hstop Hro
                   | path q es pr logs started es' Hsd Hq Hstop Hlogs Hstart].
  - exfalso. destruct Hb as (ev & Hin & H). in_cases Hin; subst ev; exact H.
  - destruct Hb as (ev & Hin & H). in_cases Hin; try (subst ev; contradiction).
    + subst ev. apply Hpopen. exact H.
    + exfalso. apply (in_logs_absurd _ Hlogs) in Hin. destruct ev; simpl in *; tauto.
  - eauto.
  - apply broke_app in Hb as [Hb|Hb];
      [exfalso; exact (queried_unbroken (or_intror Hc) Hb)|].
    apply broke_cons in Hb as [H|Hb]; [apply Hpopen; exact H|].
    exfalso. exact (logs_do_not_break Hlogs Hb).
  - apply manage_container_events in Hstop as (_ & _ & Hr).
    apply broke_app in Hb as [Hb|Hb];
      [exfalso; exact (queried_unbroken (or_introl Hq) Hb)|].
    apply broke_app in Hb as [Hb|Hb].
    + apply Hr in Hb. subst ro. cbn. eauto.
    + exfalso. exact (logs_do_not_break (unless_true_logs _ _) Hb).
  - pose proof (manage_container_events _ _ _ _ Hstop) as (_ & _ & Hr).
    pose proof (manage_container_events _ _ _ _ Hstart) as (_ & _ & Hr').
    destruct started as [b|x]; [|cbn; eauto]. cbn [after_finally].
    apply broke_app in Hb as [Hb|Hb];
      [exfalso; exact (queried_unbroken (or_introl Hq) Hb)|].
    apply broke_app in Hb as [Hb|Hb]; [apply Hr in Hb; discriminate Hb|].
    apply broke_cons in Hb as [H|Hb]; [apply Hpopen; exact H|].
    apply broke_app in Hb as [Hb|Hb]; [exfalso; exact (logs_do_not_break Hlogs Hb)|].
    apply broke_app in Hb as [Hb|Hb]; [apply Hr' in Hb; discriminate Hb|].
    exfalso. exact (logs_do_not_break (unless_true_logs _ _) Hb).
Qed.

(** The backup process of a run decides its outcome, when no exception
    leaves the call. *)
Lemma backup_run_popen (r : outcome bool) (evs : list event) :
  backup_run w server_id config t r evs ->
  forall cmd pr, In (Popen cmd pr) evs ->
    (exists path, cmd = backup_line w server_id config path)
    /\ (r = backup_outcome pr \/ exists e, r = Raised e).
Proof.
  intros Hrun cmd pr' Hin.
  destruct Hrun as [ms Hlen | path pr logs Hsd Hlogs | path q x Hsd Hq
                   | path q pr logs Hsd Hq Hc Hlogs
                   | path q ro es Hsd Hq Hstop Hro
                   | path q es pr logs started es' Hsd Hq Hstop Hlogs Hstart].
  - in_cases Hin; absurd_event.
  - in_cases Hin; try absurd_event.
    injection Hin as <- <-. split; [eauto | left; reflexivity].
  - in_cases Hin; absurd_event.
  - in_cases Hin; try absurd_event.
    injection Hin as <- <-. split; [eauto | left; reflexivity].
  - apply manage_container_events in Hstop as [Hes _].
    in_cases Hin; absurd_event.
  - apply manage_container_events in Hstop as [Hes _].
    apply manage_container_events in Hstart as [Hes' _].
    in_cases Hin; try absurd_event.
    injection Hin as <- <-. split; [eauto|].
    destruct started; cbn; eauto.
Qed.


End BackupFacts.

(** ** Properties of backup_server *)


(** The query of backup_server was answered with a running container. *)
Definition observed_running (server_id : string) (evs : list event) : Prop :=
  exists q,
    In (CheckOutput (running_query server_id) q) evs /\ shows_running q = true.

Lemma queried_observed (w : World) (server_id path : string) (q q' : ran)
      (rest : list event) :
  (forall e, In e rest ->
             match e with CheckOutput cmd _ => cmd = lookup_cmd server_id | _ => True end) ->
  In (CheckOutput (running_query server_id) q') (queried w server_id path q ++ rest) ->
  q' = q.
Proof.
  intros Hrest Hin. in_cases Hin; try absurd_event.
  - injection Hin as ->. reflexivity.
  - apply Hrest in Hin. exfalso. exact (query_is_not_lookup Hin).
Qed.

Lemma logs_lookup (server_id : string) (logs : list event) :
  Forall is_log logs ->
  forall e, In e logs ->
    match e with CheckOutput cmd _ => cmd = lookup_cmd server_id | _ => True end.
Proof.
  intros H e Hin. apply (in_logs_absurd _ H) in Hin.
  destruct e; simpl in *; tauto.
Qed.


Lemma manage_container_issues (w : World) (server_id action : string) (t : trace)
      (name : string) :
  lookup_verdict server_id (w_check_output w t (lookup_cmd server_id)) = Named name ->
  exists rr, In (Run (docker_cmd action name) rr)
                (emitted (manage_container w server_id action) t).
Proof.
  intros Hv. unfold emitted. rewrite manage_container_run. rewrite Hv.
  set (seen := CheckOutput _ _).
  destruct (run_command_run w (docker_cmd action name) (t ++ [seen])%list)
    as (logs & Hrun & _).
  cbv zeta in Hrun. rewrite Hrun. cbn [snd]. eexists. right. right. left. reflexivity.
Qed.

Lemma manage_container_idle (w : World) (server_id action : string) (t : trace) :
  (forall name,
      lookup_verdict server_id (w_check_output w t (lookup_cmd server_id))
      <> Named name) ->
  forall cmd rr, ~ In (Run cmd rr) (emitted (manage_container w server_id action) t).
Proof.
  intros Hv cmd rr. unfold emitted. rewrite manage_container_run.
  destruct (lookup_verdict _ _) as [name|msg|e].
  - exfalso. exact (Hv name eq_refl).
  - cbn. intros [H|[H|[]]]; discriminate H.
  - cbn. intros [H|[]]. discriminate H.
Qed.

(** C1, as the code has it.  With shutdown asked for: when the container
    was seen running and a docker stop succeeded, the backup command is
    attempted exactly once and, whatever became of it (status zero, another
    status, or an exception), manage_container(server_id, "start") runs
    right after it and its logging.  docker start is issued for the
    container the lookup of that call names when it names one; when it
    names none or several, or fails, no docker start is issued at all.
    The outcome of backup_server is that of the backup command unless the
    restart raises.  When the container was not seen running, no docker
    start is issued. *)
Theorem backup_restarts_on_every_exit_path :
  forall (w : World) (server_id : string) (config : Settings) (t : trace)
         (r : outcome bool) (evs : list event),
    backup_server w server_id config t = (r, evs) ->
    get_shutdown config = true ->
    (observed_running server_id evs ->
     docker_succeeded "stop" evs ->
     exists path pre pr logs started es',
       let attempted :=
         (pre ++ Popen (backup_line w server_id config path) pr :: logs)%list in
       let lookup :=
         lookup_verdict server_id
           (w_check_output w (t ++ attempted)%list (lookup_cmd server_id)) in
       evs = (attempted ++ es' ++ unless_true started (start_failed server_id))%list
       /\ (forall cmd pr', ~ In (Popen cmd pr') pre)
       /\ Forall is_log logs
       /\ manage_container w server_id "start" (t ++ attempted)%list
            = (started, es')
       /\ (forall name,
             lookup = Named name ->
             exists rr, In (Run (docker_cmd "start" name) rr) es')
       /\ ((forall name, lookup <> Named name) ->
           forall name rr, ~ In (Run (docker_cmd "start" name) rr) evs)
       /\ r = after_finally started (backup_outcome pr))
    /\ (~ observed_running server_id evs ->
        forall name rr, ~ In (Run (docker_cmd "start" name) rr) evs).
Proof.
  intros w server_id config t r evs Heq Hsd.
  destruct (backup_server_run w server_id config t) as (r0 & evs0 & Heq0 & Hrun).
  rewrite Heq in Heq0. injection Heq0 as <- <-.
  destruct Hrun as [ms Hlen | path pr logs Hsd' Hlogs | path q x _ Hq
                   | path q pr logs _ Hq Hc Hlogs
                   | path q ro es _ Hq Hstop Hro
                   | path q es pr logs started es' _ Hq Hstop Hlogs Hstart].
  - split.
    + intros (q' & Hobs & _) _. exfalso. in_cases Hobs; absurd_event.
    + intros _ name rr Hin. in_cases Hin; absurd_event.
  - congruence.
  - split.
    + intros _ (name & c & Hin & _). exfalso.
      unfold queried in Hin. in_cases Hin; discriminate Hin.
    + intros _ name rr Hin. unfold queried in Hin. in_cases Hin; discriminate Hin.
  - split.
    + intros (q' & Hobs & Hq') _. exfalso.
      assert (q' = q).
      { eapply queried_observed; [|exact Hobs].
        intros e [<-|Hin]; [exact I | eapply logs_lookup; eassumption]. }
      congruence.
    + intros _ name rr Hin. in_cases Hin; absurd_event.
  - pose proof (manage_container_events _ _ _ _ Hstop) as (Hes & Hok & _).
    split.
    + intros _ (name & c & Hin & Hc). exfalso.
      assert (Hs : docker_succeeded "stop" es).
      { exists name, c. split; [|assumption]. in_cases Hin; try absurd_event;
          assumption. }
      apply Hok in Hs. contradiction.
    + intros _ name rr Hin. in_cases Hin; try absurd_event;
        apply (container_event_in _ Hes) in Hin; destruct Hin as [n Hn];
        symmetry in Hn; exact (stop_is_not_start Hn).
  - pose proof (manage_container_events _ _ _ _ Hstop) as [Hes _].
    split.
    + intros _ _.
      exists path, (queried w server_id path q ++ es)%list, pr, logs, started, es'.
      cbv zeta. rewrite <- !app_assoc. split; [reflexivity|]. split.
      { intros cmd pr' Hin. in_cases Hin; absurd_event. }
      split; [assumption|]. split; [assumption|]. split; [|split; [|reflexivity]].
      * intros name Hv.
        pose proof (manage_container_issues w server_id "start" _ Hv) as [rr Hrr].
        unfold emitted in Hrr. rewrite Hstart in Hrr. exists rr. exact Hrr.
      * intros Hv name rr Hin.
        pose proof (manage_container_idle w server_id "start" _ Hv) as Hidle.
        unfold emitted in Hidle. rewrite Hstart in Hidle. cbn [snd] in Hidle.
        in_cases Hin; try absurd_event; try exact (Hidle _ _ Hin);
          apply (container_event_in _ Hes) in Hin; destruct Hin as [n Hn];
          symmetry in Hn; exact (stop_is_not_start Hn).
    + intros Hno. exfalso. apply Hno. exists q. split; [|assumption].
      apply in_or_app. left. right. right. left. reflexivity.
Qed.

(** ** Resolution *)

Module Lines.













End Lines.

(** *** What glob and grep select

    The pattern of get_container_path is read by glob and the expression
    of the docker ps pipelines by grep; the program escapes nothing.  The
    fragments of both that a server id can spell are modelled here. *)

Module Fn.

(** [fnmatch.fnmatchcase(name, pat)] for a pattern of ordinary
    characters, [*] (any run of characters) and [?] (any one character). *)
Fixpoint matches (pat name : string) : bool :=
  match pat with
  | EmptyString => match name with EmptyString => true | _ => false end
  | String p pat' =>
      if Ascii.eqb p "*" then
        (fix star (name : string) : bool :=
           matches pat' name
           || match name with
              | EmptyString => false
              | String _ name' => star name'
              end) name
      else
        match name with
        | EmptyString => false
        | String c name' => (Ascii.eqb p "?" || Ascii.eqb p c) && matches pat' name'
        end
  end.

(** [glob.has_magic] for one character. *)
Definition magic (c : ascii) : bool :=
  Ascii.eqb c "*" || Ascii.eqb c "?" || Ascii.eqb c "[".

Fixpoint has (f : ascii -> bool) (s : string) : bool :=
  match s with
  | EmptyString => false
  | String c s' => f c || has f s'
  end.

(** A name glob passes over unless the pattern starts with a dot too. *)
Definition hidden (s : string) : bool :=
  match s with String "." _ => true | _ => false end.

Fixpoint strip_prefix (p s : string) : option string :=
  match p with
  | EmptyString => Some s
  | String a p' =>
      match s with
      | String b s' => if Ascii.eqb a b then strip_prefix p' s' else None
      | EmptyString => None
      end
  end.

(** [glob.glob(pattern)] for a pattern [root/base], where [root] is a
    directory path without pattern characters and without a final slash,
    [names] is what os.listdir gives for it, and [base] has no slash, no
    bracket and at least one of [*] and [?]: the names that match, those
    starting with a dot left out unless [base] starts with one, each
    joined onto [root].  None for a pattern that is not of that form. *)
Definition glob (root : string) (names : list string) (pattern : string)
  : option (list string) :=
  if has magic root || Py.endswith_char "/" root then None
  else
    match strip_prefix (root ++ "/") pattern with
    | Some base =>
        if has (Ascii.eqb "/") base || has (Ascii.eqb "[") base
           || negb (has magic base)
        then None
        else Some (map (fun n => root ++ "/" ++ n)
                       (filter (fun n => (negb (hidden n) || hidden base)
                                         && matches base n) names))
    | None => None
    end.

End Fn.

Module Bre.

(** One character of the line against a literal or a dot. *)
Definition atom (a c : ascii) : bool := Ascii.eqb a "." || Ascii.eqb a c.

(** The expression matches at the start of the line: a basic regular
    expression made of literals, dots and stars. *)
Fixpoint here (pat line : string) {struct pat} : bool :=
  match pat with
  | EmptyString => true
  | String a rest =>
      let one :=
        match line with
        | String c line' => atom a c && here rest line'
        | EmptyString => false
        end in
      match rest with
      | String s rest' =>
          if Ascii.eqb s "*" then
            (fix star (line : string) : bool :=
               here rest' line
               || match line with
                  | String c line' => atom a c && star line'
                  | EmptyString => false
                  end) line
          else one
      | EmptyString => one
      end
  end.

(** Characters the fragment leaves out: brackets, backslash, the anchors
    inside the expression, the quote that would end the shell word, and
    the line feed. *)
Definition left_out (c : ascii) : bool :=
  Ascii.eqb c "[" || Ascii.eqb c "\" || Ascii.eqb c "^" || Ascii.eqb c "$"
  || Ascii.eqb c "'" || Ascii.eqb c "010".

(** What [... | grep '^pat'] prints for the names docker prints, and the
    status of the pipeline, which is grep's: zero when a line was
    selected. *)
Definition grep (pat : string) (names : list string) : ran :=
  match filter (here pat) names with
  | [] => Exited (Completed 1 EmptyString EmptyString)
  | selected => Exited (Completed 0 (Py.unlines selected) EmptyString)
  end.

(** The string without its last character, and that character. *)
Fixpoint chop (s : string) : option (string * ascii) :=
  match s with
  | EmptyString => None
  | String c EmptyString => Some (EmptyString, c)
  | String c s' =>
      match chop s' with
      | Some (init, last) => Some (String c init, last)
      | None => None
      end
  end.

(** The pipelines of the program: docker prints the names of all
    containers, or of those that run, and grep selects.  None for a
    command line that is not one of the two, or whose expression is
    outside the fragment. *)
Definition pipeline (all running : list string) (cmd : string) : option ran :=
  let selected (names : list string) (rest : string) :=
    match chop rest with
    | Some (pat, "'"%char) =>
        if Fn.has left_out pat then None else Some (grep pat names)
    | _ => None
    end in
  match Fn.strip_prefix "docker ps -a --format '{{.Names}}' | grep '^" cmd with
  | Some rest => selected all rest
  | None =>
      match Fn.strip_prefix "docker ps --format '{{.Names}}' | grep '^" cmd with
      | Some rest => selected running rest
      | None => None
      end
  end.

End Bre.



(** A server id as the panel gives it: letters, digits, [-] and [_], so
    that glob, grep and the shell read every character of it as itself. *)
Definition id_char (c : ascii) : bool :=
  let n := nat_of_ascii c in
  ((48 <=? n) && (n <=? 57) || (65 <=? n) && (n <=? 90)
   || (97 <=? n) && (n <=? 122) || (n =? 45) || (n =? 95))%nat%bool.

Fixpoint all_chars (f : ascii -> bool) (s : string) : bool :=
  match s with
  | EmptyString => true
  | String c s' => f c && all_chars f s'
  end.

Definition plain_id (s : string) : bool := Py.truthy s && all_chars id_char s.






















(** ** A scripted host

    A host that answers from fixed tables, whatever happened before: the
    entries of /data, the containers docker knows and those that run, the
    outcome of each command line handed to run_command, the outcome of the
    backup process, and the file system under the volume.  glob and the
    docker ps pipelines are answered as Python's glob and grep answer. *)

Record Script := {
  s_dirs : list string;
  s_containers : list string;
  s_running : list string;
  s_run : string -> option ran;
  s_backup : ran;
  s_entries : option (list string);
  s_isfile : string -> bool;
  s_isdir : string -> bool;
  s_unlink : string -> option string;
  s_rmtree : string -> option string;
  s_cron : string -> option string
}.

(** A command the shell does not find. *)
Definition not_found : ran := Exited (Completed 127 EmptyString EmptyString).

Definition scripted (s : Script) : World :=
  {| VOLUMES_PATH := "/data";
     PBS_REPOSITORY := "backup@pbs@pbs.example:store";
     PBS_NAMESPACE := "games";
     w_glob := fun _ pattern =>
       match Fn.glob "/data" (s_dirs s) pattern with
       | Some ms => ms
       | None => []
       end;
     w_check_output := fun _ cmd =>
       match Bre.pipeline (s_containers s) (s_running s) cmd with
       | Some answer => answer
       | None => not_found
       end;
     w_run := fun _ cmd => s_run s cmd;
     w_popen := fun _ _ => s_backup s;
     w_listdir := fun _ _ => s_entries s;
     w_isfile := fun _ path => s_isfile s path;
     w_isdir := fun _ path => s_isdir s path;
     w_unlink := fun _ path => s_unlink s path;
     w_rmtree := fun _ path => s_rmtree s path;
     w_cron_error := fun minute _ _ _ _ => s_cron s minute;
     w_uuid4 := fun _ => "9f1c2a7d4b3e4c5d8a6b7c8d9e0f1a2b" |}.



(** A process that ended with the status and wrote the text on stderr. *)
Definition ended (code : Z) (err : string) : ran :=
  Exited (Completed code EmptyString err).

Definition done : option ran := Some (ended 0 EmptyString).

Definition exited (code : Z) (err : string) : option ran :=
  Some (ended code err).

(** One name printed on a line of its own. *)
Definition printed (names : list string) : ran :=
  Exited (Completed 0 (Py.unlines names) EmptyString).

(** Server "alpha" with one volume directory and one container, which
    runs; every docker command works, except those in [broken]; the volume
    holds a file and a directory. *)
Definition alpha (broken : list string) (backup : ran) : Script :=
  {| s_dirs := ["alpha-world"; "beta-world"];
     s_containers := ["alpha-world"; "beta-world"];
     s_running := ["alpha-world"];
     s_run := fun cmd =>
       if existsb (String.eqb cmd) broken then exited 1 "Error response from daemon"
       else done;
     s_backup := backup;
     s_entries := Some ["server.jar"; "world"];
     s_isfile := fun path => String.eqb path "/data/alpha-world/server.jar";
     s_isdir := fun path => String.eqb path "/data/alpha-world/world";
     s_unlink := fun _ => None;
     s_rmtree := fun _ => None;
     s_cron := fun _ => None |}.

Definition with_shutdown : Settings :=
  {| cfg_name := Some "Alpha"; cfg_schedule := Some "0 3 * * *";
     cfg_shutdown := Some true; cfg_ignore_paths := Some ["cache"; "tmp/logs"] |}.

Example backup_with_failing_stop :
  backup_server (scripted (alpha ["docker stop alpha-world"] (ended 0 EmptyString)))
                "alpha" with_shutdown []
  = (Returned false,
     [ Log Info "Starting backup for alpha";
       Glob "/data/alpha*" ["/data/alpha-world"];
       CheckOutput "docker ps --format '{{.Names}}' | grep '^alpha'"
                   (printed ["alpha-world"]);
       CheckOutput "docker ps -a --format '{{.Names}}' | grep '^alpha'"
                   (printed ["alpha-world"]);
       Log Info "Executing command: docker stop alpha-world";
       Run "docker stop alpha-world" (exited 1 "Error response from daemon");
       Log Error "Command failed with exit code 1: docker stop alpha-world";
       Log Error "stderr: Error response from daemon";
       Log Error "Failed to stop container alpha" ]).
Proof. vm_compute. reflexivity. Qed.

(** *** Concrete runs of backup_server *)


(** The shell of the backup process cannot be started. *)
Definition no_memory : ran := Unlaunched "[Errno 12] Cannot allocate memory".

(** The stop works and the backup process cannot be launched. *)
Definition run_backup_raises : outcome bool * list event :=
  backup_server (scripted (alpha [] no_memory)) "alpha" with_shutdown [].

(** The container is not running. *)
Definition not_running : Script :=
  {| s_dirs := ["alpha-world"];
     s_containers := ["alpha-world"];
     s_running := [];
     s_run := fun _ => done;
     s_backup := ended 0 EmptyString;
     s_entries := Some [];
     s_isfile := fun _ => false;
     s_isdir := fun _ => false;
     s_unlink := fun _ => None;
     s_rmtree := fun _ => None;
     s_cron := fun _ => None |}.

Definition run_not_running : outcome bool * list event :=
  backup_server (scripted not_running) "alpha" with_shutdown [].


Lemma backup_restarts_on_every_exit_path_witness :
  (exists path pre pr logs started es',
      snd run_backup_raises
      = ((pre ++ Popen (backup_line (scripted (alpha [] no_memory)) "alpha"
                                    with_shutdown path) pr :: logs)
           ++ es' ++ unless_true started (start_failed "alpha"))%list
      /\ (forall cmd pr', ~ In (Popen cmd pr') pre)
      /\ Forall is_log logs
      /\ manage_container (scripted (alpha [] no_memory)) "alpha" "start"
           ([] ++ pre ++ Popen (backup_line (scripted (alpha [] no_memory)) "alpha"
                                            with_shutdown path) pr :: logs)%list
         = (started, es')
      /\ (forall name,
            lookup_verdict "alpha"
              (w_check_output (scripted (alpha [] no_memory))
                 ([] ++ pre ++ Popen (backup_line (scripted (alpha [] no_memory)) "alpha"
                                                  with_shutdown path) pr :: logs)%list
                 (lookup_cmd "alpha"))
            = Named name ->
            exists rr, In (Run (docker_cmd "start" name) rr) es')
      /\ ((forall name,
              lookup_verdict "alpha"
                (w_check_output (scripted (alpha [] no_memory))
                   ([] ++ pre ++ Popen (backup_line (scripted (alpha [] no_memory)) "alpha"
                                                    with_shutdown path) pr :: logs)%list
                   (lookup_cmd "alpha"))
              <> Named name) ->
          forall name rr,
            ~ In (Run (docker_cmd "start" name) rr) (snd run_backup_raises))
      /\ fst run_backup_raises = after_finally started (backup_outcome pr))
  /\ (forall name rr, ~ In (Run (docker_cmd "start" name) rr) (snd run_not_running)).
Proof.
  split.
  - apply (proj1 (@backup_restarts_on_every_exit_path
                    (scripted (alpha [] no_memory)) "alpha" with_shutdown []
                    _ _ (surjective_pairing _) eq_refl)).
    + exists (printed ["alpha-world"]).
      split; [vm_compute; tauto | reflexivity].
    + exists "alpha-world", (Completed 0 EmptyString EmptyString).
      split; [vm_compute; tauto | reflexivity].
  - apply (proj2 (@backup_restarts_on_every_exit_path
                    (scripted not_running) "alpha" with_shutdown []
                    _ _ (surjective_pairing _) eq_refl)).
    intros (q & Hin & Hq). vm_compute in Hin.
    repeat (destruct Hin as [Hin|Hin]; try discriminate Hin).
    + injection Hin as Hin. subst q. discriminate Hq.
    + contradiction.
Defined.

Example restart_after_backup_that_raised :
  run_backup_raises
  = (Raised (OSError "[Errno 12] Cannot allocate memory"),
     [ Log Info "Starting backup for alpha";
       Glob "/data/alpha*" ["/data/alpha-world"];
       CheckOutput "docker ps --format '{{.Names}}' | grep '^alpha'"
                   (printed ["alpha-world"]);
       CheckOutput "docker ps -a --format '{{.Names}}' | grep '^alpha'"
                   (printed ["alpha-world"]);
       Log Info "Executing command: docker stop alpha-world";
       Run "docker stop alpha-world" done;
       Popen (backup_line (scripted (alpha [] no_memory)) "alpha" with_shutdown
                          "/data/alpha-world") no_memory;
       CheckOutput "docker ps -a --format '{{.Names}}' | grep '^alpha'"
                   (printed ["alpha-world"]);
       Log Info "Executing command: docker start alpha-world";
       Run "docker start alpha-world" done ]).
Proof. vm_compute. reflexivity. Qed.

(** The backup works and the restart fails: True all the same. *)
Example backup_succeeds_restart_fails :
  fst (backup_server (scripted (alpha ["docker start alpha-world"]
                                      (ended 0 "processed 1.2 GiB in 40s")))
                     "alpha" with_shutdown [])
  = Returned true
  /\ In (Log Error "Failed to start container alpha")
        (snd (backup_server (scripted (alpha ["docker start alpha-world"]
                                             (ended 0 "processed 1.2 GiB in 40s")))
                            "alpha" with_shutdown [])).
Proof. split; vm_compute; [reflexivity | tauto]. Qed.

(** The backup fails and the restart works: False all the same. *)
Example backup_fails_restart_succeeds :
  fst (backup_server (scripted (alpha [] (ended 255 "Error: connection refused")))
                     "alpha" with_shutdown [])
  = Returned false
  /\ In (Run "docker start alpha-world" done)
        (snd (backup_server (scripted (alpha [] (ended 255 "Error: connection refused")))
                            "alpha" with_shutdown [])).
Proof. split; vm_compute; [reflexivity | tauto]. Qed.

(** *** A second container appears while the backup runs *)

Definition backup_ran (t : trace) : bool :=
  existsb (fun e => match e with Popen _ _ => true | _ => false end) t.

(** The host of [alpha], on which a container alpha-test exists from the
    moment the backup process has run. *)
Definition drifting : World :=
  let calm := scripted (alpha [] (ended 0 EmptyString)) in
  {| VOLUMES_PATH := VOLUMES_PATH calm;
     PBS_REPOSITORY := PBS_REPOSITORY calm;
     PBS_NAMESPACE := PBS_NAMESPACE calm;
     w_glob := w_glob calm;
     w_check_output := fun t cmd =>
       if backup_ran t then
         match Bre.pipeline ["alpha-world"; "alpha-test"; "beta-world"]
                            ["alpha-world"] cmd with
         | Some answer => answer
         | None => not_found
         end
       else w_check_output calm t cmd;
     w_run := w_run calm;
     w_popen := w_popen calm;
     w_listdir := w_listdir calm;
     w_isfile := w_isfile calm;
     w_isdir := w_isdir calm;
     w_unlink := w_unlink calm;
     w_rmtree := w_rmtree calm;
     w_cron_error := w_cron_error calm;
     w_uuid4 := w_uuid4 calm |}.

Example backup_on_drifting_host :
  backup_server drifting "alpha" with_shutdown []
  = (Returned true,
     [ Log Info "Starting backup for alpha";
       Glob "/data/alpha*" ["/data/alpha-world"];
       CheckOutput "docker ps --format '{{.Names}}' | grep '^alpha'"
                   (printed ["alpha-world"]);
       CheckOutput "docker ps -a --format '{{.Names}}' | grep '^alpha'"
                   (printed ["alpha-world"]);
       Log Info "Executing command: docker stop alpha-world";
       Run "docker stop alpha-world" done;
       Popen (backup_line drifting "alpha" with_shutdown "/data/alpha-world")
             (ended 0 EmptyString);
       Log Info "Backup completed successfully for alpha";
       CheckOutput "docker ps -a --format '{{.Names}}' | grep '^alpha'"
                   (printed ["alpha-world"; "alpha-test"]);
       Log Error "Multiple containers found for server ID alpha";
       Log Error "Failed to start container alpha" ]).
Proof. vm_compute. reflexivity. Qed.

(** That the start command is issued whenever the container was seen
    running and the stop succeeded does not hold: on the drifting host the
    lookup of the restart names two containers and no docker start is
    run. *)
Lemma backup_restarts_on_every_exit_path_counterexample :
  ~ (forall (w : World) (server_id : string) (config : Settings) (t : trace)
            (r : outcome bool) (evs : list event),
        backup_server w server_id config t = (r, evs) ->
        get_shutdown config = true ->
        observed_running server_id evs ->
        docker_succeeded "stop" evs ->
        exists name rr, In (Run (docker_cmd "start" name) rr) evs).
Proof.
  intros H.
  destruct (H drifting "alpha" with_shutdown [] _ _ backup_on_drifting_host eq_refl)
    as (name & rr & Hin).
  - exists (printed ["alpha-world"]). split; [cbn; tauto | reflexivity].
  - exists "alpha-world", (Completed 0 EmptyString EmptyString).
    split; [cbn; tauto | reflexivity].
  - cbn in Hin.
    repeat (destruct Hin as [Hin|Hin]; try discriminate Hin). contradiction.
Qed.

(** *** The backup process writes what does not decode *)




(** *** Resolution on the scripted host *)


(** Two directories start with the id: nothing is picked. *)
Example two_directories :
  get_container_path
    (scripted {| s_dirs := ["alpha-world"; "beta"; "arena"];
                 s_containers := []; s_running := [];
                 s_run := fun _ => done; s_backup := ended 0 EmptyString;
                 s_entries := None;
                 s_isfile := fun _ => false; s_isdir := fun _ => false;
                 s_unlink := fun _ => None; s_rmtree := fun _ => None;
                 s_cron := fun _ => None |})
    "a" []
  = (Raised (ValueError "Multiple directories found for server ID a"),
     [Glob "/data/a*" ["/data/alpha-world"; "/data/arena"]]).
Proof. vm_compute. reflexivity. Qed.



(** ** restore_server *)

(** Events of the loop that empties the volume directory. *)
Definition wipe_event (e : event) : Prop :=
  match e with
  | Isfile _ _ | Isdir _ _ | Unlink _ _ | Rmtree _ _ | Log _ _ => True
  | _ => False
  end.

(** An unlink or an rmtree raised. *)
Definition deletion_failed (evs : list event) : Prop :=
  exists path err,
    In (Unlink path (Some err)) evs \/ In (Rmtree path (Some err)) evs.

Lemma delete_item_returns (w : World) (container_path item : string) (t : trace) :
  exists go_on evs,
    delete_item w container_path item t = (Returned go_on, evs)
    /\ Forall wipe_event evs
    /\ (go_on = false <-> deletion_failed evs).
Proof.
  unfold delete_item. unfold_monad.
  set (p := Py.path_join container_path item).
  destruct (w_isfile w t p) eqn:Ef; cbn.
  - destruct (w_unlink w _ p) as [err|] eqn:Eu; cbn.
    + eexists _, _. split; [reflexivity|]. split; [repeat constructor|].
      split; [|reflexivity]. intros _. exists p, err. left. right. left. reflexivity.
    + eexists _, _. split; [reflexivity|]. split; [repeat constructor|].
      split; [discriminate|].
      intros (q & err & [H|H]); in_cases H; discriminate H.
  - destruct (w_isdir w _ p) eqn:Ed; cbn.
    + destruct (w_rmtree w _ p) as [err|] eqn:Er; cbn.
      * eexists _, _. split; [reflexivity|]. split; [repeat constructor|].
        split; [|reflexivity]. intros _. exists p, err.
        right. right. right. left. reflexivity.
      * eexists _, _. split; [reflexivity|]. split; [repeat constructor|].
        split; [discriminate|].
        intros (q & err & [H|H]); in_cases H; discriminate H.
    + eexists _, _. split; [reflexivity|]. split; [repeat constructor|].
      split; [discriminate|].
      intros (q & err & [H|H]); in_cases H; discriminate H.
Qed.

Lemma deletion_failed_app (l1 l2 : list event) :
  deletion_failed (l1 ++ l2) <-> deletion_failed l1 \/ deletion_failed l2.
Proof.
  unfold deletion_failed. split.
  - intros (p & err & [H|H]); apply in_app_or in H as [H|H]; eauto 6.
  - intros [(p & err & [H|H])|(p & err & [H|H])]; exists p, err;
      rewrite !in_app_iff; tauto.
Qed.

Lemma delete_contents_returns (w : World) (container_path : string)
      (items : list string) :
  forall t,
  exists wiped evs,
    delete_contents w container_path items t = (Returned wiped, evs)
    /\ Forall wipe_event evs
    /\ (wiped = false <-> deletion_failed evs).
Proof.
  induction items as [|item rest IH]; intros t.
  - exists true, []. split; [reflexivity|]. split; [constructor|].
    split; [discriminate|]. intros (p & err & [[]|[]]).
  - destruct (delete_item_returns w container_path item t)
      as (go_on & e1 & Hitem & Hev1 & Hfail1).
    cbn [delete_contents]. unfold bind at 1. rewrite Hitem.
    destruct go_on.
    + destruct (IH (t ++ e1)%list) as (wiped & e2 & Hrest & Hev2 & Hfail2).
      rewrite Hrest. exists wiped, (e1 ++ e2)%list.
      split; [reflexivity|]. split; [apply Forall_app; split; assumption|].
      rewrite deletion_failed_app. split.
      * intros H. right. apply Hfail2. assumption.
      * intros [H|H]; [apply Hfail1 in H; discriminate | apply Hfail2; assumption].
    + exists false, (e1 ++ [])%list. split; [reflexivity|].
      split; [rewrite app_nil_r; assumption|].
      split; [|reflexivity]. intros _. rewrite app_nil_r. apply Hfail1. reflexivity.
Qed.

Section RestoreRuns.

Variable w : World.
Variable server_id : string.
Variable snapshot_name : string.
Variable t : trace.

Definition restore_started : event :=
  Log Info ("Starting restore for " ++ server_id ++ " using snapshot "
            ++ snapshot_name).

Definition restore_line (container_path : string) : string :=
  Py.join " " (restore_cmd w server_id snapshot_name container_path).

Definition kill_failed : string :=
  "Failed to kill container " ++ server_id.

Definition restore_verdict_log (ok : bool) : event :=
  if ok then Log Info ("Restore completed successfully for " ++ server_id)
  else Log Error ("Restore failed for " ++ server_id).

Local Open Scope list_scope.

(** The events up to the resolution of the volume directory. *)
Definition resolved (container_path : string) : list event :=
  [ restore_started; Glob (volume_pattern w server_id) [container_path] ].

(** The five ways a call of restore_server goes. *)
Inductive restore_run : outcome bool -> list event -> Prop :=
| Restore_unresolved (ms : list string) :
    length ms <> 1 ->
    restore_run (Returned false)
      [ restore_started;
        Glob (volume_pattern w server_id) ms;
        Log Error (resolution_error w server_id ms) ]
| Restore_kill_failed (path : string) (ro : outcome bool) (es : list event) :
    manage_container w server_id "kill" (t ++ resolved path) = (ro, es) ->
    ro <> Returned true ->
    restore_run (given_up ro) (resolved path ++ es ++ unless_true ro kill_failed)
| Restore_unlisted (path : string) (es : list event) :
    manage_container w server_id "kill" (t ++ resolved path) = (Returned true, es) ->
    restore_run (Raised (OSError "listdir"))
      (resolved path ++ es ++ [Listdir path None])
| Restore_wipe_failed (path : string) (es : list event) (items : list string)
                      (fs : list event) :
    manage_container w server_id "kill" (t ++ resolved path) = (Returned true, es) ->
    delete_contents w path items
      (t ++ resolved path ++ es ++ [Listdir path (Some items)])
      = (Returned false, fs) ->
    restore_run (Returned false)
      (resolved path ++ es ++ Listdir path (Some items) :: fs)
| Restore_ran (path : string) (es : list event) (items : list string)
              (fs : list event) (r : option ran) (logs : list event) :
    manage_container w server_id "kill" (t ++ resolved path) = (Returned true, es) ->
    delete_contents w path items
      (t ++ resolved path ++ es ++ [Listdir path (Some items)])
      = (Returned true, fs) ->
    Forall is_log logs ->
    restore_run (run_verdict r)
      (resolved path ++ es ++ Listdir path (Some items) :: fs
         ++ Log Info ("Executing command: " ++ restore_line path)
         :: Run (restore_line path) r :: logs).

Lemma restore_server_run :
  exists r evs,
    restore_server w server_id snapshot_name t = (r, evs) /\ restore_run r evs.
Proof.
  set (t0 := t ++ [restore_started]).
  pose proof (resolve_or_log_run w server_id t0) as Hres. cbv zeta in Hres.
  assert (Hbad : forall ms, length ms <> 1 ->
            resolve_or_log w server_id t0 =
              (Returned None,
               [Glob (volume_pattern w server_id) ms;
                Log Error (resolution_error w server_id ms)]) ->
            exists r evs,
              restore_server w server_id snapshot_name t = (r, evs)
              /\ restore_run r evs).
  { intros ms Hlen Hr. eexists _, _. split.
    - unfold restore_server.
      eapply bind_returned; [reflexivity|].
      eapply bind_returned; [exact Hr|]. reflexivity.
    - cbn [app]. apply Restore_unresolved. assumption. }
  destruct (w_glob w t0 (volume_pattern w server_id)) as [|path [|p' rest]] eqn:Ems.
  - apply (Hbad []); [simpl; lia | exact Hres].
  - set (t1 := t0 ++ [Glob (volume_pattern w server_id) [path]]).
    assert (Ht1 : t1 = t ++ resolved path).
    { unfold t1, t0, resolved. rewrite <- app_assoc. reflexivity. }
    destruct (manage_container_ends w server_id "kill" t1)
      as (killed & es & Hkill & _).
    destruct killed as [[|]|x].
    + (* killed *)
      set (t2 := t1 ++ es).
      destruct (w_listdir w t2 path) as [items|] eqn:Els.
      * set (t3 := t2 ++ [Listdir path (Some items)]).
        assert (Ht3 : t3 = t ++ resolved path ++ es ++ [Listdir path (Some items)]).
        { unfold t3, t2. rewrite Ht1. rewrite <- !app_assoc. reflexivity. }
        destruct (delete_contents_returns w path items t3)
          as (wiped & fs & Hwipe & _).
        assert (Hls : listdir w path t2 = (Returned items, [Listdir path (Some items)])).
        { unfold listdir. rewrite Els. reflexivity. }
        destruct wiped.
        -- destruct (run_command_run w (restore_line path) (t3 ++ fs))
             as (logs & Hrun & Hlogs & _).
           cbv zeta in Hrun.
           set (r := w_run w _ (restore_line path)) in *.
           set (verdict := match run_verdict r with
                           | Returned b => [restore_verdict_log b]
                           | Raised _ => []
                           end).
           assert (Htail :
                     (ok <- run_command w (restore_line path) ;;
                      if ok then
                        log Info ("Restore completed successfully for " ++ server_id) ;;;
                        ret true
                      else
                        log Error ("Restore failed for " ++ server_id) ;;; ret false)
                       (t3 ++ fs)
                     = (run_verdict r,
                        (Log Info ("Executing command: " ++ restore_line path)%string
                           :: Run (restore_line path) r :: logs) ++ verdict)).
           { unfold bind at 1. rewrite Hrun. unfold verdict.
             destruct (run_verdict r) as [[|]|x]; cbn;
               rewrite ?app_nil_r; reflexivity. }
           exists (run_verdict r),
                  (resolved path ++ es ++ Listdir path (Some items) :: fs
                     ++ Log Info ("Executing command: " ++ restore_line path)%string
                     :: Run (restore_line path) r :: (logs ++ verdict)).
           split.
           ++ unfold restore_server.
              erewrite bind_returned; [|reflexivity|].
              2:{ eapply bind_returned; [exact Hres|].
                  eapply bind_returned; [exact Hkill|].
                  eapply try_finally_returned; [|reflexivity].
                  eapply bind_returned; [exact Hls|].
                  eapply bind_returned; [exact Hwipe|].
                  exact Htail. }
              unfold resolved. cbn [app].
              rewrite ?app_nil_r, <- ?app_assoc. reflexivity.
           ++ rewrite Ht1 in Hkill. rewrite Ht3 in Hwipe.
              eapply Restore_ran; try eassumption.
              apply Forall_app. split; [assumption|].
              unfold verdict, restore_verdict_log.
              destruct (run_verdict r) as [[|]|x]; repeat constructor.
        -- eexists _, _. split.
           ++ unfold restore_server.
              eapply bind_returned; [reflexivity|].
              eapply bind_returned; [exact Hres|].
              eapply bind_returned; [exact Hkill|].
              eapply try_finally_returned; [|reflexivity].
              eapply bind_returned; [exact Hls|].
              eapply bind_returned; [exact Hwipe|]. reflexivity.
           ++ rewrite Ht1 in Hkill. rewrite Ht3 in Hwipe.
              match goal with
              | |- restore_run _ ?l =>
                  replace l with
                    (resolved path ++ es ++ Listdir path (Some items) :: fs)
              end.
              ** eapply Restore_wipe_failed; eassumption.
              ** unfold resolved. cbn [app].
                 rewrite ?app_nil_r, <- ?app_assoc. reflexivity.
      * assert (Hls : listdir w path t2
                      = (Raised (OSError "listdir"), [Listdir path None])).
        { unfold listdir. rewrite Els. reflexivity. }
        eexists _, _. split.
        -- unfold restore_server.
           eapply bind_returned; [reflexivity|].
           eapply bind_returned; [exact Hres|].
           eapply bind_returned; [exact Hkill|].
           eapply try_finally_returned; [|reflexivity].
           eapply bind_raised. exact Hls.
        -- rewrite Ht1 in Hkill.
           match goal with
           | |- restore_run _ ?l =>
               replace l with (resolved path ++ es ++ [Listdir path None])
           end.
           ++ eapply Restore_unlisted; eassumption.
           ++ unfold resolved. cbn [app].
              rewrite ?app_nil_r, <- ?app_assoc. reflexivity.
    + (* the kill failed *)
      eexists _, _. split.
      * unfold restore_server.
        eapply bind_returned; [reflexivity|].
        eapply bind_returned; [exact Hres|].
        eapply bind_returned; [exact Hkill|]. reflexivity.
      * rewrite Ht1 in Hkill.
        match goal with
        | |- restore_run _ ?l =>
            replace l with (resolved path ++ es
                              ++ unless_true (Returned false) kill_failed)
        end.
        -- apply (@Restore_kill_failed path (Returned false) es);
             [assumption | discriminate].
        -- reflexivity.
    + (* the kill raised *)
      eexists _, _. split.
      * unfold restore_server.
        eapply bind_returned; [reflexivity|].
        eapply bind_returned; [exact Hres|].
        eapply bind_raised. exact Hkill.
      * rewrite Ht1 in Hkill.
        match goal with
        | |- restore_run _ ?l =>
            replace l with (resolved path ++ es
                              ++ unless_true (Raised x) kill_failed)
        end.
        -- apply (@Restore_kill_failed path (Raised x) es);
             [assumption | discriminate].
        -- unfold resolved, unless_true. cbn [app]. rewrite app_nil_r. reflexivity.
  - apply (Hbad (path :: p' :: rest)); [simpl; lia | exact Hres].
Qed.

End RestoreRuns.

(** An access to the file system under the volume. *)
Definition file_event (e : event) : Prop :=
  match e with
  | Listdir _ _ | Isfile _ _ | Isdir _ _ | Unlink _ _ | Rmtree _ _ => True
  | _ => False
  end.

Lemma restore_is_not_kill (w : World) (server_id snapshot_name path name : string) :
  restore_line w server_id snapshot_name path <> docker_cmd "kill" name.
Proof. unfold restore_line, docker_cmd. cbn. intros H. discriminate H. Qed.

Section RestoreFacts.

Variable w : World.
Variable server_id : string.
Variable snapshot_name : string.
Variable t : trace.

(** Whatever restore_server does to the files comes after a docker kill
    that succeeded: the events split into a first part without any file
    access, in which the kill succeeded, and the rest. *)
Lemma restore_kills_before_files (r : outcome bool) (evs : list event) :
  restore_server w server_id snapshot_name t = (r, evs) ->
  (exists e, In e evs /\ file_event e) ->
  exists before after,
    evs = (before ++ after)%list
    /\ (forall e, In e before -> ~ file_event e)
    /\ docker_succeeded "kill" before.
Proof.
  intros Heq (e & Hin & Hfile).
  destruct (restore_server_run w server_id snapshot_name t)
    as (r0 & evs0 & Heq0 & Hrun).
  rewrite Heq in Heq0. injection Heq0 as <- <-.
  assert (Hsplit : forall path es rest,
             manage_container w server_id "kill" (t ++ resolved w server_id snapshot_name path)%list
             = (Returned true, es) ->
             exists before after,
               (resolved w server_id snapshot_name path ++ es ++ rest)%list
               = (before ++ after)%list
               /\ (forall e, In e before -> ~ file_event e)
               /\ docker_succeeded "kill" before).
  { intros path es rest Hkill.
    apply manage_container_events in Hkill as (Hes & Hok & _).
    exists (resolved w server_id snapshot_name path ++ es)%list, rest.
    split; [rewrite app_assoc; reflexivity|]. split.
    - intros e' Hin' Hf. unfold resolved in Hin'. in_cases Hin'.
      + subst e'. exact Hf.
      + subst e'. exact Hf.
      + apply (container_event_in _ Hes) in Hin'. destruct e'; simpl in *; tauto.
    - destruct (proj1 Hok eq_refl) as (name & c & Hc & Hz).
      exists name, c. split; [|assumption]. apply in_or_app. right. assumption. }
  destruct Hrun as [ms Hlen | path ro es Hkill Hro | path es Hkill
                   | path es items fs Hkill Hwipe
                   | path es items fs rr logs Hkill Hwipe Hlogs].
  - exfalso. in_cases Hin; subst e; exact Hfile.
  - exfalso. apply manage_container_events in Hkill as (Hes & _).
    unfold resolved in Hin. in_cases Hin; try (subst e; exact Hfile);
      apply (container_event_in _ Hes) in Hin; destruct e; simpl in *; tauto.
  - apply Hsplit. assumption.
  - apply Hsplit. assumption.
  - apply Hsplit. assumption.
Qed.

(** One unlink or rmtree that raises makes restore_server return False,
    and the restore command is not run. *)
Lemma restore_stops_at_failed_deletion (r : outcome bool) (evs : list event) :
  restore_server w server_id snapshot_name t = (r, evs) ->
  deletion_failed evs ->
  r = Returned false
  /\ forall path rr,
       ~ In (Run (restore_line w server_id snapshot_name path) rr) evs.
Proof.
  intros Heq Hfail.
  destruct (restore_server_run w server_id snapshot_name t)
    as (r0 & evs0 & Heq0 & Hrun).
  rewrite Heq in Heq0. injection Heq0 as <- <-.
  destruct Hrun as [ms Hlen | path ro es Hkill Hro | path es Hkill
                   | path es items fs Hkill Hwipe
                   | path es items fs rr logs Hkill Hwipe Hlogs].
  - exfalso. destruct Hfail as (p & err & [H|H]); in_cases H; discriminate H.
  - exfalso. apply manage_container_events in Hkill as (Hes & _).
    unfold resolved in Hfail.
    destruct Hfail as (p & err & [H|H]); in_cases H; try discriminate H;
      exact (container_event_in _ Hes H).
  - exfalso. apply manage_container_events in Hkill as (Hes & _).
    unfold resolved in Hfail.
    destruct Hfail as (p & err & [H|H]); in_cases H; try discriminate H;
      exact (container_event_in _ Hes H).
  - split; [reflexivity|]. intros p rr Hin.
    apply manage_container_events in Hkill as (Hes & _).
    destruct (delete_contents_returns w path items
                (t ++ resolved w server_id snapshot_name path ++ es
                   ++ [Listdir path (Some items)])%list)
      as (wiped & fs' & Hw & Hfs & _).
    rewrite Hwipe in Hw. injection Hw as <- <-.
    unfold resolved in Hin. in_cases Hin; try discriminate Hin.
    + apply (container_event_in _ Hes) in Hin. destruct Hin as [name Hn].
      exact (restore_is_not_kill Hn).
    + rewrite Forall_forall in Hfs. exact (Hfs _ Hin).
  - exfalso.
    apply manage_container_events in Hkill as (Hes & _).
    destruct (delete_contents_returns w path items
                (t ++ resolved w server_id snapshot_name path ++ es
                   ++ [Listdir path (Some items)])%list)
      as (wiped & fs' & Hw & Hfs & Hiff).
    rewrite Hwipe in Hw. injection Hw as <- <-.
    assert (Hfsfail : deletion_failed fs).
    { unfold resolved in Hfail.
      destruct Hfail as (p & err & [H|H]); in_cases H; try discriminate H;
        try exact (False_ind _ (container_event_in _ Hes H));
        try exact (False_ind _ (in_logs_absurd _ Hlogs H)).
      - exists p, err. left. assumption.
      - exists p, err. right. assumption. }
    apply Hiff in Hfsfail. discriminate Hfsfail.
Qed.

End RestoreFacts.

(** *** Entries that are neither a file nor a directory *)

(** An entry for which isfile and isdir both answer False -- a dangling
    symbolic link, a FIFO, a socket -- is passed over: nothing is deleted,
    nothing is logged, and the loop goes on. *)
Lemma delete_item_passes_over (w : World) (container_path item : string) (t : trace) :
  let p := Py.path_join container_path item in
  w_isfile w t p = false ->
  w_isdir w (t ++ [Isfile p false])%list p = false ->
  delete_item w container_path item t
  = (Returned true, [Isfile p false; Isdir p false]).
Proof.
  intros p Hf Hd. unfold delete_item. fold p. unfold_monad.
  rewrite Hf. cbn. rewrite Hd. reflexivity.
Qed.

(** The volume of "alpha" holds a file, a directory, and latest.log, a
    symbolic link whose target is gone. *)
Definition dangling_link : Script :=
  {| s_dirs := ["alpha-world"];
     s_containers := ["alpha-world"];
     s_running := ["alpha-world"];
     s_run := fun _ => done;
     s_backup := ended 0 EmptyString;
     s_entries := Some ["server.jar"; "latest.log"; "world"];
     s_isfile := fun path => String.eqb path "/data/alpha-world/server.jar";
     s_isdir := fun path => String.eqb path "/data/alpha-world/world";
     s_unlink := fun _ => None;
     s_rmtree := fun _ => None;
     s_cron := fun _ => None |}.

(** C4.  The loop over the entries of the volume ends without a failure,
    having unlinked the file and removed the directory, and latest.log was
    never deleted. *)
Theorem wipe_leaves_special_entry :
  delete_contents (scripted dangling_link) "/data/alpha-world"
                  ["server.jar"; "latest.log"; "world"] []
  = (Returned true,
     [ Isfile "/data/alpha-world/server.jar" true;
       Unlink "/data/alpha-world/server.jar" None;
       Isfile "/data/alpha-world/latest.log" false;
       Isdir "/data/alpha-world/latest.log" false;
       Isfile "/data/alpha-world/world" false;
       Isdir "/data/alpha-world/world" true;
       Rmtree "/data/alpha-world/world" None ]).
Proof. vm_compute. reflexivity. Qed.

Definition restore_over_dangling_link : outcome bool * list event :=
  restore_server (scripted dangling_link) "alpha" "host/alpha/2026-11-01T03:00:00Z" [].

(** C2.  With latest.log in the volume, restore_server runs the restore
    command and returns True although no deletion of latest.log was even
    attempted. *)
Theorem restore_runs_over_leftover_entry :
  fst restore_over_dangling_link = Returned true
  /\ In (Run (restore_line (scripted dangling_link) "alpha"
                           "host/alpha/2026-11-01T03:00:00Z" "/data/alpha-world")
             done)
        (snd restore_over_dangling_link)
  /\ In (Listdir "/data/alpha-world" (Some ["server.jar"; "latest.log"; "world"]))
        (snd restore_over_dangling_link)
  /\ (forall err,
         ~ In (Unlink "/data/alpha-world/latest.log" err) (snd restore_over_dangling_link)
         /\ ~ In (Rmtree "/data/alpha-world/latest.log" err)
                 (snd restore_over_dangling_link)).
Proof.
  split; [vm_compute; reflexivity|].
  split; [vm_compute; tauto|].
  split; [vm_compute; tauto|].
  intros err. split; intros H; vm_compute in H;
    repeat (destruct H as [H|H]; try discriminate H); exact H.
Qed.

Example restore_over_dangling_link_events :
  restore_over_dangling_link
  = (Returned true,
     [ Log Info "Starting restore for alpha using snapshot host/alpha/2026-11-01T03:00:00Z";
       Glob "/data/alpha*" ["/data/alpha-world"];
       CheckOutput "docker ps -a --format '{{.Names}}' | grep '^alpha'"
                   (printed ["alpha-world"]);
       Log Info "Executing command: docker kill alpha-world";
       Run "docker kill alpha-world" done;
       Listdir "/data/alpha-world" (Some ["server.jar"; "latest.log"; "world"]);
       Isfile "/data/alpha-world/server.jar" true;
       Unlink "/data/alpha-world/server.jar" None;
       Isfile "/data/alpha-world/latest.log" false;
       Isdir "/data/alpha-world/latest.log" false;
       Isfile "/data/alpha-world/world" false;
       Isdir "/data/alpha-world/world" true;
       Rmtree "/data/alpha-world/world" None;
       Log Info ("Executing command: "
                 ++ restore_line (scripted dangling_link) "alpha"
                      "host/alpha/2026-11-01T03:00:00Z" "/data/alpha-world");
       Run (restore_line (scripted dangling_link) "alpha"
              "host/alpha/2026-11-01T03:00:00Z" "/data/alpha-world") done;
       Log Info "Restore completed successfully for alpha" ]).
Proof. vm_compute. reflexivity. Qed.

(** Scenario of the specification: one file cannot be removed. *)
Example restore_with_permission_denied :
  restore_server
    (scripted {| s_dirs := ["alpha-world"];
                 s_containers := ["alpha-world"]; s_running := [];
                 s_run := fun _ => done; s_backup := ended 0 EmptyString;
                 s_entries := Some ["a.txt"; "b.txt"];
                 s_isfile := fun _ => true; s_isdir := fun _ => false;
                 s_unlink := fun path =>
                   if String.eqb path "/data/alpha-world/b.txt"
                   then Some "[Errno 13] Permission denied" else None;
                 s_rmtree := fun _ => None; s_cron := fun _ => None |})
    "alpha" "snap" []
  = (Returned false,
     [ Log Info "Starting restore for alpha using snapshot snap";
       Glob "/data/alpha*" ["/data/alpha-world"];
       CheckOutput "docker ps -a --format '{{.Names}}' | grep '^alpha'"
                   (printed ["alpha-world"]);
       Log Info "Executing command: docker kill alpha-world";
       Run "docker kill alpha-world" done;
       Listdir "/data/alpha-world" (Some ["a.txt"; "b.txt"]);
       Isfile "/data/alpha-world/a.txt" true;
       Unlink "/data/alpha-world/a.txt" None;
       Isfile "/data/alpha-world/b.txt" true;
       Unlink "/data/alpha-world/b.txt" (Some "[Errno 13] Permission denied");
       Log Error "Failed to delete /data/alpha-world/b.txt: [Errno 13] Permission denied" ]).
Proof. vm_compute. reflexivity. Qed.

(** ** The backup command line *)

(** The two arguments an entry of ignore_paths gives. *)
Definition exclude_pair (container_path rel_path : string) : list string :=
  ["--exclude"; Py.path_join container_path rel_path].

Lemma exclude_args_from (container_path : string) (ignore_paths acc : list string) :
  fold_left
    (fun acc rel_path =>
       (acc ++ ["--exclude"; Py.path_join container_path rel_path])%list)
    ignore_paths acc
  = (acc ++ flat_map (exclude_pair container_path) ignore_paths)%list.
Proof.
  revert acc. induction ignore_paths as [|p l IH]; intros acc; cbn.
  - rewrite app_nil_r. reflexivity.
  - rewrite IH. rewrite <- app_assoc. reflexivity.
Qed.

Lemma exclude_args_pairs (container_path : string) (ignore_paths : list string) :
  exclude_args container_path ignore_paths
  = flat_map (exclude_pair container_path) ignore_paths.
Proof. unfold exclude_args. apply exclude_args_from. Qed.

(** Scenario of the specification: two relative entries under
    /data/alpha-world. *)
Example exclude_args_scenario :
  exclude_args "/data/alpha-world" ["cache"; "tmp/logs"]
  = ["--exclude"; "/data/alpha-world/cache";
     "--exclude"; "/data/alpha-world/tmp/logs"].
Proof. reflexivity. Qed.

(** An absolute entry replaces the volume path, as os.path.join has it. *)
Example exclude_args_absolute :
  exclude_args "/data/alpha-world" ["/etc"] = ["--exclude"; "/etc"].
Proof. reflexivity. Qed.

(** *** How the shell reads a command line

    Popen and subprocess.run are called with shell=True: the string goes to
    /bin/sh -c, which splits it into words.  [Sh.words] follows the shell
    on lines made of blanks, quotes and characters the shell reads as
    themselves; on any other line (an operator, a variable, a pattern
    character, a backslash, a quote left open) it answers [None]. *)

Module Sh.

Inductive mode := Bare | Single | Double.

Definition blank (c : ascii) : bool :=
  (nat_of_ascii c =? 32)%nat || (nat_of_ascii c =? 9)%nat.

(** Letters, digits and [% + , - . / : @ _]: never special to the shell. *)
Definition ordinary (c : ascii) : bool :=
  let n := nat_of_ascii c in
  ((48 <=? n) && (n <=? 58) || (65 <=? n) && (n <=? 90)
   || (97 <=? n) && (n <=? 122) || (n =? 37) || (43 <=? n) && (n <=? 47)
   || (n =? 64) || (n =? 95))%nat%bool.

Definition single_quote (c : ascii) : bool := (nat_of_ascii c =? 39)%nat.
Definition double_quote (c : ascii) : bool := (nat_of_ascii c =? 34)%nat.

(** Inside double quotes [$], the backquote and the backslash keep their
    meaning. *)
Definition expands (c : ascii) : bool :=
  let n := nat_of_ascii c in ((n =? 36) || (n =? 96) || (n =? 92))%nat%bool.

(** The word in progress, [None] between two words. *)
Definition push (cur : option string) (c : ascii) : option string :=
  Some (match cur with
        | Some word => word ++ String c EmptyString
        | None => String c EmptyString
        end).

Definition opened (cur : option string) : option string :=
  Some (match cur with Some word => word | None => EmptyString end).

Definition close (cur : option string) (rest : list string) : list string :=
  match cur with Some word => word :: rest | None => rest end.

Fixpoint scan (m : mode) (cur : option string) (s : string)
  : option (list string) :=
  match s with
  | EmptyString =>
      match m with Bare => Some (close cur []) | _ => None end
  | String c s' =>
      match m with
      | Bare =>
          if blank c then option_map (close cur) (scan Bare None s')
          else if single_quote c then scan Single (opened cur) s'
          else if double_quote c then scan Double (opened cur) s'
          else if ordinary c then scan Bare (push cur c) s'
          else None
      | Single =>
          if single_quote c then scan Bare cur s'
          else scan Single (push cur c) s'
      | Double =>
          if double_quote c then scan Bare cur s'
          else if expands c then None
          else scan Double (push cur c) s'
      end
  end.

Definition words (line : string) : option (list string) := scan Bare None line.

End Sh.

Example words_of_docker_start :
  Sh.words "docker start alpha-world" = Some ["docker"; "start"; "alpha-world"].
Proof. reflexivity. Qed.

Example words_with_quotes :
  Sh.words ("backup " ++ dq ++ "a b.pxar:/data/a b" ++ dq ++ " 'x y'  z")
  = Some ["backup"; "a b.pxar:/data/a b"; "x y"; "z"].
Proof. reflexivity. Qed.

Example words_with_pipe : Sh.words "docker ps | grep alpha" = None.
Proof. reflexivity. Qed.

(** The thirteen fixed arguments as the process receives them. *)
Definition backup_words (w : World) (server_id container_path : string)
  : list string :=
  [ "proxmox-backup-client"; "backup";
    server_id ++ ".pxar:" ++ container_path;
    "--repository"; PBS_REPOSITORY w;
    "--ns"; PBS_NAMESPACE w;
    "--backup-type"; "host";
    "--change-detection-mode"; "metadata";
    "--backup-id"; server_id ].

(** The server of the examples, without shutdown, whose one entry of
    ignore_paths is a directory with a blank in its name. *)
Definition with_blank_entry : Settings :=
  {| cfg_name := Some "Alpha"; cfg_schedule := Some "0 3 * * *";
     cfg_shutdown := None; cfg_ignore_paths := Some ["world backups"] |}.

Definition backup_with_blank_entry : outcome bool * list event :=
  backup_server (scripted (alpha [] (ended 0 EmptyString))) "alpha"
                with_blank_entry [].

(** C8.  With the entry "world backups" the list cmd ends with the two
    elements --exclude and /data/alpha-world/world backups, and the command
    line that backup_server hands to the shell is read as the thirteen
    fixed arguments, --exclude /data/alpha-world/world and one more word,
    backups: no --exclude argument has the entry joined onto the volume
    path as its value. *)
Theorem exclude_with_blank_is_split :
  let w := scripted (alpha [] (ended 0 EmptyString)) in
  let line := Py.join " " (backup_cmd w "alpha" "/data/alpha-world"
                                      (get_ignore_paths with_blank_entry)) in
  backup_cmd w "alpha" "/data/alpha-world" (get_ignore_paths with_blank_entry)
  = (backup_base w "alpha" "/data/alpha-world"
       ++ ["--exclude"; "/data/alpha-world/world backups"])%list
  /\ backup_with_blank_entry
     = (Returned true,
        [ Log Info "Starting backup for alpha";
          Glob "/data/alpha*" ["/data/alpha-world"];
          Popen line (ended 0 EmptyString);
          Log Info "Backup completed successfully for alpha" ])
  /\ Sh.words line
     = Some (backup_words w "alpha" "/data/alpha-world"
               ++ ["--exclude"; "/data/alpha-world/world"; "backups"])%list
  /\ Sh.words line
     <> Some (backup_words w "alpha" "/data/alpha-world"
                ++ flat_map (exclude_pair "/data/alpha-world")
                            (get_ignore_paths with_blank_entry))%list.
Proof.
  cbv zeta. split; [reflexivity|]. split; [vm_compute; reflexivity|].
  split; [vm_compute; reflexivity|].
  intros H. vm_compute in H. discriminate H.
Qed.

(** *** Entries the shell reads as they are written *)

(** A word of ordinary characters. *)
Definition plain_word (s : string) : bool :=
  Py.truthy s && all_chars Sh.ordinary s.

Definition quotable (c : ascii) : bool := negb (Sh.single_quote c).

Definition double_quotable (c : ascii) : bool :=
  negb (Sh.double_quote c) && negb (Sh.expands c).

(** What is written on the line, and the word the shell reads from it. *)
Inductive shell_word : string -> string -> Prop :=
| Word_plain (s : string) :
    plain_word s = true -> shell_word s s
| Word_single (s : string) :
    all_chars quotable s = true -> shell_word ("'" ++ s ++ "'") s
| Word_double (s : string) :
    all_chars double_quotable s = true -> shell_word (dq ++ s ++ dq) s.

Lemma append_assoc (a b c : string) : ((a ++ b) ++ c = a ++ (b ++ c))%string.
Proof. induction a as [|x a IH]; cbn; [reflexivity | rewrite IH; reflexivity]. Qed.

Lemma append_empty (a : string) : (a ++ EmptyString)%string = a.
Proof. induction a as [|x a IH]; cbn; [reflexivity | rewrite IH; reflexivity]. Qed.

Lemma all_chars_app (f : ascii -> bool) (a b : string) :
  all_chars f (a ++ b) = all_chars f a && all_chars f b.
Proof.
  induction a as [|x a IH]; cbn; [reflexivity|].
  rewrite IH. rewrite andb_assoc. reflexivity.
Qed.

Lemma all_chars_weaken (f g : ascii -> bool) (s : string) :
  (forall c, f c = true -> g c = true) ->
  all_chars f s = true -> all_chars g s = true.
Proof.
  intros Hfg. induction s as [|x s IH]; cbn; [reflexivity|].
  intros H. apply andb_prop in H as [Hx Hs].
  rewrite (Hfg _ Hx), (IH Hs). reflexivity.
Qed.

Lemma ordinary_cases (c : ascii) :
  Sh.ordinary c = true ->
  Sh.blank c = false /\ Sh.single_quote c = false
  /\ Sh.double_quote c = false /\ Sh.expands c = false.
Proof.
  destruct c as [[|] [|] [|] [|] [|] [|] [|] [|]]; intros H;
    try discriminate H; repeat split; reflexivity.
Qed.

Lemma ordinary_double_quotable (c : ascii) :
  Sh.ordinary c = true -> double_quotable c = true.
Proof.
  intros H. destruct (@ordinary_cases c H) as (_ & _ & Hd & He).
  unfold double_quotable. rewrite Hd, He. reflexivity.
Qed.

Lemma id_char_ordinary (c : ascii) : id_char c = true -> Sh.ordinary c = true.
Proof.
  destruct c as [[|] [|] [|] [|] [|] [|] [|] [|]]; intros H;
    try discriminate H; reflexivity.
Qed.

Lemma plain_id_word (s : string) : plain_id s = true -> plain_word s = true.
Proof.
  unfold plain_id, plain_word. intros H. apply andb_prop in H as [Hn Hc].
  rewrite Hn. cbn. apply (@all_chars_weaken id_char Sh.ordinary s id_char_ordinary Hc).
Qed.

(** Ordinary characters are added to the word in progress. *)
Lemma scan_ordinary (s rest word : string) :
  all_chars Sh.ordinary s = true ->
  Sh.scan Sh.Bare (Some word) (s ++ rest)
  = Sh.scan Sh.Bare (Some (word ++ s)) rest.
Proof.
  revert word. induction s as [|c s IH]; intros word H.
  - cbn. rewrite append_empty. reflexivity.
  - cbn in H. apply andb_prop in H as [Hc Hs].
    destruct (@ordinary_cases c Hc) as (Hb & Hq & Hd & _).
    cbn [append Sh.scan]. rewrite Hb, Hq, Hd, Hc.
    unfold Sh.push. rewrite (IH _ Hs). rewrite append_assoc. reflexivity.
Qed.

Lemma scan_single (s rest word : string) :
  all_chars quotable s = true ->
  Sh.scan Sh.Single (Some word) (s ++ "'" ++ rest)
  = Sh.scan Sh.Bare (Some (word ++ s)) rest.
Proof.
  revert word. induction s as [|c s IH]; intros word H.
  - cbn. rewrite append_empty. reflexivity.
  - cbn in H. apply andb_prop in H as [Hc Hs].
    unfold quotable in Hc. apply negb_true_iff in Hc.
    cbn [append Sh.scan]. rewrite Hc.
    unfold Sh.push. rewrite (IH _ Hs). rewrite append_assoc. reflexivity.
Qed.

Lemma scan_double (s rest word : string) :
  all_chars double_quotable s = true ->
  Sh.scan Sh.Double (Some word) (s ++ dq ++ rest)
  = Sh.scan Sh.Bare (Some (word ++ s)) rest.
Proof.
  revert word. induction s as [|c s IH]; intros word H.
  - cbn. rewrite append_empty. reflexivity.
  - cbn in H. apply andb_prop in H as [Hc Hs].
    unfold double_quotable in Hc. apply andb_prop in Hc as [Hd He].
    apply negb_true_iff in Hd. apply negb_true_iff in He.
    cbn [append Sh.scan]. rewrite Hd, He.
    unfold Sh.push. rewrite (IH _ Hs). rewrite append_assoc. reflexivity.
Qed.

(** One written word, read from between two words. *)
Lemma scan_word (written read rest : string) :
  shell_word written read ->
  Sh.scan Sh.Bare None (written ++ rest) = Sh.scan Sh.Bare (Some read) rest.
Proof.
  intros [s H | s H | s H].
  - unfold plain_word in H. apply andb_prop in H as [Hn Hc].
    destruct s as [|c s]; [discriminate Hn|].
    cbn in Hc. apply andb_prop in Hc as [Hc Hs].
    destruct (@ordinary_cases c Hc) as (Hb & Hq & Hd & _).
    cbn [append Sh.scan]. rewrite Hb, Hq, Hd, Hc. unfold Sh.push.
    apply (@scan_ordinary s rest (String c EmptyString) Hs).
  - rewrite !append_assoc. cbn [append Sh.scan].
    change (Sh.blank "'") with false. change (Sh.single_quote "'") with true.
    cbn iota. unfold Sh.opened.
    apply (@scan_single s rest EmptyString H).
  - rewrite !append_assoc. unfold dq at 1. cbn [append Sh.scan].
    change (Sh.blank (ascii_of_nat 34)) with false.
    change (Sh.single_quote (ascii_of_nat 34)) with false.
    change (Sh.double_quote (ascii_of_nat 34)) with true.
    cbn iota. unfold Sh.opened.
    apply (@scan_double s rest EmptyString H).
Qed.

(** Written words joined with single blanks are read back one by one. *)
Lemma words_join (written read : list string) :
  Forall2 shell_word written read ->
  Sh.words (Py.join " " written) = Some read.
Proof.
  unfold Sh.words. induction 1 as [|x y l l' Hxy Hl IH]; [reflexivity|].
  destruct Hl as [|x2 y2 l2 l2' Hxy2 Hl2].
  - cbn [Py.join]. rewrite <- (append_empty x).
    rewrite (@scan_word x y EmptyString Hxy). reflexivity.
  - change (Py.join " " (x :: x2 :: l2))
      with (x ++ " " ++ Py.join " " (x2 :: l2))%string.
    rewrite (@scan_word x y _ Hxy). cbn [append Sh.scan].
    change (Sh.blank " ") with true. cbn iota.
    rewrite IH. reflexivity.
Qed.

Lemma path_join_plain (container_path entry : string) :
  plain_word container_path = true ->
  all_chars Sh.ordinary entry = true ->
  plain_word (Py.path_join container_path entry) = true.
Proof.
  unfold plain_word. intros Hp He. apply andb_prop in Hp as [Hn Hc].
  unfold Py.path_join. rewrite Hn. cbn [negb orb].
  destruct (Py.startswith "/" entry) eqn:Hs.
  - rewrite He. destruct entry; [discriminate Hs | reflexivity].
  - destruct container_path as [|c p]; [discriminate Hn|].
    destruct (Py.endswith_char "/" (String c p)).
    + rewrite all_chars_app, Hc, He. reflexivity.
    + rewrite !all_chars_app, Hc, He. reflexivity.
Qed.

Lemma excludes_read (container_path : string) (ignore_paths : list string) :
  plain_word container_path = true ->
  Forall (fun entry => all_chars Sh.ordinary entry = true) ignore_paths ->
  Forall2 shell_word (flat_map (exclude_pair container_path) ignore_paths)
                     (flat_map (exclude_pair container_path) ignore_paths).
Proof.
  intros Hp. induction 1 as [|entry l He _ IH]; [constructor|].
  cbn [flat_map exclude_pair app].
  constructor; [apply Word_plain; reflexivity|].
  constructor; [apply Word_plain; apply path_join_plain; assumption|].
  exact IH.
Qed.

Lemma backup_base_read (w : World) (server_id container_path : string) :
  plain_word server_id = true ->
  plain_word container_path = true ->
  all_chars quotable (PBS_REPOSITORY w) = true ->
  plain_word (PBS_NAMESPACE w) = true ->
  Forall2 shell_word (backup_base w server_id container_path)
                     (backup_words w server_id container_path).
Proof.
  intros Hid Hpath Hrepo Hns. unfold backup_base, backup_words.
  repeat (constructor; [first [ apply Word_plain; first [reflexivity | assumption]
                              | idtac ] |]); [| |constructor].
  - replace (dq ++ server_id ++ ".pxar:" ++ container_path ++ dq)%string
      with (dq ++ (server_id ++ ".pxar:" ++ container_path) ++ dq)%string
      by (rewrite !append_assoc; reflexivity).
    apply Word_double.
    unfold plain_word in Hid, Hpath.
    apply andb_prop in Hid as [_ Hid]. apply andb_prop in Hpath as [_ Hpath].
    rewrite !all_chars_app.
    rewrite (@all_chars_weaken _ _ _ ordinary_double_quotable Hid).
    rewrite (@all_chars_weaken _ _ _ ordinary_double_quotable Hpath).
    reflexivity.
  - apply Word_single. assumption.
Qed.

(** For a server id, a volume path and a namespace of ordinary characters,
    a repository without a single quote and entries of ordinary characters,
    the process started by backup_server receives the thirteen fixed
    arguments and then, for each entry of ignore_paths in order, --exclude
    and the entry joined onto the volume path. *)
Theorem plain_entries_give_one_exclude_each :
  forall (w : World) (server_id : string) (config : Settings)
         (container_path : string) (ignore_paths : list string) (t : trace),
    cfg_ignore_paths config = Some ignore_paths ->
    plain_word server_id = true ->
    plain_word container_path = true ->
    all_chars quotable (PBS_REPOSITORY w) = true ->
    plain_word (PBS_NAMESPACE w) = true ->
    Forall (fun entry => all_chars Sh.ordinary entry = true) ignore_paths ->
    exists line logs,
      emitted (run_backup w server_id config container_path) t
      = Popen line (w_popen w t line) :: logs
      /\ Forall is_log logs
      /\ Sh.words line
         = Some (backup_words w server_id container_path
                   ++ flat_map (exclude_pair container_path) ignore_paths)%list.
Proof.
  intros w server_id config container_path ignore_paths t
         Hcfg Hid Hpath Hrepo Hns Hentries.
  destruct (run_backup_run w server_id config container_path t)
    as (logs & Hrun & Hlogs).
  eexists _, logs. unfold emitted. rewrite Hrun.
  split; [reflexivity|]. split; [assumption|].
  apply words_join. unfold backup_cmd, get_ignore_paths. rewrite Hcfg.
  rewrite exclude_args_pairs. apply Forall2_app.
  - apply backup_base_read; assumption.
  - apply excludes_read; assumption.
Qed.

Lemma plain_entries_give_one_exclude_each_witness :
  exists line logs,
    emitted (run_backup (scripted (alpha [] (ended 0 EmptyString))) "alpha"
                        with_shutdown "/data/alpha-world") []
    = Popen line (ended 0 EmptyString) :: logs
    /\ Forall is_log logs
    /\ Sh.words line
       = Some (backup_words (scripted (alpha [] (ended 0 EmptyString)))
                            "alpha" "/data/alpha-world"
                 ++ [ "--exclude"; "/data/alpha-world/cache";
                      "--exclude"; "/data/alpha-world/tmp/logs" ])%list.
Proof.
  apply (@plain_entries_give_one_exclude_each
           (scripted (alpha [] (ended 0 EmptyString))) "alpha" with_shutdown
           "/data/alpha-world" ["cache"; "tmp/logs"] []);
    try reflexivity.
  repeat constructor.
Defined.

(** ** How commands reach the host *)

(** Every process event carries one command line for the shell; these are
    the command lines the program builds. *)
Definition shell_line (w : World) (server_id : string) (e : event) : Prop :=
  match e with
  | CheckOutput cmd _ =>
      cmd = lookup_cmd server_id \/ cmd = running_query server_id
  | Run cmd _ =>
      (exists action name, cmd = docker_cmd action name)
      \/ (exists snapshot_name path,
             cmd = Py.join " " (restore_cmd w server_id snapshot_name path))
  | Popen cmd _ =>
      (exists path ignore_paths,
          cmd = Py.join " " (backup_cmd w server_id path ignore_paths))
      \/ cmd = Py.join " " (snapshots_cmd w)
  | _ => True
  end.

Lemma shell_line_of_logs (w : World) (server_id : string) (logs : list event) :
  Forall is_log logs -> Forall (shell_line w server_id) logs.
Proof.
  induction 1 as [|e l He _ IH]; constructor; auto.
  destruct e; simpl in *; tauto.
Qed.

Lemma shell_line_of_container (w : World) (server_id action : string)
      (es : list event) :
  Forall (container_event server_id action) es -> Forall (shell_line w server_id) es.
Proof.
  induction 1 as [|e l He _ IH]; constructor; auto.
  destruct e; simpl in *; try tauto.
  left. destruct He as [name ->]. eauto.
Qed.

Lemma shell_line_of_wipe (w : World) (server_id : string) (fs : list event) :
  Forall wipe_event fs -> Forall (shell_line w server_id) fs.
Proof.
  induction 1 as [|e l He _ IH]; constructor; auto.
  destruct e; simpl in *; tauto.
Qed.

Lemma unless_true_shell_line (w : World) (server_id : string) (ro : outcome bool)
      (msg : string) :
  Forall (shell_line w server_id) (unless_true ro msg).
Proof. apply shell_line_of_logs. apply unless_true_logs. Qed.

Lemma backup_run_shell_lines (w : World) (server_id : string) (config : Settings)
      (t : trace) (r : outcome bool) (evs : list event) :
  backup_run w server_id config t r evs -> Forall (shell_line w server_id) evs.
Proof.
  assert (Hp : forall path pr,
             shell_line w server_id (Popen (backup_line w server_id config path) pr)).
  { intros path pr. left. exists path, (get_ignore_paths config). reflexivity. }
  assert (Hq : forall path q,
             Forall (shell_line w server_id) (queried w server_id path q)).
  { intros path q. unfold queried. each_event. right. reflexivity. }
  intros Hrun.
  destruct Hrun as [ms Hlen | path pr logs Hsd Hlogs | path q e Hsd Hq'
                   | path q pr logs Hsd Hqr Hex Hlogs
                   | path q ro es Hsd Hqr Hstop Hro
                   | path q es pr logs started es' Hsd Hqr Hstop Hlogs Hstart].
  - each_event.
  - apply Forall_cons; [exact I|]. apply Forall_cons; [exact I|].
    apply Forall_cons; [apply Hp | apply shell_line_of_logs; assumption].
  - apply Hq.
  - apply Forall_app. split; [apply Hq|].
    apply Forall_cons; [apply Hp | apply shell_line_of_logs; assumption].
  - apply manage_container_events in Hstop as (Hes & _).
    apply Forall_app. split; [apply Hq|]. apply Forall_app. split.
    + eapply shell_line_of_container; eassumption.
    + apply unless_true_shell_line.
  - apply manage_container_events in Hstop as (Hes & _).
    apply manage_container_events in Hstart as (Hes' & _).
    apply Forall_app. split; [apply Hq|]. apply Forall_app. split.
    + eapply shell_line_of_container; eassumption.
    + constructor; [apply Hp|]. apply Forall_app. split.
      * apply shell_line_of_logs; assumption.
      * apply Forall_app. split.
        -- eapply shell_line_of_container; eassumption.
        -- apply unless_true_shell_line.
Qed.

Lemma restore_run_shell_lines (w : World) (server_id snapshot_name : string)
      (t : trace) (r : outcome bool) (evs : list event) :
  restore_run w server_id snapshot_name t r evs ->
  Forall (shell_line w server_id) evs.
Proof.
  assert (Hr : forall path, Forall (shell_line w server_id)
                                   (resolved w server_id snapshot_name path)).
  { intros path. unfold resolved, restore_started. each_event. }
  assert (Hw : forall path items tr b fs,
             delete_contents w path items tr = (Returned b, fs) ->
             Forall (shell_line w server_id) fs).
  { intros path items tr b fs H.
    destruct (delete_contents_returns w path items tr) as (b' & fs' & H' & Hfs & _).
    rewrite H in H'. injection H' as <- <-.
    apply shell_line_of_wipe. assumption. }
  intros Hrun.
  destruct Hrun as [ms Hlen | path ro es Hkill Hro | path es Hkill
                   | path es items fs Hkill Hwipe
                   | path es items fs rr logs Hkill Hwipe Hlogs];
    try (apply manage_container_events in Hkill as (Hes & _);
         apply (shell_line_of_container w) in Hes).
  - unfold restore_started. each_event.
  - apply Forall_app. split; [apply Hr|]. apply Forall_app. split; [assumption|].
    apply unless_true_shell_line.
  - apply Forall_app. split; [apply Hr|]. apply Forall_app. split; [assumption|].
    each_event.
  - apply Forall_app. split; [apply Hr|]. apply Forall_app. split; [assumption|].
    constructor; [exact I|]. eapply Hw; eassumption.
  - apply Forall_app. split; [apply Hr|]. apply Forall_app. split; [assumption|].
    constructor; [exact I|]. apply Forall_app. split; [eapply Hw; eassumption|].
    constructor; [exact I|]. constructor.
    + right. exists snapshot_name, path. reflexivity.
    + apply shell_line_of_logs. assumption.
Qed.

(** C5, as the code has it.  Every command that backup_server,
    restore_server, manage_container and list_snapshots run is one string
    for the shell: the two docker ps pipelines and "docker <action> <name>"
    written around the server id and the container name, and the backup,
    restore and snapshots argument lists joined with single spaces, in
    which the archive, the target directory and the repository carry
    quotes put there by hand. *)
Theorem commands_are_shell_lines :
  forall (w : World) (server_id : string) (t : trace),
    (forall config,
        Forall (shell_line w server_id) (emitted (backup_server w server_id config) t))
    /\ (forall snapshot_name,
           Forall (shell_line w server_id)
                  (emitted (restore_server w server_id snapshot_name) t))
    /\ (forall action,
           Forall (shell_line w server_id)
                  (emitted (manage_container w server_id action) t))
    /\ Forall (shell_line w server_id) (emitted (list_snapshots w server_id) t)
    /\ (forall path,
           nth_error (backup_base w server_id path) 2
           = Some (dq ++ server_id ++ ".pxar:" ++ path ++ dq)
           /\ nth_error (backup_base w server_id path) 4
              = Some ("'" ++ PBS_REPOSITORY w ++ "'"))
    /\ (forall snapshot_name path,
           nth_error (restore_cmd w server_id snapshot_name path) 3
           = Some (dq ++ server_id ++ ".ppxar" ++ dq)
           /\ nth_error (restore_cmd w server_id snapshot_name path) 4
              = Some (dq ++ path ++ dq)
           /\ nth_error (restore_cmd w server_id snapshot_name path) 6
              = Some ("'" ++ PBS_REPOSITORY w ++ "'"))
    /\ nth_error (snapshots_cmd w) 3 = Some ("'" ++ PBS_REPOSITORY w ++ "'").
Proof.
  intros w server_id t. repeat split.
  - intros config. unfold emitted.
    destruct (backup_server_run w server_id config t) as (r & evs & Heq & Hrun).
    rewrite Heq. eapply backup_run_shell_lines. exact Hrun.
  - intros snapshot_name. unfold emitted.
    destruct (restore_server_run w server_id snapshot_name t)
      as (r & evs & Heq & Hrun).
    rewrite Heq. eapply restore_run_shell_lines. exact Hrun.
  - intros action. unfold emitted.
    destruct (manage_container_ends w server_id action t)
      as (ro & es & Heq & Hes & _).
    rewrite Heq. eapply shell_line_of_container. exact Hes.
  - unfold emitted, list_snapshots. unfold_monad. unfold popen_communicate. cbn.
    destruct (communicated (w_popen w _ _)) as [c|e]; cbn.
    + destruct (Z.eqb (returncode c) 0); cbn; each_event; right; reflexivity.
    + each_event. right. reflexivity.
Qed.

(** If the arguments reached the process as a vector, two different
    argument lists would be two different invocations.  They are not: one
    entry of ignore_paths with a blank in it gives the command line of two
    entries. *)
Lemma commands_are_shell_lines_counterexample :
  ~ (forall (w : World) (server_id path : string) (ignore1 ignore2 : list string),
        Py.join " " (backup_cmd w server_id path ignore1)
        = Py.join " " (backup_cmd w server_id path ignore2) ->
        backup_cmd w server_id path ignore1 = backup_cmd w server_id path ignore2).
Proof.
  intros H.
  specialize (H (scripted (alpha [] (ended 0 EmptyString)))
                "alpha" "/data/alpha-world"
                ["cache"; "tmp"] ["cache --exclude /data/alpha-world/tmp"]
                eq_refl).
  vm_compute in H. discriminate H.
Qed.

(** The same in a run: two configurations, one process event. *)
Example one_entry_read_as_two :
  backup_server (scripted (alpha [] (ended 0 EmptyString))) "alpha"
    {| cfg_name := None; cfg_schedule := None; cfg_shutdown := None;
       cfg_ignore_paths := Some ["cache --exclude /data/alpha-world/tmp"] |} []
  = backup_server (scripted (alpha [] (ended 0 EmptyString))) "alpha"
      {| cfg_name := None; cfg_schedule := None; cfg_shutdown := None;
         cfg_ignore_paths := Some ["cache"; "tmp"] |} [].
Proof. vm_compute. reflexivity. Qed.

(** ** schedule_jobs *)

(** The job a server is registered with under the id [id]. *)
Definition backup_job (id : string) (server_id : key) (settings : Settings)
           (minute hour dom month dow : string) : Job :=
  {| job_id := id;
     job_name := "Backup " ++ str_of_key server_id;
     job_trigger := {| cron_minute := minute; cron_hour := hour; cron_day := dom;
                       cron_month := month; cron_day_of_week := dow |};
     job_args := (server_id, settings);
     job_misfire_grace_time := 3600 |}.

(** The id apscheduler settles on for a key, if it takes the key. *)
Definition id_for (w : World) (t : trace) (server_id : key) : option string :=
  if key_truthy server_id then
    match server_id with
    | KStr s => Some s
    | KOther _ _ => None
    end
  else Some (w_uuid4 w t).

(** The job one turn of the loop registers, if it registers one. *)
Definition job_for (w : World) (t : trace) (server_id : key) (settings : Settings)
  : list Job :=
  match cfg_schedule settings with
  | Some schedule =>
      match Py.split_ws schedule with
      | [minute; hour; dom; month; dow] =>
          match w_cron_error w minute hour dom month dow with
          | None =>
              match id_for w t server_id with
              | Some id => [backup_job id server_id settings minute hour dom month dow]
              | None => []
              end
          | Some _ => []
          end
      | _ => []
      end
  | None => []
  end.

Definition is_info (e : event) : bool :=
  match e with Log Info _ => true | _ => false end.

Lemma schedule_one_run (w : World) (scheduler : list Job) (server_id : key)
      (settings : Settings) (t : trace) :
  exists lvl msg,
    schedule_one w scheduler server_id settings t
    = (Returned (scheduler ++ job_for w t server_id settings)%list, [Log lvl msg])
    /\ length (filter is_info [Log lvl msg])
       = length (job_for w t server_id settings).
Proof.
  unfold schedule_one, job_for, schedule_of, cron_trigger, add_job, backup_job,
    id_for.
  unfold_monad.
  destruct (cfg_schedule settings) as [schedule|]; cbn.
  - destruct (Py.split_ws schedule) as [|a [|b [|c [|d [|e [|f l]]]]]]; cbn;
      try (rewrite app_nil_r; eexists _, _; split; reflexivity).
    destruct (w_cron_error w a b c d e); cbn;
      [rewrite app_nil_r; eexists _, _; split; reflexivity|].
    rewrite ?app_nil_r.
    destruct (key_truthy server_id) eqn:Ek; cbn.
    + destruct server_id as [s|text truth]; cbn;
        [|rewrite app_nil_r]; eexists _, _; split; reflexivity.
    + eexists _, _; split; reflexivity.
  - rewrite app_nil_r. eexists _, _. split; reflexivity.
Qed.

(** What schedule_jobs adds: for each server in turn, the job of that turn
    of the loop. *)
Inductive registered (w : World) : list (key * Settings) -> list Job -> Prop :=
| Registered_none : registered w [] []
| Registered_next (server_id : key) (settings : Settings) (t : trace)
                  (rest : list (key * Settings)) (jobs : list Job) :
    registered w rest jobs ->
    registered w ((server_id, settings) :: rest)
               (job_for w t server_id settings ++ jobs)%list.

Lemma schedule_jobs_run (w : World) (servers : list (key * Settings)) :
  forall (scheduler : list Job) (t : trace),
  exists added logs,
    schedule_jobs w scheduler servers t = (Returned (scheduler ++ added)%list, logs)
    /\ registered w servers added
    /\ Forall is_log logs
    /\ length logs = length servers
    /\ length (filter is_info logs) = length added.
Proof.
  induction servers as [|[server_id settings] rest IH]; intros scheduler t.
  - exists [], []. cbn. rewrite app_nil_r.
    repeat split; constructor.
  - destruct (schedule_one_run w scheduler server_id settings t)
      as (lvl & msg & Hone & Hcount).
    destruct (IH (scheduler ++ job_for w t server_id settings)%list
                 (t ++ [Log lvl msg])%list)
      as (added & logs & Hrest & Hreg & Hlogs & Hlen & Hinfo).
    exists (job_for w t server_id settings ++ added)%list, (Log lvl msg :: logs).
    split; [|split; [|split; [|split]]].
    + cbn [schedule_jobs].
      rewrite (@bind_returned _ _ (schedule_one w scheduler server_id settings)
                 (fun scheduler' => schedule_jobs w scheduler' rest)
                 t _ _ _ _ Hone Hrest).
      rewrite <- app_assoc. reflexivity.
    + constructor. assumption.
    + constructor; [exact I | assumption].
    + cbn [length]. rewrite Hlen. reflexivity.
    + change (Log lvl msg :: logs) with ([Log lvl msg] ++ logs)%list.
      rewrite filter_app, !length_app, Hcount, Hinfo. reflexivity.
Qed.

Lemma key_eqb_eq (a b : key) : key_eqb a b = true <-> a = b.
Proof.
  destruct a as [s|x p], b as [s'|y q]; cbn; split; intros H;
    try discriminate H.
  - apply String.eqb_eq in H. subst. reflexivity.
  - injection H as ->. apply String.eqb_refl.
  - apply andb_prop in H as [Hs Hb]. apply String.eqb_eq in Hs.
    apply Bool.eqb_prop in Hb. subst. reflexivity.
  - injection H as -> ->. rewrite String.eqb_refl, Bool.eqb_reflx. reflexivity.
Qed.

Lemma key_eqb_refl (a : key) : key_eqb a a = true.
Proof. apply key_eqb_eq. reflexivity. Qed.

Lemma key_eqb_neq (a b : key) : a <> b -> key_eqb a b = false.
Proof.
  intros H. destruct (key_eqb a b) eqn:E; [|reflexivity].
  apply key_eqb_eq in E. contradiction.
Qed.

(** The jobs that were registered for the server [server_id]. *)
Definition jobs_of (server_id : key) (jobs : list Job) : list Job :=
  filter (fun j => key_eqb (fst (job_args j)) server_id) jobs.

Lemma job_for_args (w : World) (t : trace) (server_id : key) (settings : Settings)
      (j : Job) :
  In j (job_for w t server_id settings) -> job_args j = (server_id, settings).
Proof.
  unfold job_for.
  destruct (cfg_schedule settings) as [schedule|]; [|contradiction].
  destruct (Py.split_ws schedule) as [|a [|b [|c [|d [|e [|f l]]]]]];
    try contradiction.
  destruct (w_cron_error w a b c d e); [contradiction|].
  destruct (id_for w t server_id); [|contradiction].
  intros [<-|[]]. reflexivity.
Qed.

Lemma jobs_of_job_for (w : World) (t : trace) (server_id k : key)
      (settings : Settings) :
  jobs_of k (job_for w t server_id settings)
  = if key_eqb server_id k then job_for w t server_id settings else [].
Proof.
  assert (H : forall l : list Job,
             (forall j, In j l -> job_args j = (server_id, settings)) ->
             jobs_of k l = if key_eqb server_id k then l else []).
  { induction l as [|j l IH]; intros Hargs.
    - destruct (key_eqb server_id k); reflexivity.
    - unfold jobs_of. cbn [filter]. rewrite (Hargs j (or_introl eq_refl)).
      cbn [fst]. fold (jobs_of k l).
      rewrite IH by (intros j' Hj'; apply Hargs; right; assumption).
      destruct (key_eqb server_id k); reflexivity. }
  apply H. intros j. apply job_for_args.
Qed.

Lemma jobs_of_others (w : World) (servers : list (key * Settings))
      (server_id : key) (added : list Job) :
  registered w servers added ->
  ~ In server_id (map fst servers) ->
  jobs_of server_id added = [].
Proof.
  induction 1 as [|k v t rest jobs Hreg IH]; intros Hk; [reflexivity|].
  unfold jobs_of. rewrite filter_app. fold (jobs_of server_id (job_for w t k v)).
  fold (jobs_of server_id jobs). rewrite jobs_of_job_for.
  rewrite key_eqb_neq by (intros ->; apply Hk; left; reflexivity).
  apply IH. intros Hin. apply Hk. right. assumption.
Qed.

Lemma jobs_of_server (w : World) (servers : list (key * Settings))
      (server_id : key) (settings : Settings) (added : list Job) :
  registered w servers added ->
  NoDup (map fst servers) ->
  In (server_id, settings) servers ->
  exists t, jobs_of server_id added = job_for w t server_id settings.
Proof.
  induction 1 as [|k v t rest jobs Hreg IH]; intros Hnd Hin; [contradiction|].
  cbn [map fst] in Hnd. inversion Hnd as [|? ? Hk Hrest]; subst.
  unfold jobs_of. rewrite filter_app. fold (jobs_of server_id (job_for w t k v)).
  fold (jobs_of server_id jobs). rewrite jobs_of_job_for.
  destruct Hin as [Heq|Hin].
  - injection Heq as -> ->. rewrite key_eqb_refl.
    rewrite (@jobs_of_others w rest server_id jobs Hreg Hk). exists t. apply app_nil_r.
  - rewrite key_eqb_neq.
    + cbn [app]. apply IH; assumption.
    + intros ->. apply Hk. apply (in_map fst) in Hin. exact Hin.
Qed.

(** C9, as the code has it.  schedule_jobs on a scheduler without jobs
    always ends, and for every server of the configuration: if its schedule
    does not split into five fields, no job is registered for it; if it
    splits into five fields that CronTrigger accepts and the server's key
    is a non-empty string, exactly one job is registered for it, under its
    key as id, with these fields -- whatever the keys and schedules of the
    other servers are. *)
Theorem bad_schedule_skips_only_that_server :
  forall (w : World) (servers : list (key * Settings)) (t : trace),
    NoDup (map fst servers) ->
    exists jobs logs,
      schedule_jobs w [] servers t = (Returned jobs, logs)
      /\ Forall is_log logs
      /\ forall server_id settings schedule,
           In (server_id, settings) servers ->
           cfg_schedule settings = Some schedule ->
           (length (Py.split_ws schedule) <> 5 -> jobs_of server_id jobs = [])
           /\ (forall id minute hour dom month dow,
                  server_id = KStr id ->
                  id <> EmptyString ->
                  Py.split_ws schedule = [minute; hour; dom; month; dow] ->
                  w_cron_error w minute hour dom month dow = None ->
                  jobs_of server_id jobs
                  = [backup_job id server_id settings minute hour dom month dow]).
Proof.
  intros w servers t Hnd.
  destruct (schedule_jobs_run w servers [] t)
    as (added & logs & Hrun & Hreg & Hlogs & _).
  cbn [app] in Hrun. exists added, logs.
  split; [exact Hrun|]. split; [assumption|].
  intros server_id settings schedule Hin Hsched.
  destruct (@jobs_of_server w servers server_id settings added Hreg Hnd Hin) as (t' & ->).
  unfold job_for. rewrite Hsched. split.
  - intros Hlen.
    destruct (Py.split_ws schedule) as [|a [|b [|c [|d [|e [|f l]]]]]];
      try reflexivity.
    exfalso. apply Hlen. reflexivity.
  - intros id minute hour dom month dow -> Hid Hfields Hok.
    rewrite Hfields, Hok. unfold id_for. cbn [key_truthy].
    destruct id; [contradiction|]. reflexivity.
Qed.

(** *** Concrete configurations *)

Definition scheduled (schedule : string) : Settings :=
  {| cfg_name := Some "server"; cfg_schedule := Some schedule;
     cfg_shutdown := None; cfg_ignore_paths := None |}.

(** Three servers; the second schedule has four fields only. *)
Definition three_servers : list (key * Settings) :=
  [ (KStr "alpha", scheduled "0 3 * * *");
    (KStr "beta", scheduled "0 3 * *");
    (KStr "gamma", scheduled "30  4 * * 1") ].

Definition plain_host : World := scripted (alpha [] (ended 0 EmptyString)).

Example three_servers_jobs :
  schedule_jobs plain_host [] three_servers []
  = (Returned
       [ backup_job "alpha" (KStr "alpha") (scheduled "0 3 * * *")
                    "0" "3" "*" "*" "*";
         backup_job "gamma" (KStr "gamma") (scheduled "30  4 * * 1")
                    "30" "4" "*" "*" "1" ],
     [ Log Info "Scheduled backup for alpha with schedule: 0 3 * * *";
       Log Error "Invalid cron format for beta, skipping.";
       Log Info "Scheduled backup for gamma with schedule: 30  4 * * 1" ]).
Proof. vm_compute. reflexivity. Qed.

Lemma three_servers_distinct : NoDup (map fst three_servers).
Proof.
  cbn. repeat constructor; cbn; intros H;
    repeat (destruct H as [H|H]; try discriminate H); exact H.
Qed.

Lemma bad_schedule_skips_only_that_server_witness :
  exists jobs logs,
    schedule_jobs plain_host [] three_servers [] = (Returned jobs, logs)
    /\ Forall is_log logs
    /\ jobs_of (KStr "beta") jobs = []
    /\ jobs_of (KStr "gamma") jobs
       = [ backup_job "gamma" (KStr "gamma") (scheduled "30  4 * * 1")
                      "30" "4" "*" "*" "1" ].
Proof.
  destruct (@bad_schedule_skips_only_that_server
              plain_host three_servers [] three_servers_distinct)
    as (jobs & logs & Hrun & Hlogs & Hall).
  exists jobs, logs. split; [exact Hrun|]. split; [exact Hlogs|]. split.
  - apply (proj1 (Hall (KStr "beta") (scheduled "0 3 * *") "0 3 * *"
                       (or_intror (or_introl eq_refl)) eq_refl)).
    vm_compute. discriminate.
  - apply (proj2 (Hall (KStr "gamma") (scheduled "30  4 * * 1") "30  4 * * 1"
                       (or_intror (or_intror (or_introl eq_refl))) eq_refl)
                 "gamma" "30" "4" "*" "*" "1" eq_refl).
    + discriminate.
    + reflexivity.
    + reflexivity.
Defined.

(** The claim as the specification has it: every server whose schedule has
    five fields that CronTrigger accepts gets a job with its key as id. *)
Definition every_valid_schedule_registered (w : World)
           (servers : list (key * Settings)) (t : trace) : Prop :=
  exists jobs logs,
    schedule_jobs w [] servers t = (Returned jobs, logs)
    /\ forall server_id settings schedule minute hour dom month dow,
         In (server_id, settings) servers ->
         cfg_schedule settings = Some schedule ->
         Py.split_ws schedule = [minute; hour; dom; month; dow] ->
         w_cron_error w minute hour dom month dow = None ->
         exists j, In j jobs
                   /\ job_args j = (server_id, settings)
                   /\ job_id j = str_of_key server_id.

(** YAML reads the key 42 as an integer; apscheduler turns an id that is
    not a string down, schedule_jobs logs the TypeError and goes on. *)
Definition numbered_server : list (key * Settings) :=
  [ (KStr "alpha", scheduled "0 3 * * *");
    (KOther "42" true, scheduled "0 4 * * *") ].

Example numbered_server_jobs :
  schedule_jobs plain_host [] numbered_server []
  = (Returned
       [ backup_job "alpha" (KStr "alpha") (scheduled "0 3 * * *")
                    "0" "3" "*" "*" "*" ],
     [ Log Info "Scheduled backup for alpha with schedule: 0 3 * * *";
       Log Error "Failed to schedule backup for 42: id must be a nonempty string" ]).
Proof. vm_compute. reflexivity. Qed.

Lemma bad_schedule_skips_only_that_server_counterexample :
  ~ every_valid_schedule_registered plain_host numbered_server [].
Proof.
  intros (jobs & logs & Hrun & Hall).
  rewrite numbered_server_jobs in Hrun. injection Hrun as <- _.
  destruct (Hall (KOther "42" true) (scheduled "0 4 * * *") "0 4 * * *"
                 "0" "4" "*" "*" "*" (or_intror (or_introl eq_refl))
                 eq_refl eq_refl eq_refl) as (j & Hin & Hargs & _).
  destruct Hin as [<-|[]]. discriminate Hargs.
Qed.

(** A server under the empty key is registered, under an id that
    apscheduler draws. *)
Example empty_key_jobs :
  schedule_jobs plain_host [] [ (KStr EmptyString, scheduled "0 3 * * *") ] []
  = (Returned
       [ backup_job "9f1c2a7d4b3e4c5d8a6b7c8d9e0f1a2b" (KStr EmptyString)
                    (scheduled "0 3 * * *") "0" "3" "*" "*" "*" ],
     [ Log Info "Scheduled backup for  with schedule: 0 3 * * *" ]).
Proof. vm_compute. reflexivity. Qed.

(** str.split() takes the no-break space for a blank: five fields. *)
Example no_break_space_schedule :
  schedule_jobs plain_host []
    [ (KStr "alpha",
       scheduled ("0 3 * *" ++ String (ascii_of_nat 160) "*")) ] []
  = (Returned
       [ backup_job "alpha" (KStr "alpha")
                    (scheduled ("0 3 * *" ++ String (ascii_of_nat 160) "*"))
                    "0" "3" "*" "*" "*" ],
     [ Log Info ("Scheduled backup for alpha with schedule: 0 3 * *"
                 ++ String (ascii_of_nat 160) "*") ]).
Proof. vm_compute. reflexivity. Qed.

(** ** The one-shot backup of main *)


(** What main makes of backup_server: the exit code and one more line of
    log, or the exception as it is. *)
Definition after_backup (run : outcome bool * list event)
  : outcome finished * list event :=
  match run with
  | (Returned true, evs) =>
      (Returned (Exit 0), (evs ++ [Log Info "Backup completed successfully"])%list)
  | (Returned false, evs) =>
      (Returned (Exit 1), (evs ++ [Log Error "Backup failed"])%list)
  | (Raised e, evs) => (Raised e, evs)
  end.

Lemma main_backup_run (w : World) (args : Args) (servers : list (key * Settings))
      (server_id : string) (t : trace) :
  arg_list_snapshots args = false ->
  arg_backup args = true ->
  arg_server_id args = Some server_id ->
  Py.truthy server_id = true ->
  main w args servers t
  = after_backup
      (backup_server w server_id
         (if arg_shutdown args then set_shutdown (servers_get servers server_id)
          else servers_get servers server_id) t).
Proof.
  intros Hlist Hbackup Hid Hgiven. unfold main, supplied.
  rewrite Hlist, Hbackup, Hid, Hgiven. unfold bind at 1.
  destruct (backup_server w server_id _ t) as [[[|]|e] evs]; reflexivity.
Qed.





(** The command line [--backup --server-id <id>] with or without
    [--shutdown]. *)
Definition cli_backup (server_id : string) (shutdown : bool) : Args :=
  {| arg_backup := true; arg_restore := false;
     arg_server_id := Some server_id; arg_snapshot := None;
     arg_list_snapshots := false; arg_shutdown := shutdown |}.

Definition failing_backup : World :=
  scripted (alpha [] (ended 255 "Error: unable to connect")).

Definition beta_only : list (key * Settings) :=
  [ (KStr "beta", scheduled "0 3 * * *") ].

(** An id that the configuration does not list, a volume directory that
    resolves to one path, and a backup process that ends with status 255:
    the command line tool exits with 1. *)
Example cli_backup_unlisted_failing :
  main failing_backup (cli_backup "alpha" false) beta_only []
  = (Returned (Exit 1),
     [ Log Info "Starting backup for alpha";
       Glob "/data/alpha*" ["/data/alpha-world"];
       Popen (Py.join " " (backup_base failing_backup "alpha" "/data/alpha-world"))
             (ended 255 "Error: unable to connect");
       Log Info ("Backup progress for alpha:" ++ nl ++ "Error: unable to connect");
       Log Error "Backup failed for alpha";
       Log Error "Backup failed" ]).
Proof. vm_compute. reflexivity. Qed.


(** An empty id is turned away before anything is looked up. *)
Example cli_backup_empty_id :
  main failing_backup (cli_backup EmptyString false) [] []
  = (Returned (Exit 1), [Log Error "Server ID is required for backup"]).
Proof. reflexivity. Qed.

(** The backup process cannot be launched: the exception leaves main and
    the process ends with status 1. *)
Example cli_backup_unlaunched :
  exit_status
    (result (main (scripted (alpha [] no_memory)) (cli_backup "alpha" false)
                  beta_only) [])
  = Some 1%Z.
Proof. vm_compute. reflexivity. Qed.


(** * Further properties *)

(** ** run_command and manage_container *)

Lemma run_command_outcome (w : World) (cmd : string) (t : trace) :
  exists ro r logs,
    run_command w cmd t
    = (ro, Log Info ("Executing command: " ++ cmd) :: Run cmd r :: logs)
    /\ r = w_run w (t ++ [Log Info ("Executing command: " ++ cmd)])%list cmd
    /\ Forall is_log logs
    /\ (ro = Returned true <-> exists c, r = Some (Exited c) /\ returncode c = 0%Z)
    /\ (ro = Returned false <-> exists msg, In (Log Error msg) logs)
    /\ (ro = Returned false
        <-> r = None \/ exists c, r = Some (Exited c) /\ returncode c <> 0%Z)
    /\ (forall e, ro = Raised e
                  <-> exists r', r = Some r' /\ communicated r' = Raised e).
Proof.
  destruct (run_command_run w cmd t) as (logs & Hrun & Hlogs & Hf).
  cbv zeta in Hrun, Hf.
  set (r := w_run w (t ++ [Log Info ("Executing command: " ++ cmd)])%list cmd) in *.
  exists (run_verdict r), r, logs.
  split; [exact Hrun|]. split; [reflexivity|]. split; [exact Hlogs|].
  split; [|split; [exact Hf|split]].
  - rewrite run_verdict_true. destruct r as [[c|z m|m]|]; cbn; split;
      try discriminate; try (intros (c' & H & _); discriminate H).
    + intros H. exists c. split; [reflexivity | apply Z.eqb_eq; exact H].
    + intros (c' & H & Hz). injection H as <-. apply Z.eqb_eq. exact Hz.
  - destruct r as [[c|z m|m]|]; cbn; split;
      try discriminate;
      try (intros [H|(c' & H & _)]; discriminate H);
      try (intros _; left; reflexivity);
      try reflexivity.
    + intros H. right. exists c. split; [reflexivity|].
      injection H as H. apply Z.eqb_neq. exact H.
    + intros [H|(c' & H & Hz)]; [discriminate H|]. injection H as <-.
      apply Z.eqb_neq in Hz. rewrite Hz. reflexivity.
  - intros e. apply run_verdict_raised.
Qed.

(** run_command logs the command and runs it once.  It returns True
    exactly when the process ran to its end with output that decoded and
    status zero; it returns False exactly when it logged an error, which is
    the case exactly for a timeout and for a non-zero status; it raises
    exactly when subprocess.run raised something else, the exception being
    that one. *)
Theorem run_command_reports :
  forall (w : World) (cmd : string) (t : trace),
    let started := Log Info ("Executing command: " ++ cmd) in
    let r := w_run w (t ++ [started])%list cmd in
    exists ro logs,
      run_command w cmd t = (ro, started :: Run cmd r :: logs)
      /\ Forall is_log logs
      /\ (ro = Returned true <-> exists c, r = Some (Exited c) /\ returncode c = 0%Z)
      /\ (ro = Returned false
          <-> exists msg, In (Log Error msg) (started :: Run cmd r :: logs))
      /\ (ro = Returned false
          <-> r = None \/ exists c, r = Some (Exited c) /\ returncode c <> 0%Z)
      /\ (forall e, ro = Raised e
                    <-> exists r', r = Some r' /\ communicated r' = Raised e).
Proof.
  intros w cmd t started r.
  destruct (run_command_outcome w cmd t)
    as (ro & r' & logs & Hrun & Hr & Hlogs & Hb & Hf & Hwhy & He).
  subst r'. fold started in Hrun. fold r in Hrun, Hb, Hwhy, He.
  exists ro, logs. split; [exact Hrun|]. split; [exact Hlogs|]. split; [exact Hb|].
  split; [|split; [exact Hwhy | exact He]].
  rewrite Hf. split.
  - intros (msg & Hin). exists msg. right. right. exact Hin.
  - intros (msg & Hin). exists msg.
    destruct Hin as [Hin|[Hin|Hin]]; [discriminate Hin | discriminate Hin | exact Hin].
Qed.

Lemma lookup_verdict_name (server_id : string) (lk : ran) (name : string) :
  lookup_verdict server_id lk = Named name ->
  exists c, lk = Exited c /\ returncode c = 0%Z
            /\ lookup_lines c = [name] /\ name <> EmptyString.
Proof.
  unfold lookup_verdict.
  destruct lk as [c|z m|m]; cbn [communicated]; try discriminate.
  destruct (Z.eqb (returncode c) 0) eqn:Ez; [|discriminate].
  apply Z.eqb_eq in Ez.
  destruct (lookup_lines c) as [|x [|y l]] eqn:El; cbn; try discriminate.
  - destruct x; [discriminate|]. intros H. injection H as <-.
    exists c. repeat split; [assumption | assumption | discriminate].
  - destruct x; discriminate.
Qed.

Lemma manage_container_outcome :
  forall (w : World) (server_id action : string) (t : trace),
  exists ro rest,
    manage_container w server_id action t
    = (ro,
       CheckOutput (lookup_cmd server_id)
                   (w_check_output w t (lookup_cmd server_id)) :: rest)
    /\ Forall (container_event server_id action) rest
    /\ (forall cmd r,
           In (Run cmd r) rest ->
           exists name c,
             cmd = docker_cmd action name
             /\ name <> EmptyString
             /\ w_check_output w t (lookup_cmd server_id) = Exited c
             /\ lookup_lines c = [name]
             /\ forall cmd' r', In (Run cmd' r') rest -> cmd' = cmd /\ r' = r)
    /\ (forall cmd q, ~ In (CheckOutput cmd q) rest)
    /\ (ro = Returned true
        <-> exists cmd c, In (Run cmd (Some (Exited c))) rest /\ returncode c = 0%Z)
    /\ (ro = Returned false <-> exists msg, In (Log Error msg) rest).
Proof.
  intros w server_id action t. rewrite manage_container_run. cbv zeta.
  set (lk := w_check_output w t (lookup_cmd server_id)).
  set (seen := CheckOutput (lookup_cmd server_id) lk).
  destruct (lookup_verdict server_id lk) as [name|msg|e] eqn:Ev.
  - destruct (lookup_verdict_name _ _ Ev) as (c & Hlk & _ & Hlines & Hne).
    destruct (run_command_outcome w (docker_cmd action name) (t ++ [seen])%list)
      as (ro & r & logs & Hrun & _ & Hlogs & Hb & Hf & _).
    rewrite Hrun. cbn [fst snd]. eexists ro, _. split; [reflexivity|].
    assert (Honly : forall cmd' r',
               In (Run cmd' r')
                  (Log Info ("Executing command: " ++ docker_cmd action name)
                     :: Run (docker_cmd action name) r :: logs) ->
               cmd' = docker_cmd action name /\ r' = r).
    { intros cmd' r' Hin. in_cases Hin; try discriminate Hin.
      - injection Hin as <- <-. split; reflexivity.
      - exact (False_ind _ (in_logs_absurd _ Hlogs Hin)). }
    split; [|split; [|split; [|split]]].
    + constructor; [exact I|]. constructor; [exists name; reflexivity|].
      apply is_log_container_event. assumption.
    + intros cmd r0 Hin. destruct (Honly _ _ Hin) as [-> ->].
      exists name, c. repeat split; try assumption.
      * apply (Honly cmd' r' H).
      * apply (Honly cmd' r' H).
    + intros cmd q Hin. in_cases Hin; try discriminate Hin.
      exact (in_logs_absurd _ Hlogs Hin).
    + rewrite Hb. split.
      * intros (c' & -> & Hz). exists (docker_cmd action name), c'.
        split; [right; left; reflexivity | assumption].
      * intros (cmd & c' & Hin & Hz). destruct (Honly _ _ Hin) as [_ <-]. eauto.
    + rewrite Hf. split.
      * intros (m & Hin). exists m. right. right. assumption.
      * intros (m & Hin). in_cases Hin; try discriminate Hin. eauto.
  - exists (Returned false), [Log Error msg]. split; [reflexivity|].
    split; [repeat constructor|]. split; [|split; [|split]].
    + intros cmd r Hin. in_cases Hin; discriminate Hin.
    + intros cmd q Hin. in_cases Hin; discriminate Hin.
    + split; [discriminate|]. intros (cmd & c & Hin & _).
      in_cases Hin; discriminate Hin.
    + split; [|reflexivity]. intros _. exists msg. left. reflexivity.
  - exists (Raised e), []. split; [reflexivity|].
    split; [constructor|]. split; [|split; [|split]].
    + intros cmd r [].
    + intros cmd q [].
    + split; [discriminate | intros (cmd & c & [] & _)].
    + split; [discriminate | intros (m & [])].
Qed.

(** After its lookup manage_container adds log lines and at most one
    command, "docker <action> <name>" for the only line of the lookup's
    output, which is then not empty.  It returns True exactly when that
    command ran to its end with output that decoded and status zero, and
    False exactly when it logged an error; it raises exactly when the
    lookup or the docker command raised something no except clause
    selects, the exception being that one. *)
Theorem manage_container_reports :
  forall (w : World) (server_id action : string) (t : trace),
    let lk := w_check_output w t (lookup_cmd server_id) in
    exists ro rest,
      manage_container w server_id action t
      = (ro, CheckOutput (lookup_cmd server_id) lk :: rest)
      /\ Forall (fun e => is_log e
                          \/ exists name r c,
                               e = Run (docker_cmd action name) r
                               /\ name <> EmptyString
                               /\ lk = Exited c
                               /\ lookup_lines c = [name]) rest
      /\ (forall cmd r cmd' r',
             In (Run cmd r) rest -> In (Run cmd' r') rest -> cmd' = cmd /\ r' = r)
      /\ (ro = Returned true
          <-> exists cmd c, In (Run cmd (Some (Exited c))) rest /\ returncode c = 0%Z)
      /\ (ro = Returned false <-> exists msg, In (Log Error msg) rest)
      /\ (forall e, ro = Raised e
                    <-> broke e (CheckOutput (lookup_cmd server_id) lk :: rest)).
Proof.
  intros w server_id action t lk.
  destruct (manage_container_outcome w server_id action t)
    as (ro & rest & Hrun & Hev & Hcmd & Hno & Hb & Hf).
  fold lk in Hrun, Hcmd.
  exists ro, rest. split; [exact Hrun|].
  split; [|split; [|split; [exact Hb|split; [exact Hf|]]]].
  - apply Forall_forall. intros e Hin.
    destruct e as [pat ms|cmd q|cmd r|cmd r|p l|p f|p d|p err|p err|line|lvl msg];
      try (left; exact I);
      try exact (False_ind _ (container_event_in _ Hev Hin)).
    + exfalso. exact (Hno _ _ Hin).
    + right. destruct (Hcmd _ _ Hin) as (name & c & -> & Hne & Hlk & Hlines & _).
      exists name, r, c. repeat split; assumption.
  - intros cmd r cmd' r' Hin Hin'.
    destruct (Hcmd _ _ Hin) as (_ & _ & _ & _ & _ & _ & Honly).
    exact (Honly _ _ Hin').
  - intros e.
    exact (proj2 (proj2 (manage_container_events _ _ _ _ Hrun)) e).
Qed.

(** ** backup_server: what happens around the backup process *)

Definition is_popen (e : event) : Prop :=
  match e with Popen _ _ => True | _ => False end.

(** What backup_server may do before the backup process: log, glob, ask
    docker what runs and which container the id names, stop it. *)
Definition before_backup (server_id : string) (e : event) : Prop :=
  match e with
  | Log _ _ | Glob _ _ => True
  | CheckOutput cmd _ => cmd = running_query server_id \/ cmd = lookup_cmd server_id
  | Run cmd _ => exists name, cmd = docker_cmd "stop" name
  | _ => False
  end.

(** What it may do after it: log, ask docker which container the id names,
    start it. *)
Definition after_the_backup (server_id : string) (e : event) : Prop :=
  match e with
  | Log _ _ => True
  | CheckOutput cmd _ => cmd = lookup_cmd server_id
  | Run cmd _ => exists name, cmd = docker_cmd "start" name
  | _ => False
  end.

Lemma split_unique {A : Type} (P : A -> Prop) (a b a' b' : list A) (x x' : A) :
  (a ++ x :: b)%list = (a' ++ x' :: b')%list ->
  P x -> P x' ->
  (forall e, In e a -> ~ P e) ->
  (forall e, In e b -> ~ P e) ->
  a' = a /\ x' = x /\ b' = b.
Proof.
  revert a'. induction a as [|y a IH]; intros [|y' a'] Heq Hx Hx' Ha Hb.
  - cbn in Heq. injection Heq as -> ->. repeat split.
  - cbn in Heq. injection Heq as -> ->. exfalso.
    apply (Hb x'); [apply in_or_app; right; left; reflexivity | assumption].
  - cbn in Heq. injection Heq as -> _. exfalso.
    apply (Ha x'); [left; reflexivity | assumption].
  - cbn in Heq. injection Heq as -> Heq.
    destruct (IH a' Heq Hx Hx') as (-> & -> & ->).
    + intros e He. apply Ha. right. assumption.
    + assumption.
    + repeat split.
Qed.

Lemma after_of_logs (server_id : string) (logs : list event) :
  Forall is_log logs -> Forall (after_the_backup server_id) logs.
Proof.
  induction 1 as [|e l He _ IH]; constructor; auto.
  destruct e; simpl in *; tauto.
Qed.

Lemma before_of_logs (server_id : string) (logs : list event) :
  Forall is_log logs -> Forall (before_backup server_id) logs.
Proof.
  induction 1 as [|e l He _ IH]; constructor; auto.
  destruct e; simpl in *; tauto.
Qed.

Lemma before_of_stop (server_id : string) (es : list event) :
  Forall (container_event server_id "stop") es -> Forall (before_backup server_id) es.
Proof.
  induction 1 as [|e l He _ IH]; constructor; auto.
  destruct e; simpl in *; tauto.
Qed.

Lemma after_of_start (server_id : string) (es : list event) :
  Forall (container_event server_id "start") es ->
  Forall (after_the_backup server_id) es.
Proof.
  induction 1 as [|e l He _ IH]; constructor; auto.
Qed.

(** A run either has no backup process at all, or is made of what may come
    before it, the one process, and what may come after it. *)
Lemma backup_run_split (w : World) (server_id : string) (config : Settings)
      (t : trace) (r : outcome bool) (evs : list event) :
  backup_run w server_id config t r evs ->
  (forall e, In e evs -> before_backup server_id e)
  \/ exists before cmd pr after,
       evs = (before ++ Popen cmd pr :: after)%list
       /\ Forall (before_backup server_id) before
       /\ Forall (after_the_backup server_id) after.
Proof.
  assert (Hq : forall path q, Forall (before_backup server_id)
                                     (queried w server_id path q)).
  { intros path q. unfold queried. each_event. left. reflexivity. }
  intros Hrun.
  destruct Hrun as [ms Hlen | path pr logs Hsd Hlogs | path q x Hsd Hqr
                   | path q pr logs Hsd Hqr Hc Hlogs
                   | path q ro es Hsd Hqr Hstop Hro
                   | path q es pr logs started es' Hsd Hqr Hstop Hlogs Hstart].
  - left. intros e Hin. in_cases Hin; subst e; exact I.
  - right. exists [backup_started server_id; Glob (volume_pattern w server_id) [path]],
             (backup_line w server_id config path), pr, logs.
    split; [reflexivity|]. split; [each_event | apply after_of_logs; assumption].
  - left. specialize (Hq path q). rewrite Forall_forall in Hq. exact Hq.
  - right. exists (queried w server_id path q),
             (backup_line w server_id config path), pr, logs.
    split; [reflexivity|]. split; [apply Hq | apply after_of_logs; assumption].
  - left. apply manage_container_events in Hstop as [Hes _].
    apply before_of_stop in Hes. specialize (Hq path q).
    pose proof (before_of_logs server_id (unless_true_logs ro (stop_failed server_id)))
      as Hl.
    rewrite Forall_forall in Hes, Hq, Hl.
    intros e Hin. apply in_app_or in Hin as [Hin|Hin]; [apply Hq; assumption|].
    apply in_app_or in Hin as [Hin|Hin]; [apply Hes; assumption|].
    apply Hl. assumption.
  - right. apply manage_container_events in Hstop as [Hes _].
    apply manage_container_events in Hstart as [Hes' _].
    exists (queried w server_id path q ++ es)%list,
           (backup_line w server_id config path), pr,
           (logs ++ es' ++ unless_true started (start_failed server_id))%list.
    split; [rewrite <- app_assoc; reflexivity|]. split.
    + apply Forall_app. split; [apply Hq | apply before_of_stop; assumption].
    + apply Forall_app. split; [apply after_of_logs; assumption|].
      apply Forall_app. split; [apply after_of_start; assumption|].
      apply after_of_logs. apply unless_true_logs.
Qed.

(** The backup process is started at most once; every docker stop comes
    before it and every docker start after it.  The outcome of the call is
    the outcome of the backup process, or the exception of a subprocess
    call of the run that raised. *)
Theorem backup_stops_before_and_starts_after :
  forall (w : World) (server_id : string) (config : Settings) (t : trace)
         (r : outcome bool) (evs before after : list event)
         (cmd : string) (pr : ran),
    backup_server w server_id config t = (r, evs) ->
    evs = (before ++ Popen cmd pr :: after)%list ->
    (forall e, In e before \/ In e after -> ~ is_popen e)
    /\ (forall name rr, ~ In (Run (docker_cmd "start" name) rr) before)
    /\ (forall name rr, ~ In (Run (docker_cmd "stop" name) rr) after)
    /\ (r = backup_outcome pr \/ exists e, r = Raised e /\ broke e evs)
    /\ ((forall e, ~ broke e evs) -> r = backup_outcome pr).
Proof.
  intros w server_id config t r evs before after cmd pr Heq Hevs.
  destruct (backup_server_run w server_id config t) as (r0 & evs0 & Heq0 & Hrun).
  rewrite Heq in Heq0. injection Heq0 as <- <-.
  assert (Hr : r = backup_outcome pr \/ exists e, r = Raised e /\ broke e evs).
  { assert (Hin : In (Popen cmd pr) evs).
    { rewrite Hevs. apply in_or_app. right. left. reflexivity. }
    destruct (@backup_run_popen w server_id config t r evs Hrun cmd pr Hin)
      as [_ [H|(e & H)]]; [left; exact H|].
    right. exists e. split; [exact H|].
    exact (@backup_run_raised w server_id config t r evs Hrun e H). }
  destruct (backup_run_split Hrun) as [Hnone|(b0 & c0 & p0 & a0 & Hsplit & Hb0 & Ha0)].
  - exfalso. assert (Hin : In (Popen cmd pr) evs).
    { rewrite Hevs. apply in_or_app. right. left. reflexivity. }
    exact (Hnone _ Hin).
  - rewrite Forall_forall in Hb0, Ha0.
    assert (Hsame : before = b0 /\ Popen cmd pr = Popen c0 p0 /\ after = a0).
    { apply (split_unique is_popen b0 a0 before after).
      - rewrite <- Hsplit. exact Hevs.
      - exact I.
      - exact I.
      - intros e He Hp. apply Hb0 in He. destruct e; simpl in *; tauto.
      - intros e He Hp. apply Ha0 in He. destruct e; simpl in *; tauto. }
    destruct Hsame as (-> & _ & ->).
    split; [|split; [|split; [|split; [exact Hr|]]]].
    + intros e [He|He] Hp; [apply Hb0 in He | apply Ha0 in He];
        destruct e; simpl in *; tauto.
    + intros name rr Hin. apply Hb0 in Hin. destruct Hin as [n Hn].
      symmetry in Hn. exact (stop_is_not_start Hn).
    + intros name rr Hin. apply Ha0 in Hin. destruct Hin as [n Hn].
      exact (stop_is_not_start Hn).
    + intros Hno. destruct Hr as [H|(e & _ & Hb)]; [exact H|].
      exfalso. exact (Hno e Hb).
Qed.

(** backup_server asks docker nothing unless shutdown is set, and runs a
    docker command or looks the container up only after its query showed
    the container running. *)
Theorem backup_leaves_container_alone :
  forall (w : World) (server_id : string) (config : Settings) (t : trace)
         (r : outcome bool) (evs : list event),
    backup_server w server_id config t = (r, evs) ->
    (forall cmd q, In (CheckOutput cmd q) evs -> get_shutdown config = true)
    /\ (forall cmd rr,
           In (Run cmd rr) evs ->
           get_shutdown config = true /\ observed_running server_id evs)
    /\ (forall q,
           In (CheckOutput (lookup_cmd server_id) q) evs ->
           observed_running server_id evs).
Proof.
  intros w server_id config t r evs Heq.
  destruct (backup_server_run w server_id config t) as (r0 & evs0 & Heq0 & Hrun).
  rewrite Heq in Heq0. injection Heq0 as <- <-.
  assert (Hseen : forall path q rest,
             shows_running q = true ->
             observed_running server_id (queried w server_id path q ++ rest)).
  { intros path q rest Hq. exists q. split; [|assumption].
    apply in_or_app. left. right. right. left. reflexivity. }
  assert (Hquery : forall path q cmd rr, ~ In (Run cmd rr) (queried w server_id path q)).
  { intros path q cmd rr Hin. in_cases Hin; discriminate Hin. }
  assert (Hlook : forall path q q0,
             ~ In (CheckOutput (lookup_cmd server_id) q0) (queried w server_id path q)).
  { intros path q q0 Hin. in_cases Hin; discriminate Hin. }
  destruct Hrun as [ms Hlen | path pr logs Hsd Hlogs | path q x Hsd Hqr
                   | path q pr logs Hsd Hqr Hc Hlogs
                   | path q ro es Hsd Hqr Hstop Hro
                   | path q es pr logs started es' Hsd Hqr Hstop Hlogs Hstart].
  - repeat split; intros; match goal with H : In _ _ |- _ => in_cases H; discriminate H end.
  - repeat split; intros;
      match goal with H : In _ _ |- _ => in_cases H; try discriminate H;
                                         exact (False_ind _ (in_logs_absurd _ Hlogs H)) end.
  - split; [intros; assumption|]. split.
    + intros cmd rr Hin. exfalso. exact (Hquery _ _ _ _ Hin).
    + intros q0 Hin. exfalso. exact (Hlook _ _ _ Hin).
  - split; [intros; assumption|]. split.
    + intros cmd rr Hin. exfalso.
      apply in_app_or in Hin as [Hin|Hin]; [exact (Hquery _ _ _ _ Hin)|].
      destruct Hin as [Hin|Hin]; [discriminate Hin|].
      exact (in_logs_absurd _ Hlogs Hin).
    + intros q0 Hin. exfalso.
      apply in_app_or in Hin as [Hin|Hin]; [exact (Hlook _ _ _ Hin)|].
      destruct Hin as [Hin|Hin]; [discriminate Hin|].
      exact (in_logs_absurd _ Hlogs Hin).
  - split; [intros; assumption|].
    split; [intros; split; [assumption|]|intros]; apply Hseen; assumption.
  - split; [intros; assumption|].
    split; [intros; split; [assumption|]|intros]; apply Hseen; assumption.
Qed.

(** When glob does not answer with exactly one path, backup_server and
    restore_server log the error and return False: no docker command, no
    backup or restore process, no file is looked at. *)
Theorem unresolved_volume_ends_the_call :
  forall (w : World) (server_id : string) (t : trace),
    (forall config,
        let started := backup_started server_id in
        let ms := w_glob w (t ++ [started])%list (volume_pattern w server_id) in
        length ms <> 1 ->
        backup_server w server_id config t
        = (Returned false,
           [started; Glob (volume_pattern w server_id) ms;
            Log Error (resolution_error w server_id ms)]))
    /\ (forall snapshot_name,
           let started := restore_started server_id snapshot_name in
           let ms := w_glob w (t ++ [started])%list (volume_pattern w server_id) in
           length ms <> 1 ->
           restore_server w server_id snapshot_name t
           = (Returned false,
              [started; Glob (volume_pattern w server_id) ms;
               Log Error (resolution_error w server_id ms)])).
Proof.
  intros w server_id t.
  assert (Hres : forall t0,
             length (w_glob w t0 (volume_pattern w server_id)) <> 1 ->
             resolve_or_log w server_id t0
             = (Returned None,
                [Glob (volume_pattern w server_id)
                      (w_glob w t0 (volume_pattern w server_id));
                 Log Error (resolution_error w server_id
                              (w_glob w t0 (volume_pattern w server_id)))])).
  { intros t0 Hlen. rewrite resolve_or_log_run. cbv zeta.
    destruct (w_glob w t0 (volume_pattern w server_id)) as [|p [|p' l]];
      [reflexivity | exfalso; apply Hlen; reflexivity | reflexivity]. }
  split.
  - intros config started ms Hlen. etransitivity.
    { unfold backup_server.
      eapply bind_returned; [reflexivity|].
      eapply bind_returned; [exact (Hres _ Hlen) | reflexivity]. }
    reflexivity.
  - intros snapshot_name started ms Hlen. etransitivity.
    { unfold restore_server.
      eapply bind_returned; [reflexivity|].
      eapply bind_returned; [exact (Hres _ Hlen) | reflexivity]. }
    reflexivity.
Qed.

Lemma broke_unhandled (e : exn) (evs : list event) : broke e evs -> unhandled e.
Proof.
  intros (ev & _ & Hev).
  destruct ev as [| |? [r|]|? r| | | | | | |]; cbn in Hev; try contradiction;
    eapply communicated_unhandled; eassumption.
Qed.

(** An exception leaves backup_server exactly when one of the subprocess
    calls of the run raised: the exception is that of such a call, one that
    no except clause selects (output that does not decode, a process that
    cannot be launched), and a run in which a call raised never returns
    True or False. *)
Theorem backup_raises_exactly_when_a_call_raised :
  forall (w : World) (server_id : string) (config : Settings) (t : trace)
         (r : outcome bool) (evs : list event),
    backup_server w server_id config t = (r, evs) ->
    (forall e, r = Raised e -> broke e evs /\ unhandled e)
    /\ (forall e, broke e evs -> exists e', r = Raised e' /\ broke e' evs).
Proof.
  intros w server_id config t r evs Heq.
  destruct (backup_server_run w server_id config t) as (r0 & evs0 & Heq0 & Hrun).
  rewrite Heq in Heq0. injection Heq0 as <- <-. split.
  - intros e He.
    pose proof (@backup_run_raised w server_id config t r evs Hrun e He) as Hb.
    split; [exact Hb | exact (broke_unhandled Hb)].
  - intros e Hb.
    destruct (@backup_run_broke w server_id config t r evs Hrun e Hb) as (e' & He').
    exists e'. split; [exact He'|].
    exact (@backup_run_raised w server_id config t r evs Hrun e' He').
Qed.

Lemma append_same_start (p x y : string) : (p ++ x = p ++ y)%string -> x = y.
Proof.
  induction p as [|c p IH]; cbn; intros H; [assumption|].
  injection H as H. auto.
Qed.

Lemma docker_cmd_name (action n1 n2 : string) :
  docker_cmd action n1 = docker_cmd action n2 -> n1 = n2.
Proof.
  unfold docker_cmd. intros H.
  apply append_same_start in H. apply append_same_start in H.
  apply append_same_start in H. assumption.
Qed.

Lemma manage_container_command (w : World) (server_id action : string) (t : trace)
      (ro : outcome bool) (es : list event) (cmd : string) (r : option ran) :
  manage_container w server_id action t = (ro, es) ->
  In (Run cmd r) es ->
  exists name c,
    cmd = docker_cmd action name
    /\ w_check_output w t (lookup_cmd server_id) = Exited c
    /\ lookup_lines c = [name].
Proof.
  intros Hm Hin.
  destruct (manage_container_outcome w server_id action t)
    as (ro' & rest & Hrun & _ & Hcmd & _).
  rewrite Hm in Hrun. injection Hrun as _ ->.
  destruct Hin as [Hin|Hin]; [discriminate Hin|].
  destruct (Hcmd _ _ Hin) as (name & c & Hc & _ & Hlk & Hl & _). eauto.
Qed.

(** If docker's answer to the lookup does not change during the call, the
    container that backup_server starts again is the one it stopped. *)
Theorem backup_restarts_the_container_it_stopped :
  forall (w : World) (server_id : string) (config : Settings) (t : trace)
         (r : outcome bool) (evs : list event),
    backup_server w server_id config t = (r, evs) ->
    (forall t1 t2,
        w_check_output w t1 (lookup_cmd server_id)
        = w_check_output w t2 (lookup_cmd server_id)) ->
    forall stopped r1 started r2,
      In (Run (docker_cmd "stop" stopped) r1) evs ->
      In (Run (docker_cmd "start" started) r2) evs ->
      started = stopped.
Proof.
  intros w server_id config t r evs Heq Hstable stopped r1 started r2 Hin1 Hin2.
  destruct (backup_server_run w server_id config t) as (r0 & evs0 & Heq0 & Hrun).
  rewrite Heq in Heq0. injection Heq0 as <- <-.
  destruct Hrun as [ms Hlen | path pr logs Hsd Hlogs | path q x Hsd Hqr
                   | path q pr logs Hsd Hqr Hc Hlogs
                   | path q ro es Hsd Hqr Hstop Hro
                   | path q es pr logs started' es' Hsd Hqr Hstop Hlogs Hstart].
  - exfalso. in_cases Hin1; discriminate Hin1.
  - exfalso. in_cases Hin1; try discriminate Hin1.
    exact (in_logs_absurd _ Hlogs Hin1).
  - exfalso. in_cases Hin1; discriminate Hin1.
  - exfalso. in_cases Hin1; try discriminate Hin1.
    exact (in_logs_absurd _ Hlogs Hin1).
  - exfalso. pose proof (manage_container_events _ _ _ _ Hstop) as [Hes _].
    apply in_app_or in Hin2 as [Hin2|Hin2];
      [in_cases Hin2; discriminate Hin2|].
    apply in_app_or in Hin2 as [Hin2|Hin2].
    + apply (container_event_in _ Hes) in Hin2. destruct Hin2 as [n Hn].
      symmetry in Hn. exact (stop_is_not_start Hn).
    + exact (in_logs_absurd _ (unless_true_logs _ _) Hin2).
  - pose proof (manage_container_events _ _ _ _ Hstop) as [Hes _].
    pose proof (manage_container_events _ _ _ _ Hstart) as [Hes' _].
    assert (H1 : In (Run (docker_cmd "stop" stopped) r1) es).
    { apply in_app_or in Hin1 as [Hin1|Hin1];
        [in_cases Hin1; discriminate Hin1|].
      apply in_app_or in Hin1 as [Hin1|Hin1]; [assumption|].
      destruct Hin1 as [Hin1|Hin1]; [discriminate Hin1|].
      apply in_app_or in Hin1 as [Hin1|Hin1];
        [exact (False_ind _ (in_logs_absurd _ Hlogs Hin1))|].
      apply in_app_or in Hin1 as [Hin1|Hin1].
      - apply (container_event_in _ Hes') in Hin1. destruct Hin1 as [n Hn].
        exfalso. exact (stop_is_not_start Hn).
      - exact (False_ind _ (in_logs_absurd _ (unless_true_logs _ _) Hin1)). }
    assert (H2 : In (Run (docker_cmd "start" started) r2) es').
    { apply in_app_or in Hin2 as [Hin2|Hin2];
        [in_cases Hin2; discriminate Hin2|].
      apply in_app_or in Hin2 as [Hin2|Hin2].
      - apply (container_event_in _ Hes) in Hin2. destruct Hin2 as [n Hn].
        exfalso. symmetry in Hn. exact (stop_is_not_start Hn).
      - destruct Hin2 as [Hin2|Hin2]; [discriminate Hin2|].
        apply in_app_or in Hin2 as [Hin2|Hin2];
          [exact (False_ind _ (in_logs_absurd _ Hlogs Hin2))|].
        apply in_app_or in Hin2 as [Hin2|Hin2]; [assumption|].
        exact (False_ind _ (in_logs_absurd _ (unless_true_logs _ _) Hin2)). }
    destruct (@manage_container_command _ _ _ _ _ _ _ _ Hstop H1)
      as (n1 & c1 & Hc1 & Hk1 & Hl1).
    destruct (@manage_container_command _ _ _ _ _ _ _ _ Hstart H2)
      as (n2 & c2 & Hc2 & Hk2 & Hl2).
    apply docker_cmd_name in Hc1. apply docker_cmd_name in Hc2. subst n1 n2.
    rewrite (Hstable _ (t ++ queried w server_id path q)%list) in Hk2.
    rewrite Hk1 in Hk2. injection Hk2 as <-.
    rewrite Hl1 in Hl2. injection Hl2 as ->. reflexivity.
Qed.

(** *** A whole run with stop, backup and restart *)

Definition run_stopped_and_restarted : outcome bool * list event :=
  backup_server plain_host "alpha" with_shutdown [].

Definition events_before_backup : list event :=
  [ Log Info "Starting backup for alpha";
    Glob "/data/alpha*" ["/data/alpha-world"];
    CheckOutput (running_query "alpha") (printed ["alpha-world"]);
    CheckOutput (lookup_cmd "alpha") (printed ["alpha-world"]);
    Log Info "Executing command: docker stop alpha-world";
    Run "docker stop alpha-world" done ].

Definition events_after_backup : list event :=
  [ Log Info "Backup completed successfully for alpha";
    CheckOutput (lookup_cmd "alpha") (printed ["alpha-world"]);
    Log Info "Executing command: docker start alpha-world";
    Run "docker start alpha-world" done ].

Lemma backup_stops_before_and_starts_after_witness :
  (forall e, In e events_before_backup \/ In e events_after_backup -> ~ is_popen e)
  /\ (forall name rr, ~ In (Run (docker_cmd "start" name) rr) events_before_backup)
  /\ (forall name rr, ~ In (Run (docker_cmd "stop" name) rr) events_after_backup)
  /\ (fst run_stopped_and_restarted = backup_outcome (ended 0 EmptyString)
      \/ exists e, fst run_stopped_and_restarted = Raised e
                   /\ broke e (snd run_stopped_and_restarted))
  /\ ((forall e, ~ broke e (snd run_stopped_and_restarted)) ->
      fst run_stopped_and_restarted = backup_outcome (ended 0 EmptyString)).
Proof.
  exact (@backup_stops_before_and_starts_after
           plain_host "alpha" with_shutdown [] _ _
           events_before_backup events_after_backup
           (backup_line plain_host "alpha" with_shutdown "/data/alpha-world")
           (ended 0 EmptyString) (surjective_pairing _) eq_refl).
Defined.

Lemma backup_leaves_container_alone_witness :
  get_shutdown with_shutdown = true
  /\ observed_running "alpha" (snd run_stopped_and_restarted).
Proof.
  apply (proj1 (proj2 (@backup_leaves_container_alone
                         plain_host "alpha" with_shutdown [] _ _
                         (surjective_pairing _)))
               "docker stop alpha-world" done).
  vm_compute. tauto.
Defined.

Lemma unresolved_volume_ends_the_call_witness :
  backup_server plain_host "gamma" with_shutdown []
  = (Returned false,
     [ Log Info "Starting backup for gamma";
       Glob "/data/gamma*" [];
       Log Error "No directory found for server ID gamma" ])
  /\ restore_server plain_host "gamma" "snap" []
     = (Returned false,
        [ Log Info "Starting restore for gamma using snapshot snap";
          Glob "/data/gamma*" [];
          Log Error "No directory found for server ID gamma" ]).
Proof.
  split.
  - apply (proj1 (unresolved_volume_ends_the_call plain_host "gamma" [])
                 with_shutdown).
    vm_compute. discriminate.
  - apply (proj2 (unresolved_volume_ends_the_call plain_host "gamma" []) "snap").
    vm_compute. discriminate.
Defined.

Lemma backup_raises_exactly_when_a_call_raised_witness :
  broke (OSError "[Errno 12] Cannot allocate memory") (snd run_backup_raises)
  /\ unhandled (OSError "[Errno 12] Cannot allocate memory").
Proof.
  exact (proj1 (@backup_raises_exactly_when_a_call_raised
                  (scripted (alpha [] no_memory)) "alpha" with_shutdown [] _ _
                  (surjective_pairing _))
               (OSError "[Errno 12] Cannot allocate memory") eq_refl).
Defined.

Lemma backup_restarts_the_container_it_stopped_witness :
  "alpha-world" = "alpha-world".
Proof.
  apply (@backup_restarts_the_container_it_stopped
           plain_host "alpha" with_shutdown [] _ _ (surjective_pairing _)
           (fun _ _ => eq_refl) "alpha-world" done "alpha-world" done).
  - vm_compute. tauto.
  - vm_compute. tauto.
Defined.

(** ** restore_server: what it runs and when it gives up *)

Lemma wipe_events (w : World) (path : string) (items : list string) (t : trace)
      (b : bool) (fs : list event) :
  delete_contents w path items t = (Returned b, fs) ->
  Forall wipe_event fs /\ (b = false <-> deletion_failed fs).
Proof.
  intros H.
  destruct (delete_contents_returns w path items t) as (b' & fs' & H' & Hfs & Hiff).
  rewrite H in H'. injection H' as <- <-. split; assumption.
Qed.

Lemma wipe_event_in (fs : list event) (e : event) :
  Forall wipe_event fs -> In e fs -> wipe_event e.
Proof. intros H Hin. rewrite Forall_forall in H. auto. Qed.

(** The events of a run, part by part. *)
Ltac restore_events Hrun Hin :=
  destruct Hrun as [ms Hlen | path ro es Hkill Hro | path es Hkill
                   | path es items fs Hkill Hwipe
                   | path es items fs r0 logs Hkill Hwipe Hlogs];
  try (pose proof (manage_container_events _ _ _ _ Hkill) as [Hes _]);
  try (pose proof (wipe_events _ _ _ _ Hwipe) as [Hfs _]);
  unfold resolved in Hin; in_cases Hin.

(** The commands of a run: docker kill, and the restore command, whose
    outcome is then the result. *)
Lemma restore_run_commands (w : World) (server_id snapshot_name : string)
      (t : trace) (r : outcome bool) (evs : list event) :
  restore_run w server_id snapshot_name t r evs ->
  forall cmd rr,
    In (Run cmd rr) evs ->
    (exists name, cmd = docker_cmd "kill" name)
    \/ (exists path,
           cmd = restore_line w server_id snapshot_name path
           /\ r = run_verdict rr).
Proof.
  intros Hrun cmd rr Hin.
  restore_events Hrun Hin;
    try discriminate Hin;
    try (left; exact (container_event_in _ Hes Hin));
    try exact (False_ind _ (wipe_event_in _ Hfs Hin));
    try exact (False_ind _ (in_logs_absurd _ Hlogs Hin)).
  injection Hin as <- <-. right. exists path. split; reflexivity.
Qed.

Lemma restore_run_true (w : World) (server_id snapshot_name : string)
      (t : trace) (evs : list event) :
  restore_run w server_id snapshot_name t (Returned true) evs ->
  exists path c,
    In (Run (restore_line w server_id snapshot_name path) (Some (Exited c))) evs
    /\ returncode c = 0%Z.
Proof.
  intros Hrun. remember (Returned true) as r eqn:Hr.
  destruct Hrun as [ms Hlen | path ro es Hkill Hro | path es Hkill
                   | path es items fs Hkill Hwipe
                   | path es items fs r0 logs Hkill Hwipe Hlogs];
    try discriminate Hr.
  - destruct ro as [[|]|x]; [exfalso; apply Hro; reflexivity | discriminate Hr..].
  - apply run_verdict_true in Hr.
    destruct r0 as [[c|z m|m]|]; try discriminate Hr. cbn in Hr.
    exists path, c. split; [|apply Z.eqb_eq; assumption].
    apply in_or_app. right. apply in_or_app. right. right.
    apply in_or_app. right. right. left. reflexivity.
Qed.

(** restore_server returns True exactly when the restore command was run
    to its end, with output that decoded and status zero. *)
Theorem restore_true_iff_exit_status_zero :
  forall (w : World) (server_id snapshot_name : string) (t : trace),
    result (restore_server w server_id snapshot_name) t = Returned true
    <->
    exists path c,
      In (Run (restore_line w server_id snapshot_name path) (Some (Exited c)))
         (emitted (restore_server w server_id snapshot_name) t)
      /\ returncode c = 0%Z.
Proof.
  intros w server_id snapshot_name t. unfold result, emitted.
  destruct (restore_server_run w server_id snapshot_name t)
    as (r & evs & Heq & Hrun).
  rewrite Heq. cbn [fst snd]. split.
  - intros ->. exact (restore_run_true Hrun).
  - intros (path & c & Hin & Hc).
    destruct (restore_run_commands Hrun _ _ Hin) as [(name & Hn)|(p & _ & ->)].
    + exfalso. exact (restore_is_not_kill Hn).
    + cbn. apply Z.eqb_eq in Hc. rewrite Hc. reflexivity.
Qed.

(** restore_server never starts or stops the container and never runs a
    backup process: the only commands it runs are docker kill and the
    restore command, and the only thing it asks docker is the lookup. *)
Theorem restore_only_kills_and_restores :
  forall (w : World) (server_id snapshot_name : string) (t : trace),
    let evs := emitted (restore_server w server_id snapshot_name) t in
    Forall (fun e =>
              match e with
              | Run cmd _ =>
                  (exists name, cmd = docker_cmd "kill" name)
                  \/ (exists path, cmd = restore_line w server_id snapshot_name path)
              | CheckOutput cmd _ => cmd = lookup_cmd server_id
              | Popen _ _ => False
              | _ => True
              end) evs
    /\ (forall name rr,
           ~ In (Run (docker_cmd "start" name) rr) evs
           /\ ~ In (Run (docker_cmd "stop" name) rr) evs).
Proof.
  intros w server_id snapshot_name t evs. unfold evs, emitted.
  destruct (restore_server_run w server_id snapshot_name t)
    as (r & es0 & Heq & Hrun).
  rewrite Heq. cbn [snd].
  assert (Hkill_neq : forall a name n,
             docker_cmd a name = docker_cmd "kill" n -> a <> "start" /\ a <> "stop").
  { intros a name n H. split; intros ->; unfold docker_cmd in H; cbn in H;
      discriminate H. }
  split.
  - apply Forall_forall. intros e Hin.
    destruct e as [pat ms|cmd q|cmd rr|cmd rr|p l|p f|p d|p err|p err|line|lvl msg];
      try exact I.
    + (* CheckOutput *)
      restore_events Hrun Hin;
        try discriminate Hin;
        try exact (container_event_in _ Hes Hin);
        try exact (False_ind _ (wipe_event_in _ Hfs Hin));
        try exact (False_ind _ (in_logs_absurd _ Hlogs Hin)).
    + (* Run *)
      destruct (restore_run_commands Hrun _ _ Hin) as [H|(p & H & _)]; eauto.
    + (* Popen *)
      restore_events Hrun Hin;
        try discriminate Hin;
        try exact (container_event_in _ Hes Hin);
        try exact (wipe_event_in _ Hfs Hin);
        try exact (in_logs_absurd _ Hlogs Hin).
  - intros name rr. split; intros Hin;
      destruct (restore_run_commands Hrun _ _ Hin) as [(n & Hn)|(p & Hp & _)];
      try (destruct (Hkill_neq _ _ _ Hn) as [H1 H2]; congruence);
      symmetry in Hp; unfold restore_line, docker_cmd in Hp; cbn in Hp;
      discriminate Hp.
Qed.

(** Without a docker kill that succeeded, restore_server ends in failure
    -- it returns False, or the exception of the docker call that broke
    leaves it --, looks at no file and does not run the restore command. *)
Theorem restore_gives_up_without_kill :
  forall (w : World) (server_id snapshot_name : string) (t : trace)
         (r : outcome bool) (evs : list event),
    restore_server w server_id snapshot_name t = (r, evs) ->
    ~ docker_succeeded "kill" evs ->
    (r = Returned false \/ exists e, r = Raised e /\ broke e evs)
    /\ ((forall e, ~ broke e evs) -> r = Returned false)
    /\ (forall e, In e evs -> ~ file_event e)
    /\ (forall path rr,
           ~ In (Run (restore_line w server_id snapshot_name path) rr) evs).
Proof.
  intros w server_id snapshot_name t r evs Heq Hnokill.
  destruct (restore_server_run w server_id snapshot_name t)
    as (r0 & evs0 & Heq0 & Hrun).
  rewrite Heq in Heq0. injection Heq0 as <- <-.
  assert (Hkilled : forall path es rest,
             manage_container w server_id "kill"
               (t ++ resolved w server_id snapshot_name path)%list
             = (Returned true, es) ->
             docker_succeeded "kill"
               (resolved w server_id snapshot_name path ++ es ++ rest)).
  { intros path es rest Hkill.
    apply manage_container_events in Hkill as (_ & Hok & _).
    destruct (proj1 Hok eq_refl) as (name & c & Hin & Hc).
    exists name, c. split; [|assumption].
    apply in_or_app. right. apply in_or_app. left. assumption. }
  assert (Hfirst : forall r' evs',
             (r' = Returned false \/ exists e, r' = Raised e /\ broke e evs') ->
             (forall e, ~ broke e evs') -> r' = Returned false).
  { intros r' evs' [H|(e & _ & Hb)] Hno; [exact H|]. exfalso. exact (Hno e Hb). }
  destruct Hrun as [ms Hlen | path ro es Hkill Hro | path es Hkill
                   | path es items fs Hkill Hwipe
                   | path es items fs r0 logs Hkill Hwipe Hlogs];
    try (exfalso; apply Hnokill; apply Hkilled; assumption).
  - split; [left; reflexivity|]. split; [reflexivity|]. split.
    + intros e Hin Hf. in_cases Hin; subst e; exact Hf.
    + intros path rr Hin. in_cases Hin; discriminate Hin.
  - pose proof (manage_container_events _ _ _ _ Hkill) as (Hes & _ & Hr).
    assert (Hres : given_up ro = Returned false
                   \/ exists e, given_up ro = Raised e
                                /\ broke e (resolved w server_id snapshot_name path
                                              ++ es ++ unless_true ro (kill_failed server_id))).
    { destruct ro as [[|]|x]; [exfalso; apply Hro; reflexivity | left; reflexivity|].
      right. exists x. split; [reflexivity|].
      apply broke_app. right. apply broke_app. left. apply Hr. reflexivity. }
    split; [exact Hres|]. split; [exact (Hfirst _ _ Hres)|]. split.
    + intros e Hin Hf. unfold resolved in Hin.
      apply in_app_or in Hin as [Hin|Hin];
        [in_cases Hin; subst e; exact Hf|].
      apply in_app_or in Hin as [Hin|Hin].
      * apply (container_event_in _ Hes) in Hin. destruct e; simpl in *; tauto.
      * apply (in_logs_absurd _ (unless_true_logs _ _)) in Hin.
        destruct e; simpl in *; tauto.
    + intros p rr Hin. unfold resolved in Hin.
      apply in_app_or in Hin as [Hin|Hin];
        [in_cases Hin; discriminate Hin|].
      apply in_app_or in Hin as [Hin|Hin].
      * apply (container_event_in _ Hes) in Hin. destruct Hin as [n Hn].
        exact (restore_is_not_kill Hn).
      * exact (in_logs_absurd _ (unless_true_logs _ _) Hin).
Qed.

(** An exception leaves restore_server either from os.listdir -- the
    container has been killed by then, nothing was deleted and the restore
    command was not run -- or from a subprocess call of the run (the
    lookup, docker kill, the restore command) that raised what no except
    clause selects. *)
Theorem restore_raises_from_listdir_or_a_call :
  forall (w : World) (server_id snapshot_name : string) (t : trace)
         (e : exn) (evs : list event),
    restore_server w server_id snapshot_name t = (Raised e, evs) ->
    (e = OSError "listdir"
     /\ docker_succeeded "kill" evs
     /\ (exists path, In (Listdir path None) evs)
     /\ (forall path err,
            ~ In (Unlink path err) evs /\ ~ In (Rmtree path err) evs)
     /\ (forall path rr,
            ~ In (Run (restore_line w server_id snapshot_name path) rr) evs))
    \/ (broke e evs /\ unhandled e).
Proof.
  intros w server_id snapshot_name t e evs Heq.
  destruct (restore_server_run w server_id snapshot_name t)
    as (r0 & evs0 & Heq0 & Hrun).
  rewrite Heq in Heq0. injection Heq0 as <- <-.
  remember (Raised e) as r eqn:Hr.
  destruct Hrun as [ms Hlen | path ro es Hkill Hro | path es Hkill
                   | path es items fs Hkill Hwipe
                   | path es items fs r0 logs Hkill Hwipe Hlogs];
    try discriminate Hr.
  - right. pose proof (manage_container_events _ _ _ _ Hkill) as (_ & _ & Hb).
    destruct ro as [[|]|x]; try discriminate Hr. injection Hr as <-.
    assert (Hbroke : broke x (resolved w server_id snapshot_name path ++ es
                                ++ unless_true (Raised x) (kill_failed server_id))).
    { apply broke_app. right. apply broke_app. left. apply Hb. reflexivity. }
    split; [exact Hbroke | exact (broke_unhandled Hbroke)].
  - left. injection Hr as <-.
    pose proof (manage_container_events _ _ _ _ Hkill) as (Hes & Hok & _).
    split; [reflexivity|]. split; [|split; [|split]].
    + destruct (proj1 Hok eq_refl) as (name & c & Hin & Hc).
      exists name, c. split; [|assumption].
      apply in_or_app. right. apply in_or_app. left. assumption.
    + exists path. apply in_or_app. right. apply in_or_app. right. left. reflexivity.
    + intros p err. split; intros Hin; unfold resolved in Hin;
        in_cases Hin; try discriminate Hin;
        exact (container_event_in _ Hes Hin).
    + intros p rr Hin. unfold resolved in Hin. in_cases Hin; try discriminate Hin.
      apply (container_event_in _ Hes) in Hin. destruct Hin as [n Hn].
      exact (restore_is_not_kill Hn).
  - right. apply run_verdict_raised in Hr as (r' & -> & Hc).
    assert (Hbroke : broke e (resolved w server_id snapshot_name path ++ es
                                ++ Listdir path (Some items) :: fs
                                ++ Log Info ("Executing command: "
                                             ++ restore_line w server_id snapshot_name path)
                                :: Run (restore_line w server_id snapshot_name path)
                                       (Some r') :: logs)).
    { exists (Run (restore_line w server_id snapshot_name path) (Some r')).
      split; [|exact Hc].
      apply in_or_app. right. apply in_or_app. right. right.
      apply in_or_app. right. right. left. reflexivity. }
    split; [exact Hbroke | exact (broke_unhandled Hbroke)].
Qed.

(** ** The loop that empties the volume directory *)

Definition delete_failed_log (path err : string) : event :=
  Log Error ("Failed to delete " ++ path ++ ": " ++ err).

(** The five ways one turn of the loop goes. *)
Lemma delete_item_cases (w : World) (container_path item : string) (t : trace) :
  let p := Py.path_join container_path item in
  delete_item w container_path item t = (Returned true, [Isfile p true; Unlink p None])
  \/ (exists err,
         delete_item w container_path item t
         = (Returned false,
            [Isfile p true; Unlink p (Some err); delete_failed_log p err]))
  \/ delete_item w container_path item t
     = (Returned true, [Isfile p false; Isdir p true; Rmtree p None])
  \/ (exists err,
         delete_item w container_path item t
         = (Returned false,
            [Isfile p false; Isdir p true; Rmtree p (Some err);
             delete_failed_log p err]))
  \/ delete_item w container_path item t
     = (Returned true, [Isfile p false; Isdir p false]).
Proof.
  intros p. unfold delete_item, delete_failed_log. fold p. unfold_monad.
  destruct (w_isfile w t p) eqn:Ef; cbn.
  - destruct (w_unlink w _ p) as [err|] eqn:Eu; cbn.
    + right. left. exists err. reflexivity.
    + left. reflexivity.
  - destruct (w_isdir w _ p) eqn:Ed; cbn.
    + destruct (w_rmtree w _ p) as [err|] eqn:Er; cbn.
      * right. right. right. left. exists err. reflexivity.
      * right. right. left. reflexivity.
    + right. right. right. right. reflexivity.
Qed.

(** The first deletion that raises ends the loop: the error is logged and
    nothing is looked at or deleted after it; no deletion failed before. *)
Theorem wipe_stops_at_first_failure :
  forall (w : World) (container_path : string) (items : list string) (t : trace)
         (fs : list event),
    delete_contents w container_path items t = (Returned false, fs) ->
    exists done_before item err,
      In item items
      /\ (let p := Py.path_join container_path item in
          fs = (done_before ++ [Unlink p (Some err); delete_failed_log p err])%list
          \/ fs = (done_before ++ [Rmtree p (Some err); delete_failed_log p err])%list)
      /\ ~ deletion_failed done_before.
Proof.
  intros w container_path items. induction items as [|item rest IH]; intros t fs H.
  - discriminate H.
  - cbn [delete_contents] in H. unfold bind at 1 in H.
    assert (Hnf : forall l : list event,
               (forall e, In e l -> forall p err, e <> Unlink p (Some err)
                                                  /\ e <> Rmtree p (Some err)) ->
               ~ deletion_failed l).
    { intros l Hl (p & err & [Hin|Hin]); destruct (Hl _ Hin p err) as [H1 H2];
        [apply H1 | apply H2]; reflexivity. }
    assert (Hgo : forall e1,
               delete_item w container_path item t = (Returned true, e1) ->
               ~ deletion_failed e1 ->
               exists done_before item0 err,
                 In item0 (item :: rest)
                 /\ (let p := Py.path_join container_path item0 in
                     fs = (done_before ++ [Unlink p (Some err); delete_failed_log p err])%list
                     \/ fs = (done_before ++ [Rmtree p (Some err); delete_failed_log p err])%list)
                 /\ ~ deletion_failed done_before).
    { intros e1 He1 Hclean. rewrite He1 in H.
      destruct (delete_contents w container_path rest (t ++ e1)%list)
        as [rr e2] eqn:Hrest.
      destruct rr as [b|x]; [|discriminate H].
      injection H as -> <-.
      destruct (IH _ _ Hrest) as (pre & item0 & err & Hin & Hshape & Hpre).
      exists (e1 ++ pre)%list, item0, err. split; [right; assumption|]. split.
      - cbv zeta in *. destruct Hshape as [->| ->]; [left | right];
          rewrite app_assoc; reflexivity.
      - rewrite deletion_failed_app. tauto. }
    assert (Hstop : forall pre x err,
               delete_item w container_path item t
               = (Returned false,
                  (pre ++ [x; delete_failed_log (Py.path_join container_path item) err])%list) ->
               fs = (pre ++ [x; delete_failed_log (Py.path_join container_path item) err])%list).
    { intros pre x err He1. rewrite He1 in H. injection H as <-.
      rewrite app_nil_r. reflexivity. }
    destruct (delete_item_cases w container_path item t)
      as [Hc|[(err & Hc)|[Hc|[(err & Hc)|Hc]]]]; cbv zeta in Hc.
    + apply (Hgo _ Hc). apply Hnf. intros e Hin p err.
      in_cases Hin; subst e; split; discriminate.
    + exists [Isfile (Py.path_join container_path item) true], item, err.
      split; [left; reflexivity|]. split.
      * left. apply (Hstop [Isfile (Py.path_join container_path item) true]).
        exact Hc.
      * apply Hnf. intros e Hin p err'. in_cases Hin; subst e; split; discriminate.
    + apply (Hgo _ Hc). apply Hnf. intros e Hin p err.
      in_cases Hin; subst e; split; discriminate.
    + exists [Isfile (Py.path_join container_path item) false;
              Isdir (Py.path_join container_path item) true], item, err.
      split; [left; reflexivity|]. split.
      * right. apply (Hstop [Isfile (Py.path_join container_path item) false;
                             Isdir (Py.path_join container_path item) true]).
        exact Hc.
      * apply Hnf. intros e Hin p err'. in_cases Hin; subst e; split; discriminate.
    + apply (Hgo _ Hc). apply Hnf. intros e Hin p err.
      in_cases Hin; subst e; split; discriminate.
Qed.

(** The loop deletes nothing but entries of the listing, each under the
    volume path; when it ends without failure, every entry of the listing
    was unlinked, or removed as a tree, or was reported to be neither a
    file nor a directory and left as it is. *)
Theorem wipe_handles_every_listed_entry :
  forall (w : World) (container_path : string) (items : list string) (t : trace)
         (wiped : bool) (fs : list event),
    delete_contents w container_path items t = (Returned wiped, fs) ->
    (forall path err,
        In (Unlink path err) fs \/ In (Rmtree path err) fs ->
        exists item, In item items /\ path = Py.path_join container_path item)
    /\ (wiped = true ->
        forall item,
          In item items ->
          let p := Py.path_join container_path item in
          In (Unlink p None) fs
          \/ In (Rmtree p None) fs
          \/ (In (Isfile p false) fs /\ In (Isdir p false) fs)).
Proof.
  intros w container_path items. induction items as [|item rest IH];
    intros t wiped fs H.
  - injection H as <- <-. split.
    + intros path err [[]|[]].
    + intros _ item [].
  - cbn [delete_contents] in H. unfold bind at 1 in H.
    set (p := Py.path_join container_path item) in *.
    assert (Hown : forall e1,
               (forall path err, In (Unlink path err) e1 \/ In (Rmtree path err) e1 ->
                                 path = p) ->
               forall b, delete_item w container_path item t = (Returned b, e1) ->
               (In (Unlink p None) e1 \/ In (Rmtree p None) e1
                \/ (In (Isfile p false) e1 /\ In (Isdir p false) e1) \/ b = false) ->
               (forall path err,
                   In (Unlink path err) fs \/ In (Rmtree path err) fs ->
                   exists item0, In item0 (item :: rest)
                                 /\ path = Py.path_join container_path item0)
               /\ (wiped = true ->
                   forall item0,
                     In item0 (item :: rest) ->
                     let p0 := Py.path_join container_path item0 in
                     In (Unlink p0 None) fs
                     \/ In (Rmtree p0 None) fs
                     \/ (In (Isfile p0 false) fs /\ In (Isdir p0 false) fs))).
    { intros e1 Hpaths b He1 Hdone. rewrite He1 in H. destruct b.
      - destruct (delete_contents w container_path rest (t ++ e1)%list)
          as [rr e2] eqn:Hrest.
        destruct rr as [b2|x]; [|discriminate H].
        injection H as <- <-.
        destruct (IH _ _ _ Hrest) as [IH1 IH2]. split.
        + intros path err Hin. rewrite !in_app_iff in Hin.
          destruct Hin as [[Hin|Hin]|[Hin|Hin]].
          * exists item. split; [left; reflexivity|]. apply (Hpaths path err). tauto.
          * destruct (IH1 path err (or_introl Hin)) as (i & Hi & Hp). eauto using in_cons.
          * exists item. split; [left; reflexivity|]. apply (Hpaths path err). tauto.
          * destruct (IH1 path err (or_intror Hin)) as (i & Hi & Hp). eauto using in_cons.
        + intros Hw item0 [<-|Hin0]; cbv zeta; rewrite !in_app_iff.
          * fold p. destruct Hdone as [Hd|[Hd|[[Hd1 Hd2]|Hd]]];
              [tauto | tauto | tauto | discriminate Hd].
          * specialize (IH2 Hw item0 Hin0). cbv zeta in IH2. tauto.
      - injection H as <- <-. rewrite app_nil_r. split.
        + intros path err Hin. exists item. split; [left; reflexivity|].
          apply (Hpaths path err). assumption.
        + intros Hw. discriminate Hw. }
    destruct (delete_item_cases w container_path item t)
      as [Hc|[(err & Hc)|[Hc|[(err & Hc)|Hc]]]]; cbv zeta in Hc; fold p in Hc;
      eapply Hown; try exact Hc;
      try (intros path err0 [Hin|Hin]; in_cases Hin; try discriminate Hin;
           injection Hin as <- _; reflexivity).
    + left. right. left. reflexivity.
    + right. right. right. reflexivity.
    + right. left. right. right. left. reflexivity.
    + right. right. right. reflexivity.
    + right. right. left. split; [left; reflexivity | right; left; reflexivity].
Qed.

(** *** Concrete runs of restore_server *)

(** b.txt cannot be removed. *)
Definition permission_denied : Script :=
  {| s_dirs := ["alpha-world"];
     s_containers := ["alpha-world"]; s_running := [];
     s_run := fun _ => done; s_backup := ended 0 EmptyString;
     s_entries := Some ["a.txt"; "b.txt"; "c.txt"];
     s_isfile := fun _ => true; s_isdir := fun _ => false;
     s_unlink := fun path =>
       if String.eqb path "/data/alpha-world/b.txt"
       then Some "[Errno 13] Permission denied" else None;
     s_rmtree := fun _ => None; s_cron := fun _ => None |}.

(** The volume directory cannot be listed. *)
Definition unlistable : Script :=
  {| s_dirs := ["alpha-world"];
     s_containers := ["alpha-world"]; s_running := [];
     s_run := fun _ => done; s_backup := ended 0 EmptyString;
     s_entries := None;
     s_isfile := fun _ => false; s_isdir := fun _ => false;
     s_unlink := fun _ => None; s_rmtree := fun _ => None;
     s_cron := fun _ => None |}.

Definition restore_denied : outcome bool * list event :=
  restore_server (scripted permission_denied) "alpha" "snap" [].

Definition kill_refused : World :=
  scripted (alpha ["docker kill alpha-world"] (ended 0 EmptyString)).

Definition restore_unkilled : outcome bool * list event :=
  restore_server kill_refused "alpha" "snap" [].

Definition restore_unlisted : outcome bool * list event :=
  restore_server (scripted unlistable) "alpha" "snap" [].

Definition restore_done : outcome bool * list event :=
  restore_server plain_host "alpha" "snap" [].

Lemma restore_kills_before_files_witness :
  exists before after,
    snd restore_denied = (before ++ after)%list
    /\ (forall e, In e before -> ~ file_event e)
    /\ docker_succeeded "kill" before.
Proof.
  apply (@restore_kills_before_files (scripted permission_denied) "alpha" "snap" []
           _ _ (surjective_pairing _)).
  exists (Unlink "/data/alpha-world/a.txt" None). split; [vm_compute; tauto | exact I].
Defined.

Lemma restore_stops_at_failed_deletion_witness :
  fst restore_denied = Returned false
  /\ forall path rr,
       ~ In (Run (restore_line (scripted permission_denied) "alpha" "snap" path) rr)
            (snd restore_denied).
Proof.
  apply (@restore_stops_at_failed_deletion (scripted permission_denied) "alpha" "snap" []
           _ _ (surjective_pairing _)).
  exists "/data/alpha-world/b.txt", "[Errno 13] Permission denied".
  left. vm_compute. tauto.
Defined.

Lemma restore_unkilled_no_kill : ~ docker_succeeded "kill" (snd restore_unkilled).
Proof.
  intros (name & c & Hin & Hc). vm_compute in Hin.
  repeat (destruct Hin as [Hin|Hin]; try discriminate Hin).
  - injection Hin as _ Hin. subst c. discriminate Hc.
  - contradiction.
Qed.

Lemma restore_gives_up_without_kill_witness :
  (fst restore_unkilled = Returned false
   \/ exists e, fst restore_unkilled = Raised e /\ broke e (snd restore_unkilled))
  /\ ((forall e, ~ broke e (snd restore_unkilled)) ->
      fst restore_unkilled = Returned false)
  /\ (forall e, In e (snd restore_unkilled) -> ~ file_event e)
  /\ (forall path rr,
         ~ In (Run (restore_line kill_refused "alpha" "snap" path) rr)
              (snd restore_unkilled)).
Proof.
  exact (@restore_gives_up_without_kill kill_refused "alpha" "snap" []
           _ _ (surjective_pairing _) restore_unkilled_no_kill).
Defined.

Lemma restore_raises_from_listdir_or_a_call_witness :
  (OSError "listdir" = OSError "listdir"
   /\ docker_succeeded "kill" (snd restore_unlisted)
   /\ (exists path, In (Listdir path None) (snd restore_unlisted))
   /\ (forall path err,
          ~ In (Unlink path err) (snd restore_unlisted)
          /\ ~ In (Rmtree path err) (snd restore_unlisted))
   /\ (forall path rr,
          ~ In (Run (restore_line (scripted unlistable) "alpha" "snap" path) rr)
               (snd restore_unlisted)))
  \/ (broke (OSError "listdir") (snd restore_unlisted)
      /\ unhandled (OSError "listdir")).
Proof.
  exact (@restore_raises_from_listdir_or_a_call (scripted unlistable) "alpha" "snap" []
           (OSError "listdir") (snd restore_unlisted) eq_refl).
Defined.

(** The restore command exits with 0 and writes what does not decode. *)
Example restore_with_undecodable_output :
  result
    (restore_server
       (scripted
          {| s_dirs := ["alpha-world"];
             s_containers := ["alpha-world"]; s_running := [];
             s_run := fun cmd =>
               if String.prefix "docker" cmd then done
               else Some (Undecodable 0 "'utf-8' codec can't decode byte 0xe9");
             s_backup := ended 0 EmptyString;
             s_entries := Some [];
             s_isfile := fun _ => false; s_isdir := fun _ => false;
             s_unlink := fun _ => None; s_rmtree := fun _ => None;
             s_cron := fun _ => None |})
       "alpha" "snap") []
  = Raised (UnicodeDecodeError "'utf-8' codec can't decode byte 0xe9").
Proof. vm_compute. reflexivity. Qed.

Lemma restore_only_kills_and_restores_witness :
  Forall (fun e =>
            match e with
            | Run cmd _ =>
                (exists name, cmd = docker_cmd "kill" name)
                \/ (exists path, cmd = restore_line plain_host "alpha" "snap" path)
            | CheckOutput cmd _ => cmd = lookup_cmd "alpha"
            | Popen _ _ => False
            | _ => True
            end) (snd restore_done)
  /\ (forall name rr,
         ~ In (Run (docker_cmd "start" name) rr) (snd restore_done)
         /\ ~ In (Run (docker_cmd "stop" name) rr) (snd restore_done)).
Proof.
  exact (restore_only_kills_and_restores plain_host "alpha" "snap" []).
Defined.

Lemma wipe_stops_at_first_failure_witness :
  exists done_before item err,
    In item ["a.txt"; "b.txt"; "c.txt"]
    /\ (let p := Py.path_join "/data/alpha-world" item in
        snd (delete_contents (scripted permission_denied) "/data/alpha-world"
                             ["a.txt"; "b.txt"; "c.txt"] [])
        = (done_before ++ [Unlink p (Some err); delete_failed_log p err])%list
        \/ snd (delete_contents (scripted permission_denied) "/data/alpha-world"
                                ["a.txt"; "b.txt"; "c.txt"] [])
           = (done_before ++ [Rmtree p (Some err); delete_failed_log p err])%list)
    /\ ~ deletion_failed done_before.
Proof.
  exact (@wipe_stops_at_first_failure (scripted permission_denied) "/data/alpha-world"
           ["a.txt"; "b.txt"; "c.txt"] [] _ eq_refl).
Defined.

Lemma wipe_handles_every_listed_entry_witness :
  In (Unlink "/data/alpha-world/server.jar" None)
     (snd (delete_contents (scripted dangling_link) "/data/alpha-world"
                           ["server.jar"; "latest.log"; "world"] []))
  \/ In (Rmtree "/data/alpha-world/server.jar" None)
        (snd (delete_contents (scripted dangling_link) "/data/alpha-world"
                              ["server.jar"; "latest.log"; "world"] []))
  \/ (In (Isfile "/data/alpha-world/server.jar" false)
         (snd (delete_contents (scripted dangling_link) "/data/alpha-world"
                               ["server.jar"; "latest.log"; "world"] []))
      /\ In (Isdir "/data/alpha-world/server.jar" false)
            (snd (delete_contents (scripted dangling_link) "/data/alpha-world"
                                  ["server.jar"; "latest.log"; "world"] []))).
Proof.
  apply (proj2 (@wipe_handles_every_listed_entry (scripted dangling_link)
                  "/data/alpha-world" ["server.jar"; "latest.log"; "world"] []
                  true _ eq_refl)
               eq_refl "server.jar").
  left. reflexivity.
Defined.

(** ** schedule_jobs: what is registered and what is logged *)

Lemma job_for_describes (w : World) (t : trace) (server_id : key)
      (settings : Settings) (j : Job) :
  In j (job_for w t server_id settings) ->
  exists schedule,
    cfg_schedule settings = Some schedule
    /\ Py.split_ws schedule
       = [ cron_minute (job_trigger j); cron_hour (job_trigger j);
           cron_day (job_trigger j); cron_month (job_trigger j);
           cron_day_of_week (job_trigger j) ]
    /\ w_cron_error w (cron_minute (job_trigger j)) (cron_hour (job_trigger j))
                    (cron_day (job_trigger j)) (cron_month (job_trigger j))
                    (cron_day_of_week (job_trigger j)) = None
    /\ id_for w t server_id = Some (job_id j)
    /\ job_args j = (server_id, settings)
    /\ job_name j = "Backup " ++ str_of_key server_id
    /\ job_misfire_grace_time j = 3600%Z.
Proof.
  unfold job_for.
  destruct (cfg_schedule settings) as [schedule|]; [|contradiction].
  destruct (Py.split_ws schedule) as [|a [|b [|c [|d [|e [|f l]]]]]] eqn:Es;
    try contradiction.
  destruct (w_cron_error w a b c d e) eqn:Ec; [contradiction|].
  destruct (id_for w t server_id) as [id|] eqn:Ei; [|contradiction].
  intros [<-|[]]. exists schedule. cbn. repeat split; assumption.
Qed.

Lemma job_for_short (w : World) (t : trace) (server_id : key) (settings : Settings) :
  length (job_for w t server_id settings) <= 1.
Proof.
  unfold job_for. destruct (cfg_schedule settings) as [s|]; [|cbn; lia].
  destruct (Py.split_ws s) as [|a [|b [|c [|d [|e [|f l]]]]]]; cbn; try lia.
  destruct (w_cron_error w a b c d e); cbn; [lia|].
  destruct (id_for w t server_id); cbn; lia.
Qed.

Lemma registered_short (w : World) (servers : list (key * Settings))
      (added : list Job) :
  registered w servers added -> length added <= length servers.
Proof.
  induction 1 as [|k v t rest jobs Hreg IH]; [reflexivity|].
  rewrite length_app. cbn [length].
  pose proof (job_for_short w t k v). lia.
Qed.

Lemma registered_in (w : World) (servers : list (key * Settings))
      (added : list Job) (j : Job) :
  registered w servers added ->
  In j added ->
  exists server_id settings t,
    In (server_id, settings) servers /\ In j (job_for w t server_id settings).
Proof.
  induction 1 as [|k v t rest jobs Hreg IH]; intros Hin; [contradiction|].
  apply in_app_or in Hin as [Hin|Hin].
  - exists k, v, t. split; [left; reflexivity | assumption].
  - destruct (IH Hin) as (k' & v' & t' & Hk & Hj).
    exists k', v', t'. split; [right; assumption | assumption].
Qed.

(** schedule_jobs never raises and keeps the jobs that were registered, in
    front and in order.  Every job it adds is for a server of the
    configuration: its arguments are the key and the server's settings, its
    trigger fields are the five fields of the server's schedule, which
    CronTrigger accepted, its name is "Backup <key>" and its misfire grace
    time is 3600 seconds.  Its id is the key when the key is a non-empty
    string; a key that is empty, zero or None gives an id that apscheduler
    draws, and any other key that is no string gives no job.  There are no
    more new jobs than servers. *)
Theorem scheduled_jobs_describe_their_server :
  forall (w : World) (scheduler : list Job) (servers : list (key * Settings))
         (t : trace),
  exists added logs,
    schedule_jobs w scheduler servers t = (Returned (scheduler ++ added)%list, logs)
    /\ length added <= length servers
    /\ forall j,
         In j added ->
         exists server_id settings schedule,
           In (server_id, settings) servers
           /\ job_args j = (server_id, settings)
           /\ cfg_schedule settings = Some schedule
           /\ Py.split_ws schedule
              = [ cron_minute (job_trigger j); cron_hour (job_trigger j);
                  cron_day (job_trigger j); cron_month (job_trigger j);
                  cron_day_of_week (job_trigger j) ]
           /\ w_cron_error w (cron_minute (job_trigger j)) (cron_hour (job_trigger j))
                           (cron_day (job_trigger j)) (cron_month (job_trigger j))
                           (cron_day_of_week (job_trigger j)) = None
           /\ job_name j = "Backup " ++ str_of_key server_id
           /\ job_misfire_grace_time j = 3600%Z
           /\ (key_truthy server_id = true -> server_id = KStr (job_id j))
           /\ (key_truthy server_id = false -> exists t', job_id j = w_uuid4 w t').
Proof.
  intros w scheduler servers t.
  destruct (schedule_jobs_run w servers scheduler t)
    as (added & logs & Hrun & Hreg & _).
  exists added, logs. split; [exact Hrun|].
  split; [exact (@registered_short w servers added Hreg)|].
  intros j Hin.
  destruct (@registered_in w servers added j Hreg Hin) as (k & v & t' & Hkv & Hj).
  destruct (@job_for_describes w t' k v j Hj)
    as (schedule & Hs & Hf & Hc & Hid & Hargs & Hname & Hgrace).
  exists k, v, schedule. repeat split; try assumption.
  - intros Ht. unfold id_for in Hid. rewrite Ht in Hid.
    destruct k as [s|text truth]; [|discriminate Hid].
    injection Hid as <-. reflexivity.
  - intros Ht. unfold id_for in Hid. rewrite Ht in Hid.
    injection Hid as <-. exists t'. reflexivity.
Qed.

(** schedule_jobs logs one line for every server, and nothing else: an
    Info line for each job it registers, an Error line for each server it
    passes over. *)
Theorem schedule_jobs_logs_every_server :
  forall (w : World) (servers : list (key * Settings)) (scheduler : list Job)
         (t : trace),
  exists jobs logs,
    schedule_jobs w scheduler servers t = (Returned jobs, logs)
    /\ Forall is_log logs
    /\ length logs = length servers
    /\ length (filter is_info logs) + length scheduler = length jobs.
Proof.
  intros w servers scheduler t.
  destruct (schedule_jobs_run w servers scheduler t)
    as (added & logs & Hrun & _ & Hlogs & Hlen & Hinfo).
  exists (scheduler ++ added)%list, logs.
  split; [exact Hrun|]. split; [exact Hlogs|]. split; [exact Hlen|].
  rewrite length_app, Hinfo. lia.
Qed.

(** With distinct keys, a server without a schedule and a server whose
    five fields CronTrigger rejects get no job: no job has the server as
    its argument, and none has the server's key as its id (when apscheduler
    draws an id, for a server with an empty key, it is not that key). *)
Theorem rejected_schedule_gets_no_job :
  forall (w : World) (servers : list (key * Settings)) (t : trace)
         (server_id : key) (settings : Settings),
    NoDup (map fst servers) ->
    In (server_id, settings) servers ->
    (cfg_schedule settings = None
     \/ exists schedule minute hour dom month dow e,
          cfg_schedule settings = Some schedule
          /\ Py.split_ws schedule = [minute; hour; dom; month; dow]
          /\ w_cron_error w minute hour dom month dow = Some e) ->
    exists jobs logs,
      schedule_jobs w [] servers t = (Returned jobs, logs)
      /\ (forall j, In j jobs -> fst (job_args j) <> server_id)
      /\ (forall id,
             server_id = KStr id ->
             (forall k v t', In (k, v) servers -> key_truthy k = false ->
                             w_uuid4 w t' <> id) ->
             forall j, In j jobs -> job_id j <> id).
Proof.
  intros w servers t server_id settings Hnd Hin Hbad.
  destruct (schedule_jobs_run w servers [] t) as (added & logs & Hrun & Hreg & _).
  cbn [app] in Hrun. exists added, logs. split; [exact Hrun|].
  assert (Hnone : forall j, In j added -> fst (job_args j) <> server_id).
  { intros j Hj Hargs.
    assert (Hf : In j (jobs_of server_id added)).
    { apply filter_In. split; [assumption|]. apply key_eqb_eq. assumption. }
    destruct (@jobs_of_server w servers server_id settings added Hreg Hnd Hin)
      as (t' & Ht').
    rewrite Ht' in Hf. unfold job_for in Hf.
    destruct Hbad as [Hno|(schedule & a & b & c & d & e & err & Hs & Hfields & Herr)].
    - rewrite Hno in Hf. exact Hf.
    - rewrite Hs, Hfields, Herr in Hf. exact Hf. }
  split; [exact Hnone|].
  intros id -> Hdraw j Hj Hid.
  destruct (@registered_in w servers added j Hreg Hj) as (k & v & t' & Hkv & Hjk).
  destruct (@job_for_describes w t' k v j Hjk) as (_ & _ & _ & _ & Hidfor & Hargs & _).
  unfold id_for in Hidfor. destruct (key_truthy k) eqn:Ek.
  - destruct k as [s|text truth]; [|discriminate Hidfor].
    injection Hidfor as ->. apply (Hnone j Hj). rewrite Hargs, Hid. reflexivity.
  - injection Hidfor as Hu. apply (Hdraw k v t' Hkv Ek). rewrite Hu. exact Hid.
Qed.

(** A host whose CronTrigger turns down minute 61. *)
Definition strict_cron : World :=
  scripted
    {| s_dirs := []; s_containers := []; s_running := [];
       s_run := fun _ => done; s_backup := ended 0 EmptyString; s_entries := None;
       s_isfile := fun _ => false; s_isdir := fun _ => false;
       s_unlink := fun _ => None; s_rmtree := fun _ => None;
       s_cron := fun minute =>
         if String.eqb minute "61"
         then Some "Error validating expression '61': the last value (61) is higher than the maximum value (59)"
         else None |}.

Definition unnamed_schedule : Settings :=
  {| cfg_name := Some "delta"; cfg_schedule := None;
     cfg_shutdown := None; cfg_ignore_paths := None |}.

Definition four_servers : list (key * Settings) :=
  [ (KStr "alpha", scheduled "0 3 * * *");
    (KStr "beta", scheduled "61 3 * * *");
    (KStr "gamma", scheduled "30 4 * * 1");
    (KStr "delta", unnamed_schedule) ].

Example four_servers_jobs :
  schedule_jobs strict_cron [] four_servers []
  = (Returned
       [ backup_job "alpha" (KStr "alpha") (scheduled "0 3 * * *")
                    "0" "3" "*" "*" "*";
         backup_job "gamma" (KStr "gamma") (scheduled "30 4 * * 1")
                    "30" "4" "*" "*" "1" ],
     [ Log Info "Scheduled backup for alpha with schedule: 0 3 * * *";
       Log Error "Failed to schedule backup for beta: Error validating expression '61': the last value (61) is higher than the maximum value (59)";
       Log Info "Scheduled backup for gamma with schedule: 30 4 * * 1";
       Log Error "Failed to schedule backup for delta: 'schedule'" ]).
Proof. vm_compute. reflexivity. Qed.

Lemma four_servers_distinct : NoDup (map fst four_servers).
Proof.
  cbn. repeat constructor; cbn; intros H;
    repeat (destruct H as [H|H]; try discriminate H); exact H.
Qed.

Lemma rejected_schedule_gets_no_job_witness :
  exists jobs logs,
    schedule_jobs strict_cron [] four_servers [] = (Returned jobs, logs)
    /\ (forall j, In j jobs -> fst (job_args j) <> KStr "beta")
    /\ (forall j, In j jobs -> job_id j <> "beta").
Proof.
  destruct (@rejected_schedule_gets_no_job strict_cron four_servers [] (KStr "beta")
              (scheduled "61 3 * * *") four_servers_distinct
              (or_intror (or_introl eq_refl)))
    as (jobs & logs & Hrun & Hargs & Hid).
  - right. exists "61 3 * * *", "61", "3", "*", "*", "*". eexists.
    repeat split; reflexivity.
  - exists jobs, logs. split; [exact Hrun|]. split; [exact Hargs|].
    apply (Hid "beta" eq_refl).
    intros k v t' Hin Hk. exfalso.
    repeat (destruct Hin as [Hin|Hin];
            [injection Hin as <- _; discriminate Hk|]).
    exact Hin.
Defined.

(** ** list_snapshots and the modes of main *)

(** The lines list_snapshots keeps from the output of the snapshots command. *)
Definition snapshots_in (server_id output : string) : list string :=
  map Py.strip (filter (Py.contains server_id) (Py.splitlines output)).

Definition listing_started (server_id : string) : event :=
  Log Info ("Listing snapshots for " ++ server_id).

Lemma list_snapshots_run (w : World) (server_id : string) (t : trace) :
  let line := Py.join " " (snapshots_cmd w) in
  let answer := w_popen w (t ++ [listing_started server_id])%list line in
  list_snapshots w server_id t
  = match communicated answer with
    | Raised e => (Raised e, [listing_started server_id; Popen line answer])
    | Returned c =>
        if Z.eqb (returncode c) 0
        then (Returned (snapshots_in server_id (stdout c)),
              [listing_started server_id; Popen line answer])
        else (Returned [],
              [listing_started server_id; Popen line answer;
               Log Error ("Failed to list snapshots: " ++ stderr c)])
    end.
Proof.
  intros line answer. subst answer line.
  unfold list_snapshots, snapshots_in, listing_started.
  unfold bind at 1. unfold log at 1. cbn [fst snd].
  unfold bind at 1. unfold popen_communicate at 1.
  destruct (communicated
              (w_popen w (t ++ [Log Info ("Listing snapshots for " ++ server_id)])%list
                       (Py.join " " (snapshots_cmd w)))) as [c|e]; [|reflexivity].
  destruct (Z.eqb (returncode c) 0); reflexivity.
Qed.

Lemma prefix_app (p s : string) :
  String.prefix p s = true <-> exists v, s = (p ++ v)%string.
Proof.
  revert s. induction p as [|a p IH]; intros s; cbn.
  - split; [intros _; exists s; reflexivity | intros _; destruct s; reflexivity].
  - destruct s as [|b s]; cbn.
    + split; [discriminate | intros (v & H); discriminate H].
    + destruct (ascii_dec a b) as [->|Hne].
      * rewrite IH. split; intros (v & H); exists v.
        -- rewrite H. reflexivity.
        -- injection H as H. exact H.
      * split; [discriminate|]. intros (v & H). injection H as H _. congruence.
Qed.

Lemma contains_app (sub s : string) :
  Py.contains sub s = true <-> exists u v, s = (u ++ sub ++ v)%string.
Proof.
  induction s as [|c s IH]; cbn [Py.contains].
  - rewrite orb_false_r, prefix_app. split.
    + intros (v & H). exists EmptyString, v. exact H.
    + intros (u & v & H). destruct u; cbn in H; [eauto | discriminate H].
  - rewrite orb_true_iff, prefix_app, IH. split.
    + intros [(v & H)|(u & v & H)].
      * exists EmptyString, v. exact H.
      * exists (String c u), v. cbn. rewrite H. reflexivity.
    + intros ([|d u] & v & H); cbn in H.
      * left. eauto.
      * right. injection H as _ H. eauto.
Qed.

Lemma contains_trans (a b s : string) :
  Py.contains a b = true -> Py.contains b s = true -> Py.contains a s = true.
Proof.
  rewrite !contains_app. intros (u & v & ->) (x & y & ->).
  exists (x ++ u)%string, (v ++ y)%string. rewrite !append_assoc. reflexivity.
Qed.

(** The filter of list_snapshots is a substring test: on the same output of
    the repository, every line listed for an id is also listed for any id
    that is a part of it. *)
Theorem snapshots_of_longer_ids_are_listed :
  forall (w : World) (short long : string) (t t' : trace) (c : completed),
    w_popen w (t ++ [listing_started short])%list (Py.join " " (snapshots_cmd w))
    = Exited c ->
    w_popen w (t' ++ [listing_started long])%list (Py.join " " (snapshots_cmd w))
    = Exited c ->
    returncode c = 0%Z ->
    Py.contains short long = true ->
    exists listed listed',
      result (list_snapshots w short) t = Returned listed
      /\ result (list_snapshots w long) t' = Returned listed'
      /\ incl listed' listed.
Proof.
  intros w short long t t' c Hshort Hlong Hz Hpart.
  exists (snapshots_in short (stdout c)), (snapshots_in long (stdout c)).
  unfold result. rewrite !list_snapshots_run. cbv zeta.
  rewrite Hshort, Hlong. cbn [communicated]. rewrite Hz. cbn [Z.eqb fst].
  split; [reflexivity|]. split; [reflexivity|].
  unfold snapshots_in. intros x Hin.
  apply in_map_iff in Hin as (line & <- & Hline). apply in_map.
  apply filter_In in Hline as [Hl Hc]. apply filter_In. split; [assumption|].
  exact (contains_trans _ _ _ Hpart Hc).
Qed.

Lemma print_all_run (lines : list string) :
  forall t : trace, print_all lines t = (Returned tt, map Print lines).
Proof.
  induction lines as [|l rest IH]; intros t; [reflexivity|].
  cbn [print_all map]. unfold bind at 1, print at 1. rewrite IH. reflexivity.
Qed.

(** What main makes of list_snapshots: the printed lines and exit code 0. *)
Definition after_listing (run : outcome (list string) * list event)
  : outcome finished * list event :=
  match run with
  | (Returned [], evs) =>
      (Returned (Exit 0), (evs ++ [Print "No snapshots found"])%list)
  | (Returned snapshots, evs) =>
      (Returned (Exit 0),
       (evs ++ Print (nl ++ "Available snapshots:") :: map Print snapshots)%list)
  | (Raised e, evs) => (Raised e, evs)
  end.

Lemma main_list_run (w : World) (args : Args) (servers : list (key * Settings))
      (server_id : string) (t : trace) :
  arg_list_snapshots args = true ->
  supplied (arg_server_id args) = Some server_id ->
  main w args servers t = after_listing (list_snapshots w server_id t).
Proof.
  intros Hlist Hid. unfold main. rewrite Hlist, Hid. unfold bind at 1.
  destruct (list_snapshots w server_id t) as [[[|s l]|e] evs]; cbn [after_listing].
  - reflexivity.
  - unfold bind at 1. unfold bind at 1. unfold print at 1. cbn [fst snd].
    rewrite print_all_run. unfold ret. cbn [app]. rewrite app_nil_r. reflexivity.
  - reflexivity.
Qed.

(** When the snapshots command ran to its end and its output decoded, main
    --list-snapshots exits with 0 whatever the status of the command: with
    a non-zero status list_snapshots logs the error and returns the empty
    list, as it does when no line matches, and main prints "No snapshots
    found".  When the command could not be launched or its output does not
    decode, the exception leaves main after these two events, and the
    process ends with status 1. *)
Theorem listing_failure_reads_as_no_snapshot :
  forall (w : World) (args : Args) (servers : list (key * Settings))
         (server_id : string) (t : trace),
    arg_list_snapshots args = true ->
    supplied (arg_server_id args) = Some server_id ->
    let line := Py.join " " (snapshots_cmd w) in
    let answer := w_popen w (t ++ [listing_started server_id])%list line in
    (forall c,
        answer = Exited c ->
        result (main w args servers) t = Returned (Exit 0)
        /\ (returncode c <> 0%Z ->
            list_snapshots w server_id t
            = (Returned [],
               [ listing_started server_id; Popen line answer;
                 Log Error ("Failed to list snapshots: " ++ stderr c) ])
            /\ emitted (main w args servers) t
               = [ listing_started server_id; Popen line answer;
                   Log Error ("Failed to list snapshots: " ++ stderr c);
                   Print "No snapshots found" ]))
    /\ (forall e,
           communicated answer = Raised e ->
           main w args servers t
           = (Raised e, [listing_started server_id; Popen line answer])
           /\ exit_status (result (main w args servers) t) = Some 1%Z)
    /\ (exit_status (result (main w args servers) t) = Some 0%Z
        <-> exists c, answer = Exited c).
Proof.
  intros w args servers server_id t Hlist Hid line answer.
  pose proof (list_snapshots_run w server_id t) as Hrun. cbv zeta in Hrun.
  fold line in Hrun. fold answer in Hrun.
  unfold result, emitted.
  rewrite (@main_list_run w args servers server_id t Hlist Hid).
  rewrite Hrun. clear Hrun. clearbody answer.
  split; [|split].
  - intros c ->. cbn [communicated]. split.
    + destruct (Z.eqb (returncode c) 0); [|reflexivity].
      destruct (snapshots_in server_id (stdout c)); reflexivity.
    + intros Hne. apply Z.eqb_neq in Hne. rewrite Hne. split; reflexivity.
  - intros e He. rewrite He. split; reflexivity.
  - split.
    + destruct answer as [c|z m|m]; cbn; [eauto | discriminate..].
    + intros (c & ->). cbn [communicated].
      destruct (Z.eqb (returncode c) 0); [|reflexivity].
      destruct (snapshots_in server_id (stdout c)); reflexivity.
Qed.

(** ** The modes of main *)

Lemma supplied_some (o : option string) (s : string) :
  supplied o = Some s -> o = Some s /\ Py.truthy s = true.
Proof.
  unfold supplied. destruct o as [x|]; [|discriminate].
  destruct (Py.truthy x) eqn:E; [|discriminate].
  intros H. injection H as <-. split; [reflexivity | assumption].
Qed.

(** What main makes of restore_server. *)
Definition after_restore (run : outcome bool * list event)
  : outcome finished * list event :=
  match run with
  | (Returned true, evs) =>
      (Returned (Exit 0), (evs ++ [Log Info "Restore completed successfully"])%list)
  | (Returned false, evs) =>
      (Returned (Exit 1), (evs ++ [Log Error "Restore failed"])%list)
  | (Raised e, evs) => (Raised e, evs)
  end.

Lemma main_restore_run (w : World) (args : Args) (servers : list (key * Settings))
      (server_id snapshot : string) (t : trace) :
  arg_list_snapshots args = false ->
  arg_backup args = false ->
  arg_restore args = true ->
  supplied (arg_server_id args) = Some server_id ->
  supplied (arg_snapshot args) = Some snapshot ->
  main w args servers t = after_restore (restore_server w server_id snapshot t).
Proof.
  intros Hlist Hbackup Hrestore Hid Hsnap. unfold main.
  rewrite Hlist, Hbackup, Hrestore, Hid, Hsnap. unfold bind at 1.
  destruct (restore_server w server_id snapshot t) as [[[|]|e] evs]; reflexivity.
Qed.

Lemma main_restore_unsupplied (w : World) (args : Args)
      (servers : list (key * Settings)) (t : trace) :
  arg_list_snapshots args = false ->
  arg_backup args = false ->
  arg_restore args = true ->
  supplied (arg_server_id args) = None \/ supplied (arg_snapshot args) = None ->
  main w args servers t
  = (Returned (Exit 1),
     [Log Error "Both server ID and snapshot name are required for restore"]).
Proof.
  intros Hlist Hbackup Hrestore Hmiss. unfold main.
  rewrite Hlist, Hbackup, Hrestore.
  destruct (supplied (arg_server_id args)) as [sid|];
    destruct (supplied (arg_snapshot args)) as [snap|];
    try reflexivity.
  destruct Hmiss as [H|H]; discriminate H.
Qed.

Lemma main_scheduler_run (w : World) (args : Args)
      (servers : list (key * Settings)) (t : trace) :
  arg_list_snapshots args = false ->
  arg_backup args = false ->
  arg_restore args = false ->
  exists jobs logs,
    main w args servers t
    = (Returned (Scheduling jobs),
       (logs ++ [Log Info "Starting backup scheduler"])%list)
    /\ registered w servers jobs
    /\ Forall is_log logs.
Proof.
  intros Hlist Hbackup Hrestore. unfold main.
  rewrite Hlist, Hbackup, Hrestore.
  destruct (schedule_jobs_run w servers [] t)
    as (added & logs & Hrun & Hreg & Hlogs & _).
  exists added, logs. split; [|split; assumption].
  unfold bind at 1. rewrite Hrun. reflexivity.
Qed.

(** An event that reads or changes the volume directory, or kills a
    container: what only a restore does. *)
Definition restoring (e : event) : Prop :=
  match e with
  | Listdir _ _ | Isfile _ _ | Isdir _ _ | Unlink _ _ | Rmtree _ _ => True
  | Run cmd _ => exists name, cmd = docker_cmd "kill" name
  | _ => False
  end.

Lemma kill_is_not_stop (n1 n2 : string) : docker_cmd "kill" n1 <> docker_cmd "stop" n2.
Proof. unfold docker_cmd. cbn. intros H. discriminate. Qed.

Lemma kill_is_not_start (n1 n2 : string) : docker_cmd "kill" n1 <> docker_cmd "start" n2.
Proof. unfold docker_cmd. cbn. intros H. discriminate. Qed.

Lemma logs_do_not_restore (logs : list event) :
  Forall is_log logs -> forall e, In e logs -> ~ restoring e.
Proof.
  intros H e Hin Hr. rewrite Forall_forall in H. apply H in Hin.
  destruct e; simpl in *; tauto.
Qed.

Lemma backup_run_does_not_restore (w : World) (server_id : string)
      (config : Settings) (t : trace) (r : outcome bool) (evs : list event) :
  backup_run w server_id config t r evs ->
  forall e, In e evs -> ~ restoring e.
Proof.
  intros Hrun e Hin Hr.
  assert (Hb : forall x, before_backup server_id x -> ~ restoring x).
  { intros x Hx Hrx. destruct x; simpl in *; try tauto.
    destruct Hx as [n ->]. destruct Hrx as [m Hm]. symmetry in Hm.
    exact (kill_is_not_stop Hm). }
  assert (Ha : forall x, after_the_backup server_id x -> ~ restoring x).
  { intros x Hx Hrx. destruct x; simpl in *; try tauto.
    destruct Hx as [n ->]. destruct Hrx as [m Hm]. symmetry in Hm.
    exact (kill_is_not_start Hm). }
  destruct (backup_run_split Hrun)
    as [Hnone|(b0 & c0 & p0 & a0 & -> & Hb0 & Ha0)].
  - exact (Hb _ (Hnone _ Hin) Hr).
  - rewrite Forall_forall in Hb0, Ha0.
    apply in_app_or in Hin as [Hin|[<-|Hin]].
    + exact (Hb _ (Hb0 _ Hin) Hr).
    + exact Hr.
    + exact (Ha _ (Ha0 _ Hin) Hr).
Qed.

(** The volume directory is listed or emptied, and a container is killed,
    in restore mode only: --list-snapshots and --backup come first, so a
    --restore given with either of them is never acted on, and the
    scheduler mode does none of it while it registers the jobs. *)
Theorem only_restore_mode_wipes_the_volume :
  forall (w : World) (args : Args) (servers : list (key * Settings))
         (t : trace) (e : event),
    In e (emitted (main w args servers) t) ->
    restoring e ->
    arg_list_snapshots args = false
    /\ arg_backup args = false
    /\ arg_restore args = true.
Proof.
  intros w args servers t e Hin Hr. unfold emitted in Hin.
  destruct (arg_list_snapshots args) eqn:Hlist.
  { exfalso. destruct (supplied (arg_server_id args)) as [sid|] eqn:Hid.
    - rewrite (@main_list_run w args servers sid t Hlist Hid) in Hin.
      pose proof (list_snapshots_run w sid t) as Hrun. cbv zeta in Hrun.
      rewrite Hrun in Hin. clear Hrun.
      destruct (communicated (w_popen w _ _)) as [c|x].
      + destruct (Z.eqb (returncode c) 0).
        * destruct (snapshots_in sid (stdout c)) as [|s l];
            cbn [after_listing snd] in Hin.
          -- in_cases Hin; subst e; exact Hr.
          -- apply in_app_or in Hin as [Hin|[Hin|Hin]].
             ++ in_cases Hin; subst e; exact Hr.
             ++ subst e. exact Hr.
             ++ apply in_map_iff in Hin as (y & <- & _). exact Hr.
        * cbn [after_listing snd] in Hin. in_cases Hin; subst e; exact Hr.
      + cbn [after_listing snd] in Hin. in_cases Hin; subst e; exact Hr.
    - unfold main in Hin. rewrite Hlist, Hid in Hin. cbn in Hin.
      destruct Hin as [<-|[]]. exact Hr. }
  destruct (arg_backup args) eqn:Hbackup.
  { exfalso. destruct (supplied (arg_server_id args)) as [sid|] eqn:Hid.
    - apply supplied_some in Hid as [Hid Hgiven].
      rewrite (@main_backup_run w args servers sid t Hlist Hbackup Hid Hgiven) in Hin.
      destruct (backup_server_run w sid
                  (if arg_shutdown args then set_shutdown (servers_get servers sid)
                   else servers_get servers sid) t) as (r & evs & Heq & Hrun).
      rewrite Heq in Hin.
      pose proof (backup_run_does_not_restore Hrun) as Hno.
      destruct r as [[|]|x]; cbn [after_backup snd] in Hin.
      + apply in_app_or in Hin as [Hin|[<-|[]]]; [exact (Hno _ Hin Hr) | exact Hr].
      + apply in_app_or in Hin as [Hin|[<-|[]]]; [exact (Hno _ Hin Hr) | exact Hr].
      + exact (Hno _ Hin Hr).
    - unfold main in Hin. rewrite Hlist, Hbackup, Hid in Hin. cbn in Hin.
      destruct Hin as [<-|[]]. exact Hr. }
  destruct (arg_restore args) eqn:Hrestore; [repeat split|].
  exfalso.
  destruct (@main_scheduler_run w args servers t Hlist Hbackup Hrestore)
    as (jobs & logs & Heq & _ & Hlogs).
  rewrite Heq in Hin. cbn [snd] in Hin.
  apply in_app_or in Hin as [Hin|[<-|[]]].
  - exact (logs_do_not_restore Hlogs _ Hin Hr).
  - exact Hr.
Qed.

(** A mode whose server id is missing or empty, and a restore whose
    snapshot name is missing or empty, end with exit code 1 after one
    error line: nothing was asked of the host. *)
Theorem missing_argument_exits_before_any_action :
  forall (w : World) (args : Args) (servers : list (key * Settings))
         (t : trace),
    arg_list_snapshots args = true \/ arg_backup args = true
    \/ arg_restore args = true ->
    supplied (arg_server_id args) = None
    \/ (arg_list_snapshots args = false /\ arg_backup args = false
        /\ supplied (arg_snapshot args) = None) ->
    exists msg,
      main w args servers t = (Returned (Exit 1), [Log Error msg]).
Proof.
  intros w args servers t Hmode Hmiss.
  destruct (arg_list_snapshots args) eqn:Hlist.
  { destruct Hmiss as [Hid|(H & _)]; [|discriminate H].
    eexists. unfold main. rewrite Hlist, Hid. reflexivity. }
  destruct (arg_backup args) eqn:Hbackup.
  { destruct Hmiss as [Hid|(_ & H & _)]; [|discriminate H].
    eexists. unfold main. rewrite Hlist, Hbackup, Hid. reflexivity. }
  destruct Hmode as [H|[H|Hrestore]]; try discriminate H.
  eexists. apply main_restore_unsupplied; try assumption.
  destruct Hmiss as [Hid|(_ & _ & Hsnap)]; [left | right]; assumption.
Qed.

(** In restore mode the process ends with status 0 exactly when the
    restore command was run to its end, with output that decoded and status
    zero, and with status 1 in every other case. *)
Theorem restore_exit_code_follows_the_command :
  forall (w : World) (args : Args) (servers : list (key * Settings))
         (t : trace),
    arg_list_snapshots args = false ->
    arg_backup args = false ->
    arg_restore args = true ->
    let status := exit_status (result (main w args servers) t) in
    (status = Some 0%Z
     <->
     exists server_id snapshot path c,
       supplied (arg_server_id args) = Some server_id
       /\ supplied (arg_snapshot args) = Some snapshot
       /\ In (Run (restore_line w server_id snapshot path) (Some (Exited c)))
             (emitted (main w args servers) t)
       /\ returncode c = 0%Z)
    /\ (status <> Some 0%Z -> status = Some 1%Z).
Proof.
  intros w args servers t Hlist Hbackup Hrestore. cbv zeta.
  unfold result, emitted.
  destruct (supplied (arg_server_id args)) as [sid|] eqn:Hid;
    [destruct (supplied (arg_snapshot args)) as [snap|] eqn:Hsnap|].
  - rewrite (@main_restore_run w args servers sid snap t
               Hlist Hbackup Hrestore Hid Hsnap).
    destruct (restore_server_run w sid snap t) as (r & evs & Heq & Hrun).
    rewrite Heq. split; [split|].
    + intros Hz. destruct r as [[|]|x]; cbn in Hz; try discriminate Hz.
      destruct (restore_run_true Hrun) as (path & c & Hin & Hc).
      exists sid, snap, path, c. repeat split; [|assumption].
      cbn [after_restore snd]. apply in_or_app. left. assumption.
    + intros (sid' & snap' & path & c & Es & En & Hin & Hc).
      injection Es as <-. injection En as <-.
      assert (Hin' : In (Run (restore_line w sid snap path) (Some (Exited c))) evs).
      { destruct r as [[|]|x]; cbn [after_restore snd] in Hin;
          [apply in_app_or in Hin as [Hin|[Hin|[]]];
             [assumption | discriminate Hin] ..| assumption]. }
      destruct (restore_run_commands Hrun _ _ Hin') as [(name & Hn)|(p & _ & Hres)].
      * exfalso. exact (restore_is_not_kill Hn).
      * subst r. cbn. apply Z.eqb_eq in Hc. rewrite Hc. reflexivity.
    + destruct r as [[|]|x]; cbn; intros H; [contradiction | reflexivity..].
  - rewrite (@main_restore_unsupplied w args servers t Hlist Hbackup Hrestore
               (or_intror Hsnap)).
    split; [split; [discriminate|] | reflexivity].
    intros (? & ? & ? & ? & _ & H & _). discriminate H.
  - rewrite (@main_restore_unsupplied w args servers t Hlist Hbackup Hrestore
               (or_introl Hid)).
    split; [split; [discriminate|] | reflexivity].
    intros (? & ? & ? & ? & H & _). discriminate H.
Qed.


(** *** The modes on the scripted host *)

Definition cli_list (server_id : string) : Args :=
  {| arg_backup := false; arg_restore := false;
     arg_server_id := Some server_id; arg_snapshot := None;
     arg_list_snapshots := true; arg_shutdown := false |}.

Definition cli_restore (server_id snapshot : string) : Args :=
  {| arg_backup := false; arg_restore := true;
     arg_server_id := Some server_id; arg_snapshot := Some snapshot;
     arg_list_snapshots := false; arg_shutdown := false |}.


(** The repository holds one snapshot of server ab12 and one of ab12cd. *)
Definition two_snapshots : completed :=
  Completed 0
    (Py.unlines [ "host/ab12/2026-11-01T03:00:00Z";
                  "host/ab12cd/2026-11-01T04:00:00Z" ])
    EmptyString.

Definition listing_host : World := scripted (alpha [] (Exited two_snapshots)).

Example listing_of_the_shorter_id :
  main listing_host (cli_list "ab12") [] []
  = (Returned (Exit 0),
     [ Log Info "Listing snapshots for ab12";
       Popen "proxmox-backup-client snapshots --repository 'backup@pbs@pbs.example:store' --ns games"
             (Exited two_snapshots);
       Print (nl ++ "Available snapshots:");
       Print "host/ab12/2026-11-01T03:00:00Z";
       Print "host/ab12cd/2026-11-01T04:00:00Z" ]).
Proof. vm_compute. reflexivity. Qed.

(** The listing as Latin-1 bytes that are no UTF-8: communicate() raises. *)
Example listing_with_undecodable_output :
  main (scripted (alpha [] (Undecodable 0 "'utf-8' codec can't decode byte 0xe9")))
       (cli_list "ab12") [] []
  = (Raised (UnicodeDecodeError "'utf-8' codec can't decode byte 0xe9"),
     [ Log Info "Listing snapshots for ab12";
       Popen "proxmox-backup-client snapshots --repository 'backup@pbs@pbs.example:store' --ns games"
             (Undecodable 0 "'utf-8' codec can't decode byte 0xe9") ]).
Proof. vm_compute. reflexivity. Qed.

Lemma snapshots_of_longer_ids_are_listed_witness :
  exists listed listed',
    result (list_snapshots listing_host "ab12") [] = Returned listed
    /\ result (list_snapshots listing_host "ab12cd") [] = Returned listed'
    /\ incl listed' listed.
Proof.
  apply (@snapshots_of_longer_ids_are_listed listing_host "ab12" "ab12cd" [] []
           two_snapshots); reflexivity.
Defined.

Lemma listing_failure_reads_as_no_snapshot_witness :
  result (main failing_backup (cli_list "alpha") []) [] = Returned (Exit 0)
  /\ emitted (main failing_backup (cli_list "alpha") []) []
     = [ Log Info "Listing snapshots for alpha";
         Popen "proxmox-backup-client snapshots --repository 'backup@pbs@pbs.example:store' --ns games"
               (ended 255 "Error: unable to connect");
         Log Error "Failed to list snapshots: Error: unable to connect";
         Print "No snapshots found" ].
Proof.
  destruct (proj1 (@listing_failure_reads_as_no_snapshot failing_backup
                     (cli_list "alpha") [] "alpha" [] eq_refl eq_refl)
                  (Completed 255 EmptyString "Error: unable to connect") eq_refl)
    as [Hexit Hfailed].
  split; [exact Hexit|].
  destruct Hfailed as [_ Hevents]; [cbn; discriminate | exact Hevents].
Defined.

Lemma only_restore_mode_wipes_the_volume_witness :
  arg_list_snapshots (cli_restore "alpha" "snap") = false
  /\ arg_backup (cli_restore "alpha" "snap") = false
  /\ arg_restore (cli_restore "alpha" "snap") = true.
Proof.
  apply (@only_restore_mode_wipes_the_volume (scripted permission_denied)
           (cli_restore "alpha" "snap") [] []
           (Unlink "/data/alpha-world/a.txt" None)).
  - vm_compute. tauto.
  - exact I.
Defined.

Lemma missing_argument_exits_before_any_action_witness :
  exists msg,
    main plain_host (cli_backup EmptyString true) three_servers []
    = (Returned (Exit 1), [Log Error msg]).
Proof.
  apply (@missing_argument_exits_before_any_action plain_host
           (cli_backup EmptyString true) three_servers []).
  - right. left. reflexivity.
  - left. reflexivity.
Defined.

Lemma restore_exit_code_follows_the_command_witness :
  let status :=
    exit_status (result (main plain_host (cli_restore "alpha" "snap") []) []) in
  (status = Some 0%Z
   <->
   exists server_id snapshot path c,
     supplied (arg_server_id (cli_restore "alpha" "snap")) = Some server_id
     /\ supplied (arg_snapshot (cli_restore "alpha" "snap")) = Some snapshot
     /\ In (Run (restore_line plain_host server_id snapshot path) (Some (Exited c)))
           (emitted (main plain_host (cli_restore "alpha" "snap") []) [])
     /\ returncode c = 0%Z)
  /\ (status <> Some 0%Z -> status = Some 1%Z).
Proof.
  apply (@restore_exit_code_follows_the_command plain_host
           (cli_restore "alpha" "snap") [] []); reflexivity.
Defined.


(** * load_config (lines 29-56) *)

(** What [yaml.safe_load] returns, as far as load_config looks at it: a
    dict with its items in order, a string, another container that
    supports [in] (a list, a set), or a value on which [in] raises
    TypeError (None, a boolean, a number, a date, bytes).  The keys of a
    dict are the keys of the servers dict above. *)
#[local] Set Warnings "-register-all".
Inductive value :=
| Dict (items : list (key * value))
| Str (s : string)
| Collection (elements : list value)
| Scalar (text : string).
#[local] Set Warnings "register-all".

(** What the host answers when config.yaml is looked for, opened and
    parsed. *)
Inductive config_file :=
| Absent                       (* Path.exists() is False *)
| Vanished (text : string)     (* open raises FileNotFoundError *)
| Unreadable (text : string)   (* open raises another OSError *)
| Malformed (text : string)    (* safe_load raises yaml.YAMLError *)
| Misencoded (text : string)  (* reading raises UnicodeDecodeError, a ValueError *)
| Parsed (config : value).

Inductive config_exn :=
| FileNotFoundError (text : string)
| YAMLError (text : string)
| ConfigValueError (text : string)
| ConfigOSError (text : string)
| AttributeError
| ConfigTypeError.

(** How load_config ends: it returns the config, leaves through
    [sys.exit(code)], or lets an exception through. *)
Inductive loaded :=
| Config (config : value)
| SystemExit (code : Z)
| Uncaught (e : config_exn).

Definition CONFIG_PATH : string := "config.yaml".

(** [k in d] and [d.get(k)] for a string [k] and a dict [d]. *)
Definition is_key (k : string) (item : key * value) : bool :=
  match fst item with KStr s => String.eqb s k | KOther _ _ => false end.

Definition dict_get (items : list (key * value)) (k : string) : option value :=
  option_map snd (find (is_key k) items).

Definition is_str (k : string) (v : value) : bool :=
  match v with Str s => String.eqb s k | _ => false end.

(** [k in v]; None when it raises ConfigTypeError. *)
Definition py_in (k : string) (v : value) : option bool :=
  match v with
  | Dict items => Some (existsb (is_key k) items)
  | Str s => Some (Py.contains k s)
  | Collection elements => Some (existsb (is_str k) elements)
  | Scalar _ => None
  end.

Definition missing_setting (server_id : key) (setting : string) : config_exn :=
  ConfigValueError ("Server " ++ str_of_key server_id ++ " missing required '"
                      ++ setting ++ "' setting").

(** The loop over [config['servers'].items()]: the exception it raises, if
    it raises one. *)
Fixpoint check_servers (servers : list (key * value)) : option config_exn :=
  match servers with
  | [] => None
  | (server_id, settings) :: rest =>
      match py_in "schedule" settings with
      | None => Some ConfigTypeError
      | Some false => Some (missing_setting server_id "schedule")
      | Some true =>
          match py_in "name" settings with
          | None => Some ConfigTypeError
          | Some false => Some (missing_setting server_id "name")
          | Some true => check_servers rest
          end
      end
  end.

(** The body of the try statement. *)
Definition load_body (file : config_file) : config_exn + value :=
  match file with
  | Absent => inl (FileNotFoundError ("Config file not found: " ++ CONFIG_PATH))
  | Vanished text => inl (FileNotFoundError text)
  | Unreadable text => inl (ConfigOSError text)
  | Malformed text => inl (YAMLError text)
  | Misencoded text => inl (ConfigValueError text)
  | Parsed config =>
      match config with
      | Dict items =>
          match dict_get items "servers" with
          | Some (Dict servers) =>
              match check_servers servers with
              | Some e => inl e
              | None => inr config
              end
          | _ => inl (ConfigValueError "Config must contain a 'servers' dictionary")
          end
      | _ => inl AttributeError
      end
  end.

(** [except (yaml.YAMLError, FileNotFoundError, ValueError) as e]: the
    text of [e] when the clause catches it. *)
Definition caught (e : config_exn) : option string :=
  match e with
  | FileNotFoundError text | YAMLError text | ConfigValueError text => Some text
  | ConfigOSError _ | AttributeError | ConfigTypeError => None
  end.

Definition load_config (file : config_file) : loaded * list event :=
  match load_body file with
  | inr config => (Config config, [])
  | inl e =>
      match caught e with
      | Some text => (SystemExit 1, [Log Error ("Failed to load config: " ++ text)])
      | None => (Uncaught e, [])
      end
  end.

(** A value in which [in] finds the string. *)
Definition mentions (k : string) (v : value) : Prop :=
  match v with
  | Dict items => In (KStr k) (map fst items)
  | Str s => Py.contains k s = true
  | Collection elements => In (Str k) elements
  | Scalar _ => False
  end.

Definition has_required (item : key * value) : Prop :=
  mentions "schedule" (snd item) /\ mentions "name" (snd item).

Lemma existsb_is_key (k : string) (items : list (key * value)) :
  existsb (is_key k) items = true <-> In (KStr k) (map fst items).
Proof.
  rewrite existsb_exists, in_map_iff. split.
  - intros ([k' v] & Hin & Hk). exists (k', v). split; [|assumption].
    unfold is_key in Hk. cbn in *. destruct k' as [s|text]; [|discriminate Hk].
    apply String.eqb_eq in Hk. subst s. reflexivity.
  - intros ([k' v] & Hk & Hin). exists (k', v). split; [assumption|].
    cbn in Hk. subst k'. unfold is_key. cbn. apply String.eqb_refl.
Qed.

Lemma existsb_is_str (k : string) (elements : list value) :
  existsb (is_str k) elements = true <-> In (Str k) elements.
Proof.
  rewrite existsb_exists. split.
  - intros (v & Hin & Hv). destruct v as [items|s|l|text]; try discriminate Hv.
    cbn in Hv. apply String.eqb_eq in Hv. subst s. assumption.
  - intros Hin. exists (Str k). split; [assumption|]. cbn. apply String.eqb_refl.
Qed.

Lemma py_in_true (k : string) (v : value) :
  py_in k v = Some true <-> mentions k v.
Proof.
  destruct v as [items|s|l|text]; cbn.
  - rewrite <- existsb_is_key. split; [intros H; injection H as H | intros ->];
      auto.
  - split; [intros H; injection H as H | intros ->]; auto.
  - rewrite <- existsb_is_str. split; [intros H; injection H as H | intros ->];
      auto.
  - split; [discriminate | contradiction].
Qed.

Lemma check_servers_passes (servers : list (key * value)) :
  check_servers servers = None <-> Forall has_required servers.
Proof.
  induction servers as [|[server_id settings] rest IH]; cbn [check_servers].
  - split; [constructor | reflexivity].
  - split.
    + intros H.
      destruct (py_in "schedule" settings) as [[|]|] eqn:Hs; try discriminate H.
      destruct (py_in "name" settings) as [[|]|] eqn:Hn; try discriminate H.
      constructor; [|apply IH; assumption].
      split; apply py_in_true; assumption.
    + intros H. inversion H as [|x l [Hs Hn] Hrest]; subst.
      cbn [snd] in Hs, Hn. apply py_in_true in Hs, Hn. rewrite Hs, Hn.
      apply IH. assumption.
Qed.

(** load_config returns a config exactly when the file was parsed into a
    dict whose 'servers' entry is a dict in which every server's settings
    hold 'schedule' and 'name'; it then returns what was parsed and logs
    nothing. *)
Theorem load_config_returns_validated_config :
  forall (file : config_file) (config : value) (logged : list event),
    load_config file = (Config config, logged)
    <->
    file = Parsed config
    /\ logged = []
    /\ exists items servers,
         config = Dict items
         /\ dict_get items "servers" = Some (Dict servers)
         /\ Forall has_required servers.
Proof.
  intros file config logged. unfold load_config. split.
  - intros H. destruct (load_body file) as [e|c] eqn:Hbody.
    + destruct (caught e); discriminate H.
    + injection H as <- <-.
      unfold load_body in Hbody.
      destruct file as [|text|text|text|text|v]; try discriminate Hbody.
      destruct v as [items|s|l|text]; try discriminate Hbody.
      destruct (dict_get items "servers") as [[servers|s|l|text]|] eqn:Hget;
        try discriminate Hbody.
      destruct (check_servers servers) as [e|] eqn:Hcheck; [discriminate Hbody|].
      injection Hbody as <-. split; [reflexivity|]. split; [reflexivity|].
      exists items, servers. repeat split; [assumption|].
      apply check_servers_passes. assumption.
  - intros (-> & -> & items & servers & -> & Hget & Hall).
    apply check_servers_passes in Hall. cbn [load_body].
    rewrite Hget, Hall. reflexivity.
Qed.

(** A server whose settings are a dict is accepted only with both keys:
    in a config that load_config returned, such a server has a
    'schedule' and a 'name' entry. *)
Theorem loaded_servers_have_schedule_and_name :
  forall (file : config_file) (config : value) (logged : list event),
    load_config file = (Config config, logged) ->
    exists items servers,
      config = Dict items
      /\ dict_get items "servers" = Some (Dict servers)
      /\ forall server_id settings,
           In (server_id, Dict settings) servers ->
           (exists schedule, dict_get settings "schedule" = Some schedule)
           /\ (exists name, dict_get settings "name" = Some name).
Proof.
  intros file config logged H. unfold load_config in H.
  destruct (load_body file) as [e|c] eqn:Hbody; [destruct (caught e); discriminate H|].
  injection H as <- <-. unfold load_body in Hbody.
  destruct file as [|text|text|text|text|v]; try discriminate Hbody.
  destruct v as [items|s|l|text]; try discriminate Hbody.
  destruct (dict_get items "servers") as [[servers|s|l|text]|] eqn:Hget;
    try discriminate Hbody.
  destruct (check_servers servers) as [e|] eqn:Hcheck; [discriminate Hbody|].
  injection Hbody as <-. exists items, servers. repeat split; try assumption.
  - apply check_servers_passes in Hcheck. rewrite Forall_forall in Hcheck.
    destruct (Hcheck _ H) as [Hs _]. cbn in Hs. apply existsb_is_key in Hs.
    unfold dict_get. destruct (find (is_key "schedule") settings) as [[k v]|] eqn:Hf.
    + exists v. reflexivity.
    + exfalso. apply existsb_exists in Hs as (x & Hin & Hx).
      pose proof (find_none _ _ Hf x Hin) as Hno. congruence.
  - apply check_servers_passes in Hcheck. rewrite Forall_forall in Hcheck.
    destruct (Hcheck _ H) as [_ Hn]. cbn in Hn. apply existsb_is_key in Hn.
    unfold dict_get. destruct (find (is_key "name") settings) as [[k v]|] eqn:Hf.
    + exists v. reflexivity.
    + exfalso. apply existsb_exists in Hn as (x & Hin & Hx).
      pose proof (find_none _ _ Hf x Hin) as Hno. congruence.
Qed.

(** The first server, in the order of the file, whose settings lack a
    required entry is the one load_config reports, 'schedule' before
    'name'; it logs that one line and exits with 1. *)
Theorem load_config_reports_first_invalid_server :
  forall (items good rest : list (key * value)) (server_id : key)
         (settings : value) (lacking : string),
    dict_get items "servers" = Some (Dict (good ++ (server_id, settings) :: rest)%list) ->
    Forall has_required good ->
    (py_in "schedule" settings = Some false /\ lacking = "schedule")
    \/ (py_in "schedule" settings = Some true
        /\ py_in "name" settings = Some false /\ lacking = "name") ->
    load_config (Parsed (Dict items))
    = (SystemExit 1,
       [Log Error ("Failed to load config: Server " ++ str_of_key server_id
                     ++ " missing required '" ++ lacking ++ "' setting")]).
Proof.
  intros items good rest server_id settings lacking Hget Hgood Hlack.
  assert (Hcheck : check_servers (good ++ (server_id, settings) :: rest)%list
                   = Some (missing_setting server_id lacking)).
  { clear Hget. induction Hgood as [|[k v] good [Hs Hn] _ IH].
    - cbn [app check_servers].
      destruct Hlack as [(Hs & ->)|(Hs & Hn & ->)]; rewrite Hs; [|rewrite Hn];
        reflexivity.
    - cbn [app check_servers]. cbn [snd] in Hs, Hn.
      apply py_in_true in Hs, Hn. rewrite Hs, Hn. exact IH. }
  unfold load_config. cbn [load_body]. rewrite Hget, Hcheck. reflexivity.
Qed.

(** load_config lets an exception through, without a log line and without
    [sys.exit(1)], in three cases only: the file cannot be opened for
    another reason than its absence, what was parsed is not a dict (an
    empty file is parsed as None), or the first server that fails the
    check has settings on which [in] raises ConfigTypeError. *)
Theorem load_config_lets_through :
  forall (file : config_file) (e : config_exn) (logged : list event),
    load_config file = (Uncaught e, logged)
    <->
    logged = []
    /\ ((exists text, file = Unreadable text /\ e = ConfigOSError text)
        \/ (exists config, file = Parsed config /\ e = AttributeError
                           /\ forall items, config <> Dict items)
        \/ (exists items good server_id text rest,
              file = Parsed (Dict items) /\ e = ConfigTypeError
              /\ dict_get items "servers"
                 = Some (Dict (good ++ (server_id, Scalar text) :: rest)%list)
              /\ Forall has_required good)).
Proof.
  intros file e logged.
  assert (Hloop : forall servers x,
             check_servers servers = Some x -> caught x = None ->
             x = ConfigTypeError
             /\ exists good server_id text rest,
                  servers = (good ++ (server_id, Scalar text) :: rest)%list
                  /\ Forall has_required good).
  { induction servers as [|[k v] servers IH]; intros x Hx Hc; [discriminate Hx|].
    cbn [check_servers] in Hx.
    destruct (py_in "schedule" v) as [[|]|] eqn:Hs.
    - destruct (py_in "name" v) as [[|]|] eqn:Hn.
      + destruct (IH x Hx Hc) as (-> & good & sid & text & rest & -> & Hgood).
        split; [reflexivity|]. exists ((k, v) :: good), sid, text, rest.
        split; [reflexivity|]. constructor; [|assumption].
        split; apply py_in_true; assumption.
      + injection Hx as <-. discriminate Hc.
      + destruct v as [items|s|l|text]; [discriminate Hn ..| discriminate Hs].
    - injection Hx as <-. discriminate Hc.
    - injection Hx as <-. split; [reflexivity|].
      destruct v as [items|s|l|text]; try discriminate Hs.
      exists [], k, text, servers. split; [reflexivity | constructor]. }
  unfold load_config. split.
  - intros H. destruct (load_body file) as [x|c] eqn:Hbody; [|discriminate H].
    destruct (caught x) as [text|] eqn:Hc; [discriminate H|].
    injection H as <- <-. split; [reflexivity|].
    unfold load_body in Hbody.
    destruct file as [|text|text|text|text|v];
      try (injection Hbody as <-; discriminate Hc).
    + left. injection Hbody as <-. exists text. split; reflexivity.
    + destruct v as [items|s|l|text].
      * right. right.
        destruct (dict_get items "servers") as [[servers|s|l|text]|] eqn:Hget;
          try (injection Hbody as <-; discriminate Hc).
        destruct (check_servers servers) as [y|] eqn:Hcheck; [|discriminate Hbody].
        injection Hbody as <-.
        destruct (Hloop _ _ Hcheck Hc) as (-> & good & sid & text & rest & -> & Hgood).
        exists items, good, sid, text, rest. repeat split; assumption.
      * right. left. injection Hbody as <-. exists (Str s).
        repeat split. intros items H. discriminate H.
      * right. left. injection Hbody as <-. exists (Collection l).
        repeat split. intros items H. discriminate H.
      * right. left. injection Hbody as <-. exists (Scalar text).
        repeat split. intros items H. discriminate H.
  - intros (-> & [(text & -> & ->)|[(config & -> & -> & Hno)
                                   |(items & good & sid & text & rest & -> & -> & Hget & Hgood)]]).
    + reflexivity.
    + destruct config as [items|s|l|text]; try reflexivity.
      exfalso. exact (Hno items eq_refl).
    + cbn [load_body]. rewrite Hget.
      assert (Hcheck : check_servers (good ++ (sid, Scalar text) :: rest)%list
                       = Some ConfigTypeError).
      { clear Hget. induction Hgood as [|[k v] good [Hs Hn] _ IH]; [reflexivity|].
        cbn [app check_servers]. cbn [snd] in Hs, Hn.
        apply py_in_true in Hs, Hn. rewrite Hs, Hn. exact IH. }
      rewrite Hcheck. reflexivity.
Qed.

(** *** Configurations *)

Definition server_entry (schedule name : string) : value :=
  Dict [ (KStr "name", Str name); (KStr "schedule", Str schedule) ].

(** The second server has no schedule, the third no name. *)
Definition config_without_schedule : list (key * value) :=
  [ (KStr "settings", Dict [ (KStr "volumes_path", Str "/data") ]);
    (KStr "servers",
     Dict [ (KStr "alpha", server_entry "0 3 * * *" "Alpha");
            (KStr "beta", Dict [ (KStr "name", Str "Beta") ]);
            (KStr "gamma", Dict [ (KStr "schedule", Str "0 4 * * *") ]) ]) ].

Definition config_of_one_server : value :=
  Dict [ (KStr "servers", Dict [ (KStr "alpha", server_entry "0 3 * * *" "Alpha") ]) ].

(** The settings of the second server are left empty in the file. *)
Definition config_with_empty_server : list (key * value) :=
  [ (KStr "servers",
     Dict [ (KStr "alpha", server_entry "0 3 * * *" "Alpha");
            (KStr "beta", Scalar "None") ]) ].

Example empty_file_is_not_reported :
  load_config (Parsed (Scalar "None")) = (Uncaught AttributeError, []).
Proof. reflexivity. Qed.

Example absent_file_is_reported :
  load_config Absent
  = (SystemExit 1,
     [Log Error "Failed to load config: Config file not found: config.yaml"]).
Proof. reflexivity. Qed.

Lemma load_config_returns_validated_config_witness :
  load_config (Parsed config_of_one_server) = (Config config_of_one_server, []).
Proof.
  apply (load_config_returns_validated_config (Parsed config_of_one_server)
           config_of_one_server []).
  split; [reflexivity|]. split; [reflexivity|].
  exists [ (KStr "servers", Dict [ (KStr "alpha", server_entry "0 3 * * *" "Alpha") ]) ],
         [ (KStr "alpha", server_entry "0 3 * * *" "Alpha") ].
  split; [reflexivity|]. split; [reflexivity|].
  constructor; [|constructor]. split; cbn; tauto.
Defined.

Lemma loaded_servers_have_schedule_and_name_witness :
  exists items servers,
    config_of_one_server = Dict items
    /\ dict_get items "servers" = Some (Dict servers)
    /\ forall server_id settings,
         In (server_id, Dict settings) servers ->
         (exists schedule, dict_get settings "schedule" = Some schedule)
         /\ (exists name, dict_get settings "name" = Some name).
Proof.
  apply (@loaded_servers_have_schedule_and_name (Parsed config_of_one_server)
           config_of_one_server []).
  reflexivity.
Defined.

Lemma load_config_reports_first_invalid_server_witness :
  load_config (Parsed (Dict config_without_schedule))
  = (SystemExit 1,
     [Log Error ("Failed to load config: Server " ++ str_of_key (KStr "beta")
                   ++ " missing required '" ++ "schedule" ++ "' setting")]).
Proof.
  apply (@load_config_reports_first_invalid_server config_without_schedule
           [ (KStr "alpha", server_entry "0 3 * * *" "Alpha") ]
           [ (KStr "gamma", Dict [ (KStr "schedule", Str "0 4 * * *") ]) ]
           (KStr "beta") (Dict [ (KStr "name", Str "Beta") ]) "schedule").
  - reflexivity.
  - constructor; [|constructor]. split; cbn; tauto.
  - left. split; reflexivity.
Defined.

Lemma load_config_lets_through_witness :
  load_config (Parsed (Dict config_with_empty_server)) = (Uncaught ConfigTypeError, []).
Proof.
  apply (load_config_lets_through (Parsed (Dict config_with_empty_server))
           ConfigTypeError []).
  split; [reflexivity|]. right. right.
  exists config_with_empty_server,
         [ (KStr "alpha", server_entry "0 3 * * *" "Alpha") ],
         (KStr "beta"), "None", [].
  repeat split; try reflexivity.
  constructor; [|constructor]. split; cbn; tauto.
Defined.
